(** * rlm_repl: a persistent mini-REPL over a pickled session

    Shallow embedding of [.opencode/skills/rlm/scripts/rlm_repl.py] and
    proofs about its content accessors, its serialization filter and the
    [exec] command.

    Conventions.
    - Python [int] is [Z]; Python [str] is [string], one [ascii] per code
      point, so the development covers the code points below 256.
    - A Python [dict] with string keys is an association list in insertion
      order with distinct keys ([dict_wf]); order matters because the
      dropped-names report follows [dict.items()].
    - A Python call that can raise returns [result A = exn + A].
    - Patterns the program writes out are syntax trees run by the
      backtracking matcher of [PyRe]; a caller's pattern goes through a
      compiler that the sections take as a variable, and so does the
      effect of the caller's code.
    - [pickle.dumps] raises on an object what the object has it raise
      ([TypeError] for an open file, any exception of a [__reduce__]), and
      the caller's code can close the buffers that capture its output.
    - The commands [init] and [init-dir] read the directory tree through
      variables of their section; [write_chunks] and the commands [status],
      [reset] and [export-buffers] are left out. *)

From Stdlib Require Import ZArith List String Ascii Bool Lia DecimalString Sorted.
From Equations Require Import Equations.
Import ListNotations.

Local Open Scope string_scope.
Local Open Scope list_scope.
Local Open Scope Z_scope.

(* ===================================================================== *)
(** * Python runtime: exceptions, values, dictionaries, slices            *)
(* ===================================================================== *)

(** Exceptions.  [SystemExit] and [KeyboardInterrupt] derive from
    [BaseException] only; every other class here derives from
    [Exception], which is what [except Exception] catches. *)
Inductive exn : Type :=
| ValueError (msg : string)
| TypeError (msg : string)
| RlmReplError (msg : string)
| PicklingError (msg : string)
| UnpicklingError (msg : string)
| AttributeError (msg : string)
| ReError (msg : string)
| OtherException (cls msg : string)
| SystemExit (code : Z)
| KeyboardInterrupt.

Definition is_Exception (e : exn) : bool :=
  match e with
  | SystemExit _ | KeyboardInterrupt => false
  | _ => true
  end.

Definition result (A : Type) : Type := (exn + A)%type.

Definition ret {A} (a : A) : result A := inr a.
Definition raise {A} (e : exn) : result A := inl e.
Definition bind {A B} (m : result A) (f : A -> result B) : result B :=
  match m with
  | inl e => inl e
  | inr a => f a
  end.

Declare Scope py_scope.
Delimit Scope py_scope with py.
Notation "x <- m ;; k" := (bind m (fun x => k))
  (at level 61, m at next level, right associativity) : py_scope.
Local Open Scope py_scope.

(** How [pickle] treats an object that is not plain data. *)
Inductive pickling : Type :=
| Unpicklable (e : exn)
                (* [pickle.dumps] raises [e]: [TypeError] for an open file,
                   a socket, a generator or a module, [PicklingError] for a
                   lambda, and whatever the [__reduce__] of the object
                   raises *)
| DumpsOnly     (* pickled by reference; [pickle.loads] raises when the
                   reference cannot be resolved any more *)
| Picklable.    (* dumps and loads both succeed *)

(** Python values as far as the program inspects them. *)
#[local] Set Warnings "-register-all".
Inductive value : Type :=
| VNone
| VBool (b : bool)
| VInt (z : Z)
| VStr (s : string)
| VList (l : list value)
| VDict (d : list (string * value))
| VHelper (name : string)               (* a closure made by [_make_helpers] *)
| VObject (repr : string) (p : pickling).

Definition dict : Type := list (string * value).

Definition dict_keys (d : dict) : list string := map fst d.

Definition dict_wf (d : dict) : Prop := NoDup (dict_keys d).

Fixpoint dict_lookup (d : dict) (k : string) : option value :=
  match d with
  | [] => None
  | (k', v) :: d' => if String.eqb k k' then Some v else dict_lookup d' k
  end.

(** [k in d] *)
Definition dict_contains (d : dict) (k : string) : bool :=
  match dict_lookup d k with Some _ => true | None => false end.

(** [d.get(k, default)] *)
Definition dict_get (d : dict) (k : string) (default : value) : value :=
  match dict_lookup d k with Some v => v | None => default end.

(** [d[k] = v]: an existing key keeps its place, a new key goes last. *)
Fixpoint dict_set (d : dict) (k : string) (v : value) : dict :=
  match d with
  | [] => [(k, v)]
  | (k', v') :: d' =>
      if String.eqb k k' then (k', v) :: d' else (k', v') :: dict_set d' k v
  end.

(** [d.update(other)] *)
Definition dict_update (d other : dict) : dict :=
  fold_left (fun acc kv => dict_set acc (fst kv) (snd kv)) other d.

(** Truth value of an object, as [if x:] tests it. *)
Definition truthy (v : value) : bool :=
  match v with
  | VNone => false
  | VBool b => b
  | VInt z => negb (z =? 0)
  | VStr s => negb (String.eqb s "")
  | VList l => match l with [] => false | _ => true end
  | VDict d => match d with [] => false | _ => true end
  | VHelper _ => true
  | VObject _ _ => true
  end.

Definition str_len (s : string) : Z := Z.of_nat (String.length s).

(** [len(x)] *)
Definition py_len (v : value) : result Z :=
  match v with
  | VStr s => ret (str_len s)
  | VList l => ret (Z.of_nat (List.length l))
  | VDict d => ret (Z.of_nat (List.length d))
  | _ => raise (TypeError "object has no len()")
  end.

(** A slice bound [i] of a sequence of length [len]: negative bounds count
    from the end, and every bound is clamped into [0, len]. *)
Definition slice_bound (len i : Z) : Z :=
  if i <? 0 then Z.max 0 (i + len) else Z.min i len.

(** [s[start:stop]] on a string *)
Definition str_slice (s : string) (start stop : Z) : string :=
  let n := str_len s in
  let a := slice_bound n start in
  let b := slice_bound n stop in
  substring (Z.to_nat a) (Z.to_nat (b - a)) s.

(** [l[:stop]] on a list *)
Definition list_prefix {A} (l : list A) (stop : Z) : list A :=
  firstn (Z.to_nat (slice_bound (Z.of_nat (List.length l)) stop)) l.

(** [range(start, stop, step)], as the list of the values it yields. *)
Definition py_range (start stop step : Z) : result (list Z) :=
  if step =? 0 then raise (ValueError "range() arg 3 must not be zero")
  else
    let cnt :=
      if 0 <? step
      then (if start <? stop then (stop - start - 1) / step + 1 else 0)
      else (if stop <? start then (start - stop - 1) / (- step) + 1 else 0) in
    ret (map (fun i => start + Z.of_nat i * step) (seq 0 (Z.to_nat cnt))).

(* ===================================================================== *)
(** * Content accessors ([_make_helpers])                                  *)
(* ===================================================================== *)

(** Every accessor starts with [content = context_ref.get("content", "")]. *)
Definition get_content (context_ref : dict) : value :=
  dict_get context_ref "content" (VStr "").

(** ** chunk_indices *)

(** The body of [for start in range(0, n, step)]: append the span, stop at
    the first span that reaches [n]. *)
Fixpoint chunk_loop (n size : Z) (starts : list Z) (spans : list (Z * Z))
  : list (Z * Z) :=
  match starts with
  | [] => spans
  | start :: rest =>
      let end_ := Z.min n (start + size) in
      let spans := spans ++ [(start, end_)] in
      if end_ >=? n then spans else chunk_loop n size rest spans
  end.

Definition chunk_indices (context_ref : dict) (size overlap : Z)
  : result (list (Z * Z)) :=
  if size <=? 0 then raise (ValueError "size must be > 0")
  else if overlap <? 0 then raise (ValueError "overlap must be >= 0")
  else if overlap >=? size then raise (ValueError "overlap must be < size")
  else
    let content := get_content context_ref in
    n <- py_len content ;;
    let spans := [] in
    let step := size - overlap in
    starts <- py_range 0 n step ;;
    ret (chunk_loop n size starts spans).

(** Default arguments of [chunk_indices]. *)
Definition default_chunk_size : Z := 200000.
Definition default_chunk_overlap : Z := 0.

(* ===================================================================== *)
(** * Strings: character classes, [splitlines], [strip]                   *)
(* ===================================================================== *)

Definition code (c : ascii) : N := N_of_ascii c.

Definition in_range (lo hi : N) (c : ascii) : bool :=
  ((lo <=? code c) && (code c <=? hi))%N.

(** [str.isspace] on one character; also the class [\s] of [re]. *)
Definition is_space (c : ascii) : bool :=
  in_range 9 13 c || in_range 28 32 c || in_range 133 133 c
  || in_range 160 160 c.

(** The line boundaries of [str.splitlines]. *)
Definition is_linebreak (c : ascii) : bool :=
  in_range 10 13 c || in_range 28 30 c || in_range 133 133 c.

(** The class [\d] of [re]. *)
Definition is_digit (c : ascii) : bool := in_range 48 57 c.

(** The class [\w] of [re] on a [str] pattern: alphanumeric or underscore. *)
Definition is_word (c : ascii) : bool :=
  in_range 48 57 c || in_range 65 90 c || in_range 97 122 c
  || in_range 95 95 c
  || in_range 170 170 c || in_range 178 179 c || in_range 181 181 c
  || in_range 185 186 c || in_range 188 190 c
  || in_range 192 214 c || in_range 216 246 c || in_range 248 255 c.

(** Lower case of an ASCII letter; other characters are left alone. *)
Definition ascii_lower (c : ascii) : ascii :=
  if in_range 65 90 c then ascii_of_N (code c + 32) else c.

Definition LF : ascii := ascii_of_N 10.
Definition CR : ascii := ascii_of_N 13.

(** [s.splitlines()]: a line ends at a line boundary, [\r\n] counts as one
    boundary, and a trailing boundary opens no further line. *)
Fixpoint splitlines_from (cur s : string) : list string :=
  match s with
  | EmptyString => if String.eqb cur "" then [] else [cur]
  | String c s' =>
      if is_linebreak c then
        cur :: match s' with
               | String c' s'' =>
                   if Ascii.eqb c CR && Ascii.eqb c' LF
                   then splitlines_from "" s''
                   else splitlines_from "" s'
               | EmptyString => splitlines_from "" s'
               end
      else splitlines_from (cur ++ String c "")%string s'
  end.

Definition splitlines (s : string) : list string := splitlines_from "" s.

Fixpoint lstrip (s : string) : string :=
  match s with
  | String c s' => if is_space c then lstrip s' else s
  | EmptyString => ""
  end.

Fixpoint rstrip (s : string) : string :=
  match s with
  | String c s' =>
      let r := rstrip s' in
      if is_space c && String.eqb r "" then "" else String c r
  | EmptyString => ""
  end.

(** [s.strip()] *)
Definition strip (s : string) : string := rstrip (lstrip s).

(** The subject of a [re] scan must be a [str]. *)
Definition expect_str (v : value) : result string :=
  match v with
  | VStr s => ret s
  | _ => raise (TypeError "expected string or bytes-like object")
  end.

(** The receiver of [splitlines] must be a [str]. *)
Definition str_receiver (v : value) : result string :=
  match v with
  | VStr s => ret s
  | _ => raise (AttributeError "object has no attribute 'splitlines'")
  end.

(* ===================================================================== *)
(** * The [re] module                                                      *)
(* ===================================================================== *)

(** A match object: its span and the spans of the groups that took part. *)
Record Match : Type := mkMatch {
  m_start : Z;
  m_end : Z;
  m_groups : list (nat * (Z * Z))
}.

(** A compiled pattern, seen through what a scan of a subject string
    enumerates: the non-overlapping matches from left to right, and the
    number of capturing groups. *)
Record Pattern : Type := mkPattern {
  p_scan : string -> list Match;
  p_ngroups : nat
}.

(** [m.group(0)] *)
Definition match_text (content : string) (m : Match) : string :=
  str_slice content (m_start m) (m_end m).

(** [m.group(i)], the empty string when the group took no part. *)
Definition group_text (content : string) (m : Match) (i : nat) : string :=
  match find (fun g => Nat.eqb (fst g) i) (m_groups m) with
  | Some (_, (a, b)) => str_slice content a b
  | None => ""
  end.

(** One item of [findall]: the whole match without groups, the group with
    one group, the tuple of all groups otherwise. *)
Inductive FindItem : Type :=
| FText (s : string)
| FTuple (groups : list string).

Definition findall_item (p : Pattern) (content : string) (m : Match)
  : FindItem :=
  match p_ngroups p with
  | O => FText (match_text content m)
  | S O => FText (group_text content m 1)
  | n => FTuple (map (group_text content m) (seq 1 n))
  end.

(** [pattern.finditer(content)], [pattern.findall(content)] and
    [pattern.search(line)] enumerate the same scan. *)
Definition finditer (p : Pattern) (content : string) : list Match :=
  p_scan p content.

Definition findall (p : Pattern) (content : string) : list FindItem :=
  map (findall_item p content) (p_scan p content).

Definition search (p : Pattern) (line : string) : option Match :=
  hd_error (p_scan p line).

(** [pattern.split(content)]: the pieces between the matches, each match
    followed by the text of its groups. *)
Fixpoint split_at (p : Pattern) (content : string) (last : Z)
  (ms : list Match) : list string :=
  match ms with
  | [] => [str_slice content last (str_len content)]
  | m :: ms' =>
      str_slice content last (m_start m)
        :: map (group_text content m) (seq 1 (p_ngroups p))
        ++ split_at p content (m_end m) ms'
  end.

Definition split (p : Pattern) (content : string) : list string :=
  split_at p content 0 (p_scan p content).

Module PyRe.

(** The flags the program passes: [re.I] is 2, [re.MULTILINE] is 8. *)
Definition I : Z := 2.
Definition MULTILINE : Z := 8.
Definition DOTALL : Z := 16.

Definition ignorecase (flags : Z) : bool := Z.testbit flags 1.
Definition multiline (flags : Z) : bool := Z.testbit flags 3.
Definition dotall (flags : Z) : bool := Z.testbit flags 4.

Inductive cls_item : Type :=
| CChar (c : ascii)
| CRange (lo hi : ascii)
| CDigit          (* \d *)
| CWord           (* \w *)
| CSpace.         (* \s *)

(** The patterns written in the program, as syntax trees. *)
Inductive regex : Type :=
| RLit (c : ascii)
| RAny                                   (* . *)
| RSet (negated : bool) (items : list cls_item)
| REmpty
| RSeq (r1 r2 : regex)
| RAlt (r1 r2 : regex)
| RRepeat (r : regex) (lo : nat) (hi : option nat)   (* greedy *)
| RGroup (idx : nat) (r : regex)
| RBol                                   (* ^ *)
| REol                                   (* $ *)
| RWordB.                                (* \b *)

Definition item_matches (it : cls_item) (c : ascii) : bool :=
  match it with
  | CChar c' => Ascii.eqb c c'
  | CRange lo hi => in_range (code lo) (code hi) c
  | CDigit => is_digit c
  | CWord => is_word c
  | CSpace => is_space c
  end.

(** The state of one match attempt: where it stands, the character
    before, the text ahead and the groups closed so far. *)
Record mstate : Type := mkState {
  ms_pos : nat;
  ms_prev : option ascii;
  ms_rest : list ascii;
  ms_caps : list (nat * (Z * Z))
}.

Definition step_char (st : mstate) (ok : ascii -> bool) : option mstate :=
  match ms_rest st with
  | c :: rest =>
      if ok c
      then Some (mkState (S (ms_pos st)) (Some c) rest (ms_caps st))
      else None
  | [] => None
  end.

Definition opt_word (c : option ascii) : bool :=
  match c with Some c => is_word c | None => false end.

Section Matcher.
Variable flags : Z.

Definition lit_ok (p c : ascii) : bool :=
  if ignorecase flags
  then Ascii.eqb (ascii_lower c) (ascii_lower p)
  else Ascii.eqb c p.

Definition set_ok (negated : bool) (items : list cls_item) (c : ascii)
  : bool :=
  xorb negated (existsb (fun it => item_matches it c) items).

Definition at_bol (st : mstate) : bool :=
  match ms_prev st with
  | None => true
  | Some c => multiline flags && Ascii.eqb c LF
  end.

Definition at_eol (st : mstate) : bool :=
  match ms_rest st with
  | [] => true
  | c :: rest =>
      Ascii.eqb c LF
      && (multiline flags || match rest with [] => true | _ => false end)
  end.

Definition at_word_boundary (st : mstate) : bool :=
  xorb (opt_word (ms_prev st)) (opt_word (hd_error (ms_rest st))).

Definition cont : Type := mstate -> option mstate.

(** The [lo] iterations a repeat must make. *)
Fixpoint rep_min (body : mstate -> cont -> option mstate) (lo : nat)
  (st : mstate) (k : cont) : option mstate :=
  match lo with
  | O => k st
  | S lo' => body st (fun st' => rep_min body lo' st' k)
  end.

(** Up to [n] further iterations, longest first; an iteration that
    consumes nothing ends the repeat. *)
Fixpoint rep_max (body : mstate -> cont -> option mstate) (n : nat)
  (st : mstate) (k : cont) : option mstate :=
  match n with
  | O => k st
  | S n' =>
      match body st (fun st' =>
                       if Nat.ltb (ms_pos st) (ms_pos st')
                       then rep_max body n' st' k
                       else None) with
      | Some r => Some r
      | None => k st
      end
  end.

(** Backtracking match of [r] from [st]; [k] is the rest of the
    pattern.  The first success in the order the alternatives are tried
    is the match. *)
Fixpoint run (r : regex) (st : mstate) (k : cont) : option mstate :=
  match r with
  | RLit p => match step_char st (lit_ok p) with Some st' => k st' | None => None end
  | RAny =>
      match step_char st (fun c => dotall flags || negb (Ascii.eqb c LF)) with
      | Some st' => k st'
      | None => None
      end
  | RSet negated items =>
      match step_char st (set_ok negated items) with
      | Some st' => k st'
      | None => None
      end
  | REmpty => k st
  | RSeq r1 r2 => run r1 st (fun st' => run r2 st' k)
  | RAlt r1 r2 =>
      match run r1 st k with
      | Some res => Some res
      | None => run r2 st k
      end
  | RRepeat r' lo hi =>
      rep_min (run r') lo st
        (fun st' =>
           let n := match hi with
                    | Some h => (h - lo)%nat
                    | None => List.length (ms_rest st')
                    end in
           rep_max (run r') n st' k)
  | RGroup idx r' =>
      run r' st
        (fun st' =>
           k (mkState (ms_pos st') (ms_prev st') (ms_rest st')
                ((idx, (Z.of_nat (ms_pos st), Z.of_nat (ms_pos st')))
                   :: ms_caps st')))
  | RBol => if at_bol st then k st else None
  | REol => if at_eol st then k st else None
  | RWordB => if at_word_boundary st then k st else None
  end.

(** One attempt at position [pos]; [must_advance] refuses the empty
    match there. *)
Definition try_at (r : regex) (pos : nat) (prev : option ascii)
  (rest : list ascii) (must_advance : bool) : option Match :=
  match run r (mkState pos prev rest [])
          (fun st' =>
             if must_advance && Nat.eqb (ms_pos st') pos then None
             else Some st') with
  | Some st' =>
      Some (mkMatch (Z.of_nat pos) (Z.of_nat (ms_pos st')) (ms_caps st'))
  | None => None
  end.

Definition match_len (m : Match) : nat := Z.to_nat (m_end m - m_start m).

(** The matches that start at [pos], and how many characters the scan
    is then inside a match: after an empty match the same position is
    tried once more for a match that advances. *)
Definition matches_here (r : regex) (pos : nat) (prev : option ascii)
  (rest : list ascii) : list Match * nat :=
  match try_at r pos prev rest false with
  | None => ([], O)
  | Some m =>
      match match_len m with
      | O =>
          match try_at r pos prev rest true with
          | None => ([m], O)
          | Some m' => ([m; m'], match_len m')
          end
      | n => ([m], n)
      end
  end.

(** The scan of [finditer]: [inside] counts the characters left of the
    match the scan is in. *)
Fixpoint scan_from (r : regex) (pos : nat) (prev : option ascii)
  (rest : list ascii) (inside : nat) : list Match :=
  let '(found, inside) :=
    match inside with
    | O => matches_here r pos prev rest
    | S _ => ([], inside)
    end in
  match rest with
  | [] => found
  | c :: rest' => found ++ scan_from r (S pos) (Some c) rest' (Nat.pred inside)
  end.

End Matcher.

Fixpoint count_groups (r : regex) : nat :=
  match r with
  | RSeq r1 r2 | RAlt r1 r2 => (count_groups r1 + count_groups r2)%nat
  | RRepeat r' _ _ => count_groups r'
  | RGroup _ r' => S (count_groups r')
  | _ => O
  end.

(** [re.compile] of a pattern the program writes out. *)
Definition compile (r : regex) (flags : Z) : Pattern :=
  mkPattern
    (fun content => scan_from flags r O None (list_ascii_of_string content) O)
    (count_groups r).

(** Abbreviations for writing the patterns down. *)
Definition digit : regex := RSet false [CDigit].
Definition word : regex := RSet false [CWord].
Definition space : regex := RSet false [CSpace].
Definition times (r : regex) (n : nat) : regex := RRepeat r n (Some n).
Definition star (r : regex) : regex := RRepeat r 0 None.
Definition plus (r : regex) : regex := RRepeat r 1 None.
Definition opt (r : regex) : regex := RRepeat r 0 (Some 1%nat).

Fixpoint lit (s : string) : regex :=
  match s with
  | EmptyString => REmpty
  | String c EmptyString => RLit c
  | String c s' => RSeq (RLit c) (lit s')
  end.

Fixpoint seqs (rs : list regex) : regex :=
  match rs with
  | [] => REmpty
  | [r] => r
  | r :: rs' => RSeq r (seqs rs')
  end.

End PyRe.

(* ===================================================================== *)
(** * Content accessors, continued                                        *)
(* ===================================================================== *)

(** ** peek *)

Definition peek (context_ref : dict) (start end_ : Z) : result value :=
  match get_content context_ref with
  | VStr s => ret (VStr (str_slice s start end_))
  | VList l =>
      let n := Z.of_nat (List.length l) in
      let a := slice_bound n start in
      let b := slice_bound n end_ in
      ret (VList (firstn (Z.to_nat (b - a)) (skipn (Z.to_nat a) l)))
  | _ => raise (TypeError "object is not subscriptable")
  end.

(** ** grep *)

(** [for line in lines: line_offsets.append(offset); offset += len(line) + 1] *)
Fixpoint line_offsets_loop (lines : list string) (offset : Z)
  (line_offsets : list Z) : list Z :=
  match lines with
  | [] => line_offsets
  | line :: rest =>
      line_offsets_loop rest (offset + (str_len line + 1))
        (line_offsets ++ [offset])
  end.

Definition line_offsets_of (content : string) : list Z :=
  line_offsets_loop (splitlines content) 0 [].

(** [line_offsets[i]]; the search below only reads inside the list. *)
Definition list_at (l : list Z) (i : Z) : Z := nth (Z.to_nat i) l 0.

(** The [while lo <= hi] loop of [_offset_to_line]. *)
Equations? offset_search (line_offsets : list Z) (pos lo hi : Z) : Z
  by wf (Z.to_nat (hi - lo + 1)) lt :=
  offset_search line_offsets pos lo hi with Z_le_dec lo hi => {
    | left _ =>
        let mid := (lo + hi) / 2 in
        if list_at line_offsets mid <=? pos
        then offset_search line_offsets pos (mid + 1) hi
        else offset_search line_offsets pos lo (mid - 1)
    | right _ => hi + 1 }.
Proof.
  all: assert (lo <= (lo + hi) / 2 <= hi)
    by (split; [apply Z.div_le_lower_bound | apply Z.div_le_upper_bound]; lia);
    lia.
Qed.

Definition _offset_to_line (line_offsets : list Z) (pos : Z) : Z :=
  offset_search line_offsets pos 0 (Z.of_nat (List.length line_offsets) - 1).

Record GrepHit : Type := mkHit {
  hit_match : string;
  hit_span : Z * Z;
  hit_line : Z;
  hit_snippet : string
}.

Definition grep_hit (content : string) (line_offsets : list Z) (window : Z)
  (m : Match) : GrepHit :=
  let start := m_start m in
  let end_ := m_end m in
  let snippet_start := Z.max 0 (start - window) in
  let snippet_end := Z.min (str_len content) (end_ + window) in
  mkHit (match_text content m) (start, end_)
    (_offset_to_line line_offsets start)
    (str_slice content snippet_start snippet_end).

(** [for m in re.finditer(...)]: append the hit, stop once [max_matches]
    hits are collected. *)
Fixpoint grep_loop (content : string) (line_offsets : list Z)
  (max_matches window : Z) (ms : list Match) (out : list GrepHit)
  : list GrepHit :=
  match ms with
  | [] => out
  | m :: rest =>
      let out := out ++ [grep_hit content line_offsets window m] in
      if Z.of_nat (List.length out) >=? max_matches then out
      else grep_loop content line_offsets max_matches window rest out
  end.

(** [enumerate(lines, 1)] with the loop of [find_lines]. *)
Fixpoint find_lines_loop (regex : Pattern) (max_matches : Z) (i : Z)
  (lines : list string) (out : list (Z * string)) : list (Z * string) :=
  match lines with
  | [] => out
  | line :: rest =>
      match search regex line with
      | Some _ =>
          let out := out ++ [(i, line)] in
          if Z.of_nat (List.length out) >=? max_matches then out
          else find_lines_loop regex max_matches (i + 1) rest out
      | None => find_lines_loop regex max_matches (i + 1) rest out
      end
  end.

Section Accessors.

(** [re.compile(pattern, flags)] of a caller's pattern: an error for a
    pattern that does not compile, a pattern object otherwise. *)
Variable re_compile : string -> Z -> result Pattern.

Definition grep (context_ref : dict) (pattern : string)
  (max_matches window flags : Z) : result (list GrepHit) :=
  content <- str_receiver (get_content context_ref) ;;
  let out := [] in
  let lines := splitlines content in
  let line_offsets := line_offsets_loop lines 0 [] in
  p <- re_compile pattern flags ;;
  ret (grep_loop content line_offsets max_matches window
         (finditer p content) out).

Definition grep_count (context_ref : dict) (pattern : string) (flags : Z)
  : result Z :=
  let content := get_content context_ref in
  p <- re_compile pattern flags ;;
  content <- expect_str content ;;
  ret (Z.of_nat (List.length (findall p content))).

Definition find_lines (context_ref : dict) (pattern : string)
  (max_matches flags : Z) : result (list (Z * string)) :=
  content <- str_receiver (get_content context_ref) ;;
  let lines := splitlines content in
  let out := [] in
  regex <- re_compile pattern flags ;;
  ret (find_lines_loop regex max_matches 1 lines out).

End Accessors.

(** Default arguments of [grep]. *)
Definition default_max_matches : Z := 20.
Definition default_window : Z := 200.

(** ** add_buffer *)

(** [buffers_ref.append(str(text))]: the list after the call. *)
Definition add_buffer (buffers_ref : list value) (text : string)
  : list value :=
  buffers_ref ++ [VStr text].

(** ** extract_yaml_documents *)

(** [r'^---\s*$'] *)
Definition yaml_separator : PyRe.regex :=
  PyRe.seqs [PyRe.RBol; PyRe.lit "---"; PyRe.star PyRe.space; PyRe.REol].

(** [[d.strip() for d in docs if d.strip()]] *)
Definition strip_nonempty (docs : list string) : list string :=
  map strip (filter (fun d => negb (String.eqb (strip d) "")) docs).

Definition extract_yaml_documents (context_ref : dict) (max_docs : Z)
  : result (list string) :=
  content <- expect_str (get_content context_ref) ;;
  let docs := split (PyRe.compile yaml_separator PyRe.MULTILINE) content in
  ret (strip_nonempty (list_prefix docs max_docs)).

Definition default_max_docs : Z := 50.

(** ** time_range *)

(** [r'\d{4}-\d{2}-\d{2}[T ]\d{2}:\d{2}:\d{2}'] *)
Definition iso_pattern : PyRe.regex :=
  PyRe.seqs
    [PyRe.times PyRe.digit 4; PyRe.lit "-"; PyRe.times PyRe.digit 2;
     PyRe.lit "-"; PyRe.times PyRe.digit 2;
     PyRe.RSet false [PyRe.CChar "T"; PyRe.CChar " "];
     PyRe.times PyRe.digit 2; PyRe.lit ":"; PyRe.times PyRe.digit 2;
     PyRe.lit ":"; PyRe.times PyRe.digit 2].

(** [r'\d{2}/\w{3}/\d{4}:\d{2}:\d{2}:\d{2}'] *)
Definition apache_pattern : PyRe.regex :=
  PyRe.seqs
    [PyRe.times PyRe.digit 2; PyRe.lit "/"; PyRe.times PyRe.word 3;
     PyRe.lit "/"; PyRe.times PyRe.digit 4; PyRe.lit ":";
     PyRe.times PyRe.digit 2; PyRe.lit ":"; PyRe.times PyRe.digit 2;
     PyRe.lit ":"; PyRe.times PyRe.digit 2].

(** [r'\w{3}\s+\d{1,2}\s+\d{2}:\d{2}:\d{2}'] *)
Definition syslog_pattern : PyRe.regex :=
  PyRe.seqs
    [PyRe.times PyRe.word 3; PyRe.plus PyRe.space;
     PyRe.RRepeat PyRe.digit 1 (Some 2%nat); PyRe.plus PyRe.space;
     PyRe.times PyRe.digit 2; PyRe.lit ":"; PyRe.times PyRe.digit 2;
     PyRe.lit ":"; PyRe.times PyRe.digit 2].

Definition time_patterns : list PyRe.regex :=
  [iso_pattern; apache_pattern; syslog_pattern].

(** [{"first": first_ts, "last": last_ts}]; [None] is Python's [None]. *)
Record TimeRange : Type := mkTimeRange {
  tr_first : option FindItem;
  tr_last : option FindItem
}.

(** [for pattern in patterns]: the first pattern with a match decides. *)
Fixpoint time_range_loop (content : string) (patterns : list PyRe.regex)
  (first_ts last_ts : option FindItem) : TimeRange :=
  match patterns with
  | [] => mkTimeRange first_ts last_ts
  | pattern :: rest =>
      let matches := findall (PyRe.compile pattern 0) content in
      match matches with
      | m0 :: _ => mkTimeRange (Some m0) (Some (last matches m0))
      | [] => time_range_loop content rest first_ts last_ts
      end
  end.

Definition time_range (context_ref : dict) : result TimeRange :=
  content <- expect_str (get_content context_ref) ;;
  ret (time_range_loop content time_patterns None None).

(** ** stats *)

(** [r'\b(ERROR|FATAL|CRITICAL)\b'] *)
Definition error_pattern : PyRe.regex :=
  PyRe.seqs
    [PyRe.RWordB;
     PyRe.RGroup 1
       (PyRe.RAlt (PyRe.lit "ERROR")
          (PyRe.RAlt (PyRe.lit "FATAL") (PyRe.lit "CRITICAL")));
     PyRe.RWordB].

(** [r'\bWARN(ING)?\b'] *)
Definition warning_pattern : PyRe.regex :=
  PyRe.seqs
    [PyRe.RWordB; PyRe.lit "WARN"; PyRe.opt (PyRe.RGroup 1 (PyRe.lit "ING"));
     PyRe.RWordB].

(** [len(re.findall(pattern, content, re.I))] *)
Definition count_matches (pattern : PyRe.regex) (content : string) : Z :=
  Z.of_nat (List.length (findall (PyRe.compile pattern PyRe.I) content)).

Definition stats (context_ref : dict) : result dict :=
  content <- str_receiver (get_content context_ref) ;;
  let lines := splitlines content in
  let non_empty := filter (fun l => negb (String.eqb (strip l) "")) lines in
  let result :=
    [("total_chars", VInt (str_len content));
     ("total_lines", VInt (Z.of_nat (List.length lines)));
     ("non_empty_lines", VInt (Z.of_nat (List.length non_empty)));
     ("avg_line_length",
       VInt (str_len content / Z.max (Z.of_nat (List.length lines)) 1))] in
  let files := dict_get context_ref "files" VNone in
  result <-
    (if truthy files
     then n <- py_len files ;; ret (dict_set result "files_loaded" (VInt n))
     else ret result) ;;
  let error_count := count_matches error_pattern content in
  let warning_count := count_matches warning_pattern content in
  if negb (error_count =? 0) || negb (warning_count =? 0)
  then ret (dict_set (dict_set result "error_count" (VInt error_count))
              "warning_count" (VInt warning_count))
  else ret result.

(* ===================================================================== *)
(** * Session store: [pickle], the state file                             *)
(* ===================================================================== *)

Section FirstError.

Context {A : Type}.
Variable f : A -> option exn.

(** The items of a container are dumped in order: the first that fails
    ends the dump. *)
Fixpoint first_error (l : list A) : option exn :=
  match l with
  | [] => None
  | x :: rest =>
      match f x with
      | Some e => Some e
      | None => first_error rest
      end
  end.

End FirstError.

(** A closure of [_make_helpers] is a local function, which [pickle]
    cannot reach by name. *)
Definition local_object (name : string) : exn :=
  AttributeError
    ("Can't pickle local object '_make_helpers.<locals>." ++ name ++ "'").

(** What [pickle.dumps] raises on a value, if it raises: nothing on plain
    data, on a container what its first failing item raises, on an object
    what the object has it raise. *)
Fixpoint dumps_error (v : value) : option exn :=
  match v with
  | VNone | VBool _ | VInt _ | VStr _ => None
  | VList l => first_error dumps_error l
  | VDict d => first_error (fun kv => dumps_error (snd kv)) d
  | VHelper name => Some (local_object name)
  | VObject _ (Unpicklable e) => Some e
  | VObject _ _ => None
  end.

(** Whether [pickle.dumps] accepts a value. *)
Definition dumps_ok (v : value) : bool :=
  match dumps_error v with
  | None => true
  | Some _ => false
  end.

(** Whether [pickle.loads] rebuilds a value that was dumped. *)
Fixpoint loads_ok (v : value) : bool :=
  match v with
  | VNone | VBool _ | VInt _ | VStr _ => true
  | VList l => forallb loads_ok l
  | VDict d => forallb (fun kv => loads_ok (snd kv)) d
  | VHelper _ => false
  | VObject _ Picklable => true
  | VObject _ _ => false
  end.

(** The bytes [pickle.dumps] produces, kept as the value they encode. *)
Inductive pickled : Type := Pickled (v : value).

Definition pickle_dumps (v : value) : result pickled :=
  match dumps_error v with
  | None => ret (Pickled v)
  | Some e => raise e
  end.

Definition pickle_loads (b : pickled) : result value :=
  match b with
  | Pickled v =>
      if loads_ok v then ret v
      else raise (OtherException "ModuleNotFoundError" "cannot resolve reference")
  end.

(** What a file holds. *)
Inductive file_data : Type :=
| PickleFile (b : pickled)
| PartialFile          (* a dump that raised half-way *)
| OtherFile (text : string).

Definition filesystem : Type := string -> option file_data.

Definition fs_write (fs : filesystem) (path : string) (d : file_data)
  : filesystem :=
  fun q => if String.eqb q path then Some d else fs q.

(** [src.replace(dst)] *)
Definition fs_replace (fs : filesystem) (src dst : string) : filesystem :=
  fun q =>
    if String.eqb q dst then fs src
    else if String.eqb q src then None
    else fs q.

Definition _load_state (state_path : string) (fs : filesystem) : result dict :=
  match fs state_path with
  | None =>
      raise (RlmReplError
               ("No state found at " ++ state_path
                ++ ". Run: python rlm_repl.py init <context_path>"))
  | Some f =>
      state <- match f with
               | PickleFile b => pickle_loads b
               | _ => raise (UnpicklingError "invalid load key")
               end ;;
      match state with
      | VDict d => ret d
      | _ => raise (RlmReplError ("Corrupt state file: " ++ state_path))
      end
  end.

(** Dump to [state_path + ".tmp"], then replace [state_path] with it. *)
Definition _save_state (state : dict) (state_path : string) (fs : filesystem)
  : filesystem * result unit :=
  let tmp_path := (state_path ++ ".tmp")%string in
  match pickle_dumps (VDict state) with
  | inl e => (fs_write fs tmp_path PartialFile, inl e)
  | inr b =>
      (fs_replace (fs_write fs tmp_path (PickleFile b)) tmp_path state_path,
       inr tt)
  end.

Definition Z_to_string (z : Z) : string :=
  DecimalString.NilZero.string_of_int (Z.to_int z).

Definition _truncate (s : string) (max_chars : Z) : string :=
  if max_chars <=? 0 then ""
  else if str_len s <=? max_chars then s
  else (str_slice s 0 max_chars
        ++ String LF ("... [truncated to " ++ Z_to_string max_chars
                      ++ " chars] ..." ++ String LF ""))%string.

(* ===================================================================== *)
(** * Serialization filter                                                *)
(* ===================================================================== *)

(** [try: pickle.dumps(value); return True; except Exception: return False] *)
Definition _is_pickleable (v : value) : result bool :=
  match pickle_dumps v with
  | inr _ => ret true
  | inl e => if is_Exception e then ret false else raise e
  end.

(** [for k, v in d.items()] *)
Fixpoint filter_loop (items : dict) (kept : dict) (dropped : list string)
  : result (dict * list string) :=
  match items with
  | [] => ret (kept, dropped)
  | (k, v) :: rest =>
      ok <- _is_pickleable v ;;
      if ok then filter_loop rest (dict_set kept k v) dropped
      else filter_loop rest kept (dropped ++ [k])
  end.

Definition _filter_pickleable (d : dict) : result (dict * list string) :=
  filter_loop d [] [].

(* ===================================================================== *)
(** * The [exec] command                                                  *)
(* ===================================================================== *)

(** The keys of the dict [_make_helpers] returns, in its order. *)
Definition helper_names : list string :=
  ["peek"; "grep"; "grep_count"; "find_lines"; "chunk_indices";
   "write_chunks"; "add_buffer"; "extract_json_objects";
   "extract_yaml_documents"; "time_range"; "stats"].

Definition _make_helpers : dict :=
  map (fun name => (name, VHelper name)) helper_names.

Definition injected_keys : list string :=
  ["__builtins__"; "context"; "content"; "buffers"] ++ dict_keys _make_helpers.

Definition is_injected (k : string) : bool :=
  existsb (String.eqb k) injected_keys.

(** [d.setdefault(k, default)]: the dict after the call and the value
    returned. *)
Definition dict_setdefault (d : dict) (k : string) (default : value)
  : dict * value :=
  match dict_lookup d k with
  | Some v => (d, v)
  | None => (dict_set d k default, default)
  end.

(** [", ".join(names)] *)
Fixpoint join_names (names : list string) : string :=
  match names with
  | [] => ""
  | [x] => x
  | x :: rest => (x ++ ", " ++ join_names rest)%string
  end.

(** The parsed arguments of [exec]. *)
Record ExecArgs : Type := mkArgs {
  a_state : string;
  a_code : option string;
  a_max_output_chars : Z;
  a_warn_unpickleable : bool
}.

(** What [exec(code, env, env)] leaves behind.  [env] is mutated in
    place, and so may be the two objects it shares with the session: the
    context dict and the buffers list, which the state still refers to
    whatever the names [context] and [buffers] are bound to afterwards.
    During the run [sys.stdout] and [sys.stderr] are the two capture
    buffers, which the code can write to and can close.  What the code
    does to files or to the modules of the process is not followed. *)
Record ExecResult : Type := mkExec {
  x_env : dict;                 (* the bindings of [env] after the run *)
  x_context : dict;             (* the session's context object after the run *)
  x_buffers : list value;       (* the session's buffers object after the run *)
  x_stdout : string;            (* text captured from [sys.stdout] *)
  x_stderr : string;            (* text captured from [sys.stderr] *)
  x_raised : option exn;        (* the exception the code ended with, if any *)
  x_stdout_closed : bool;       (* the code closed [stdout_buf] *)
  x_stderr_closed : bool        (* the code closed [stderr_buf] *)
}.

(** Writing to a closed [io.StringIO], or reading its value. *)
Definition closed_file : exn := ValueError "I/O operation on closed file".

(** What a command leaves behind: the files, the text written to the two
    streams of the process, and the exit status or the exception that
    escaped. *)
Record Outcome : Type := mkOutcome {
  o_fs : filesystem;
  o_stdout : string;
  o_stderr : string;
  o_status : result Z
}.

(** [{k: v for k, v in env.items() if k not in injected_keys}] *)
Definition persist_candidates (env : dict) : dict :=
  filter (fun kv => negb (is_injected (fst kv))) env.

(** The session [exec] works on: the state dict with its [buffers] and
    [globals] entries put in place, and the context, buffers and persisted
    variables those entries refer to. *)
Record Session : Type := mkSession {
  s_state : dict;
  s_ctx : dict;
  s_buffers : list value;
  s_persisted : dict
}.

Definition missing_context : exn :=
  RlmReplError "State is missing a valid 'context'. Re-run init.".

(** The opening of [cmd_exec], up to the reading of the code. *)
Definition load_session (state_path : string) (fs : filesystem)
  : result Session :=
  state <- _load_state state_path fs ;;
  match dict_lookup state "context" with
  | Some (VDict ctx) =>
      if negb (dict_contains ctx "content") then raise missing_context
      else
        let '(state, buffers) := dict_setdefault state "buffers" (VList []) in
        let '(state, buffers) :=
          match buffers with
          | VList b => (state, b)
          | _ => (dict_set state "buffers" (VList []), [])
          end in
        let '(state, persisted) :=
          dict_setdefault state "globals" (VDict []) in
        let '(state, persisted) :=
          match persisted with
          | VDict g => (state, g)
          | _ => (dict_set state "globals" (VDict []), [])
          end in
        ret (mkSession state ctx buffers persisted)
  | _ => raise missing_context
  end.

(** Build execution environment: start from persisted variables, then
    inject context, buffers and helpers. *)
Definition build_env (persisted ctx : dict) (buffers : list value) : dict :=
  let env := persisted in
  let env := dict_set env "context" (VDict ctx) in
  let env := dict_set env "content" (dict_get ctx "content" (VStr "")) in
  let env := dict_set env "buffers" (VList buffers) in
  let helpers := _make_helpers in
  dict_update env helpers.

(** Pull back possibly mutated context/buffers. *)
Definition reconcile (state env : dict) : dict :=
  let maybe_ctx := dict_get env "context" VNone in
  let state :=
    match maybe_ctx with
    | VDict d =>
        if dict_contains d "content"
        then dict_set state "context" maybe_ctx
        else state
    | _ => state
    end in
  let maybe_buffers := dict_get env "buffers" VNone in
  match maybe_buffers with
  | VList _ => dict_set state "buffers" maybe_buffers
  | _ => state
  end.

(** The text of [err] once the dropped names are reported. *)
Definition with_warning (args : ExecArgs) (dropped : list string)
  (err : string) : string :=
  match dropped with
  | _ :: _ =>
      if a_warn_unpickleable args then
        let msg :=
          ("Dropped unpickleable variables: " ++ join_names dropped)%string in
        (err ++ (if String.eqb err "" then "" else String LF "")
         ++ msg ++ String LF "")%string
      else err
  | [] => err
  end.

(** [if s: stream.write(_truncate(s, max_chars))] *)
Definition emit (s : string) (max_chars : Z) : string :=
  if String.eqb s "" then "" else _truncate s max_chars.

(** An exception that leaves the command: nothing was written to the
    streams of the process. *)
Definition escaped (fs : filesystem) (e : exn) : Outcome :=
  mkOutcome fs "" "" (raise e).

(** Everything after the [try] block: [state] is the state dict as it
    stands once the code has run, [env] the bindings the code left, [out]
    and [err] what the two capture buffers hold, [out_closed] and
    [err_closed] whether [getvalue] finds them closed. *)
Definition finish_exec (args : ExecArgs) (fs : filesystem) (state env : dict)
  (out err : string) (out_closed err_closed : bool) : Outcome :=
  let state := reconcile state env in
  (* Persist any new variables, excluding injected keys. *)
  let to_persist := persist_candidates env in
  match _filter_pickleable to_persist with
  | inl e => escaped fs e
  | inr (filtered, dropped) =>
      let state := dict_set state "globals" (VDict filtered) in
      match _save_state state (a_state args) fs with
      | (fs, inl e) => escaped fs e
      | (fs, inr _) =>
          (* out = stdout_buf.getvalue(); err = stderr_buf.getvalue() *)
          if out_closed then escaped fs closed_file
          else if err_closed then escaped fs closed_file
          else
            let err := with_warning args dropped err in
            mkOutcome fs
              (emit out (a_max_output_chars args))
              (emit err (a_max_output_chars args))
              (ret 0)
      end
  end.

(** The state dict once the code has run: its [context] and [buffers]
    entries are the very objects the code could mutate in place. *)
Definition state_after_run (state : dict) (r : ExecResult) : dict :=
  dict_set (dict_set state "context" (VDict (x_context r)))
    "buffers" (VList (x_buffers r)).

(** [code = args.code], or what standard input holds when it is [None]. *)
Definition code_of (args : ExecArgs) (stdin : string) : string :=
  match a_code args with
  | Some c => c
  | None => stdin
  end.

Section Runner.

(** Running the caller's code: [exec(code, env, env)] under the two
    redirections. *)
Variable py_exec : string -> dict -> ExecResult.

(** [traceback.print_exc]: the text it writes for an exception. *)
Variable format_exc : exn -> string.

Definition cmd_exec (args : ExecArgs) (stdin : string) (fs : filesystem)
  : Outcome :=
  match load_session (a_state args) fs with
  | inl e => escaped fs e
  | inr (mkSession state ctx buffers persisted) =>
      let code := code_of args stdin in
      let env := build_env persisted ctx buffers in
      let r := py_exec code env in
      let state := state_after_run state r in
      match x_raised r with
      | None =>
          finish_exec args fs state (x_env r) (x_stdout r) (x_stderr r)
            (x_stdout_closed r) (x_stderr_closed r)
      | Some e =>
          if is_Exception e
          then
            (* traceback.print_exc(file=stderr_buf) *)
            if x_stderr_closed r then escaped fs closed_file
            else finish_exec args fs state (x_env r) (x_stdout r)
                   (x_stderr r ++ format_exc e)%string
                   (x_stdout_closed r) (x_stderr_closed r)
          else escaped fs e
      end
  end.

End Runner.

(* ===================================================================== *)
(** * Notions the statements below use                                    *)
(* ===================================================================== *)

(** The state dict a state file holds. *)
Definition stored_state (fs : filesystem) (state_path : string)
  : option dict :=
  match fs state_path with
  | Some (PickleFile (Pickled (VDict d))) => Some d
  | _ => None
  end.


(** A run that ends like [r] after one more statement, [content = v]. *)
Definition rebind_content (r : ExecResult) (v : value) : ExecResult :=
  mkExec (dict_set (x_env r) "content" v) (x_context r) (x_buffers r)
    (x_stdout r) (x_stderr r) (x_raised r)
    (x_stdout_closed r) (x_stderr_closed r).

(** The starts [range(s0, n, step)] yields. *)
Fixpoint starts_from (n step s0 : Z) (starts : list Z) : Prop :=
  match starts with
  | [] => n <= s0
  | s :: rest => s = s0 /\ s0 < n /\ starts_from n step (s0 + step) rest
  end.

(** The content ["a\nbb\nccc"]. *)
Definition three_lines : string :=
  ("a" ++ String LF "bb" ++ String LF "ccc")%string.

(** The content ["---\na\n---\nb"]: two YAML documents, each after its
    separator line. *)
Definition two_documents : string :=
  ("---" ++ String LF "a" ++ String LF "---" ++ String LF "b")%string.


(** A compiler for the patterns without special characters: the pattern
    matches itself. *)
Definition compile_literal (pattern : string) (flags : Z) : result Pattern :=
  ret (PyRe.compile (PyRe.lit pattern) flags).

(** A log of three lines, one of them blank, with one error token and
    one warning token. *)
Definition small_log : string :=
  ("error: disk" ++ String LF "  " ++ String LF "WARNING low")%string.

(** The test [_filter_pickleable] applies to an item. *)
Definition keeps (kv : string * value) : bool := dumps_ok (snd kv).

(** No value of a dict interrupts the pickler: whatever [pickle.dumps]
    raises on one of them is an [Exception]. *)
Definition dumps_softly (d : dict) : Prop :=
  forall k v e,
    In (k, v) d -> pickle_dumps v = raise e -> is_Exception e = true.

(** How the save step ended, read off the status of the command. *)
Definition save_status (o : Outcome) : result unit :=
  match o_status o with
  | inl e => inl e
  | inr _ => inr tt
  end.

(** The content a state dict holds. *)
Definition session_content (state : dict) : option value :=
  match dict_lookup state "context" with
  | Some (VDict d) => dict_lookup d "content"
  | _ => None
  end.


(** Objects that [pickle.dumps] refuses with [TypeError]: a module, and
    the text file [open(context["path"])] returns. *)
Definition builtins_module : value :=
  VObject "module builtins"
    (Unpicklable (TypeError "cannot pickle 'module' object")).

Definition sys_module : value :=
  VObject "module sys"
    (Unpicklable (TypeError "cannot pickle 'module' object")).

Definition open_file : value :=
  VObject "file app.log"
    (Unpicklable (TypeError "cannot pickle '_io.TextIOWrapper' object")).

(** A session as [init] leaves it after one earlier run that set [seen]. *)
Definition demo_context : dict :=
  [("path", VStr "app.log"); ("loaded_at", VInt 1700000000);
   ("content", VStr "hello")].

Definition demo_state : dict :=
  [("version", VInt 1); ("context", VDict demo_context);
   ("buffers", VList []); ("globals", VDict [("seen", VInt 3)])].

Definition demo_session : Session :=
  mkSession demo_state demo_context [] [("seen", VInt 3)].

Definition demo_fs : filesystem :=
  fs_write (fun _ => None) "state.pkl" (PickleFile (Pickled (VDict demo_state))).

Definition demo_args : ExecArgs :=
  mkArgs "state.pkl"
    (Some "handle = open(context['path']); content = 'other'; seen += 1; raise ValueError('boom')")
    8000 true.

(** What the code of [demo_args] does to an environment. *)
Definition demo_exec (code : string) (env : dict) : ExecResult :=
  let env := dict_set env "__builtins__" builtins_module in
  let env := dict_set env "handle" open_file in
  let env := dict_set env "content" (VStr "other") in
  let env := dict_set env "seen" (VInt 4) in
  mkExec env
    (match dict_get env "context" VNone with VDict d => d | _ => [] end)
    (match dict_get env "buffers" VNone with VList b => b | _ => [] end)
    "" "" (Some (ValueError "boom")) false false.

(** The same code without its last statement. *)
Definition demo_exec_quiet (code : string) (env : dict) : ExecResult :=
  let r := demo_exec code env in
  mkExec (x_env r) (x_context r) (x_buffers r) "" "" None false false.

Definition demo_format_exc (e : exn) : string :=
  match e with
  | ValueError msg => ("ValueError: " ++ msg ++ String LF "")%string
  | _ => "Exception"
  end.

(** What the loop builds from the starts of [range(s0, n, step)]. *)
Definition chain_spec (n size overlap s0 : Z) (spans : list (Z * Z)) : Prop :=
  (forall p, s0 <= p < n -> exists a, In a spans /\ fst a <= p < snd a) /\
  (forall a, In a spans -> s0 <= fst a /\ fst a < snd a <= n /\ snd a - fst a <= size) /\
  (forall i a b, nth_error spans i = Some a -> nth_error spans (S i) = Some b ->
     snd a - fst a = size /\ fst b = fst a + (size - overlap) /\
     snd a - fst b = overlap /\ snd a < snd b) /\
  (forall a, nth_error spans (Nat.pred (List.length spans)) = Some a ->
     snd a = n /\ n <= fst a + size) /\
  (forall a rest, spans = a :: rest -> fst a = s0) /\
  (s0 < n -> spans <> []) /\
  NoDup spans.

(* ===================================================================== *)
(** * Further notions: [main], what a run leaves, sample runs             *)
(* ===================================================================== *)

(** How many items a loop collects that appends first and then stops at
    [len(out) >= max_matches]: at least one, whatever the bound. *)
Definition collected (max_matches : Z) : nat := Z.to_nat (Z.max 1 max_matches).

(** [enumerate(lines, i)] *)
Fixpoint enumerate_from (i : Z) (lines : list string) : list (Z * string) :=
  match lines with
  | [] => []
  | line :: rest => (i, line) :: enumerate_from (i + 1) rest
  end.

Definition line_matches (regex : Pattern) (il : Z * string) : bool :=
  match search regex (snd il) with Some _ => true | None => false end.

(** [main] once the parser has chosen a command: [RlmReplError] becomes a
    line on standard error and the status 2. *)
Definition main_handler (o : Outcome) : Outcome :=
  match o_status o with
  | inl (RlmReplError msg) =>
      mkOutcome (o_fs o) (o_stdout o)
        (o_stderr o ++ "ERROR: " ++ msg ++ String LF "")%string (ret 2)
  | _ => o
  end.

Definition main_exec (py_exec : string -> dict -> ExecResult)
  (format_exc : exn -> string) (args : ExecArgs) (stdin : string)
  (fs : filesystem) : Outcome :=
  main_handler (cmd_exec py_exec format_exc args stdin fs).

(** The value an entry of the environment has in the state after the run:
    the binding when it has the right shape, the session's own object
    otherwise. *)
Definition reconciled_context (env : dict) (r : ExecResult) : value :=
  match dict_get env "context" VNone with
  | VDict d => if dict_contains d "content" then VDict d
               else VDict (x_context r)
  | _ => VDict (x_context r)
  end.

Definition reconciled_buffers (env : dict) (r : ExecResult) : value :=
  match dict_get env "buffers" VNone with
  | VList b => VList b
  | _ => VList (x_buffers r)
  end.

(** The buffers and the variables of a state dict as [cmd_exec] takes
    them: an entry of another shape counts as empty. *)
Definition buffers_of (state : dict) : list value :=
  match dict_lookup state "buffers" with
  | Some (VList b) => b
  | _ => []
  end.

Definition globals_of (state : dict) : dict :=
  match dict_lookup state "globals" with
  | Some (VDict g) => g
  | _ => []
  end.

(** The marker [_truncate] puts after the text it cuts. *)
Definition truncation_marker (max_chars : Z) : string :=
  String LF ("... [truncated to " ++ Z_to_string max_chars
             ++ " chars] ..." ++ String LF "")%string.

(** ** strip *)
Definition starts_clean (s : string) : Prop :=
  match s with
  | EmptyString => True
  | String c _ => is_space c = false
  end.

(** The session's context object as an environment binds it. *)
Definition bound_context (env : dict) : dict :=
  match dict_get env "context" VNone with VDict d => d | _ => [] end.

Definition bound_buffers (env : dict) : list value :=
  match dict_get env "buffers" VNone with VList b => b | _ => [] end.

(** [import sys; sys.exit(1)] *)
Definition demo_exec_exit (code : string) (env : dict) : ExecResult :=
  let env := dict_set env "__builtins__" builtins_module in
  let env := dict_set env "sys" sys_module in
  mkExec env (bound_context env) (bound_buffers env) "" ""
    (Some (SystemExit 1)) false false.

(** [print("hi"); context["handle"] = open(context["path"])]: the context
    object itself takes a new entry. *)
Definition demo_exec_handle (code : string) (env : dict) : ExecResult :=
  let env := dict_set env "__builtins__" builtins_module in
  let ctx := dict_set (bound_context env) "handle"
               open_file in
  let env := dict_set env "context" (VDict ctx) in
  mkExec env ctx (bound_buffers env) ("hi" ++ String LF "") "" None
    false false.

(** [del context["content"]] *)
Definition demo_exec_forget (code : string) (env : dict) : ExecResult :=
  let env := dict_set env "__builtins__" builtins_module in
  let ctx := filter (fun kv => negb (String.eqb (fst kv) "content"))
               (bound_context env) in
  let env := dict_set env "context" (VDict ctx) in
  mkExec env ctx (bound_buffers env) "" "" None false false.








(** The session the run of [demo_exec_quiet] leaves for the next command. *)
Definition demo_next : Session :=
  Eval vm_compute in
    match load_session "state.pkl"
            (o_fs (cmd_exec demo_exec_quiet demo_format_exc demo_args ""
                     demo_fs)) with
    | inr s => s
    | inl _ => demo_session
    end.

Definition three_lines_context : dict := [("content", VStr three_lines)].

(* ===================================================================== *)
(** * Line feeds and line numbers *)
(* ===================================================================== *)

(** Content whose only line boundary is the line feed. *)
Fixpoint lf_only (s : string) : bool :=
  match s with
  | EmptyString => true
  | String c s' => (negb (is_linebreak c) || Ascii.eqb c LF) && lf_only s'
  end.

(** [s.count("\n")] *)
Fixpoint count_lf (s : string) : Z :=
  match s with
  | EmptyString => 0
  | String c s' => (if Ascii.eqb c LF then 1 else 0) + count_lf s'
  end.

(** How many entries of a list are at most [pos]. *)
Definition count_le (pos : Z) (l : list Z) : Z :=
  Z.of_nat (List.length (filter (fun o => o <=? pos) l)).

(** Two lines with a line feed between them. *)
Definition two_lines_context : dict :=
  [("content", VStr ("ab" ++ String LF "cd"))].

(* ===================================================================== *)
(** * [extract_json_objects] *)
(* ===================================================================== *)

(** ** extract_json_objects *)

(** [line.startswith("{")] *)
Definition starts_with_brace (line : string) : bool :=
  match line with
  | String c _ => Ascii.eqb c "{"
  | EmptyString => false
  end.

(** [except json.JSONDecodeError]: the class is told by its name. *)
Definition is_JSONDecodeError (e : exn) : bool :=
  match e with
  | OtherException cls _ => String.eqb cls "JSONDecodeError"
  | _ => false
  end.

Section Json.

(** [json.loads] on one line: the decoded object, or what it raises
    ([JSONDecodeError] for text that is not JSON, [RecursionError] for
    text nested too deep). *)
Variable json_loads : string -> result value.

(** [for line in content.splitlines()]: a stripped line that starts with
    a brace is decoded; a line that does not decode is passed over. *)
Fixpoint json_loop (max_objects : Z) (lines : list string)
  (objects : list value) : result (list value) :=
  match lines with
  | [] => ret objects
  | line :: rest =>
      let line := strip line in
      if starts_with_brace line then
        match json_loads line with
        | inr obj =>
            let objects := objects ++ [obj] in
            if Z.of_nat (List.length objects) >=? max_objects
            then ret objects
            else json_loop max_objects rest objects
        | inl e =>
            if is_JSONDecodeError e
            then json_loop max_objects rest objects
            else raise e
        end
      else json_loop max_objects rest objects
  end.

Definition extract_json_objects (context_ref : dict) (max_objects : Z)
  : result (list value) :=
  content <- str_receiver (get_content context_ref) ;;
  let objects := [] in
  json_loop max_objects (splitlines content) objects.

(** The objects of the lines that decode, in the order of the lines. *)
Definition decoded (lines : list string) : list value :=
  flat_map
    (fun line =>
       if starts_with_brace (strip line) then
         match json_loads (strip line) with
         | inr obj => [obj]
         | inl _ => []
         end
       else [])
    lines.

(** No line makes the decoder raise anything but [JSONDecodeError]. *)
Definition decode_errors_only (lines : list string) : Prop :=
  forall line e,
    In line lines -> starts_with_brace (strip line) = true ->
    json_loads (strip line) = raise e -> is_JSONDecodeError e = true.

End Json.

Definition default_max_objects : Z := 50.

(** [json.loads] on the lines of [json_lines] that start with a brace. *)
Definition sample_json_loads (line : string) : result value :=
  if String.eqb line "{}" then ret (VDict [])
  else raise (OtherException "JSONDecodeError" "Expecting property name").

(** An empty object, an indented one, a broken one and an array. *)
Definition json_lines : string :=
  "{}" ++ String LF ("  {}" ++ String LF ("{oops" ++ String LF "[1]")).

(* ===================================================================== *)
(** * Entries of the report of [stats] *)
(* ===================================================================== *)

(** [d[k]] of a report, where it holds an [int]. *)
Definition int_entry (d : dict) (k : string) : option Z :=
  match dict_lookup d k with
  | Some (VInt z) => Some z
  | _ => None
  end.

(* ===================================================================== *)
(** * The commands [init] and [init-dir]                                   *)
(* ===================================================================== *)

(** A path is written as [str(path)] prints it. *)

Definition DEFAULT_EXCLUDE_DIRS : list string :=
  [".git"; "__pycache__"; "node_modules"; ".venv"; "venv";
   "build"; "dist"; ".next"; ".nuxt"; "target"; ".opencode";
   ".tox"; ".mypy_cache"; ".pytest_cache"; ".ruff_cache";
   "vendor"; "coverage"; ".cache"].

(** [part in exclude_dirs] *)
Definition set_mem (part : string) (exclude_dirs : list string) : bool :=
  existsb (String.eqb part) exclude_dirs.

(** [for part in path.parts]: the first excluded part decides. *)
Fixpoint _should_exclude (parts : list string) (exclude_dirs : list string)
  : bool :=
  match parts with
  | [] => false
  | part :: rest =>
      if set_mem part exclude_dirs then true
      else _should_exclude rest exclude_dirs
  end.

(** [sorted(names)] of a set of names: each name once, in the order of
    the code points. *)
Fixpoint insert_sorted (x : string) (l : list string) : list string :=
  match l with
  | [] => [x]
  | y :: rest =>
      if String.leb x y then x :: l else y :: insert_sorted x rest
  end.

Definition sorted_names (names : list string) : list string :=
  fold_right insert_sorted [] (nodup string_dec names).

(** [f"{n:,}"] of a length: the decimal digits in groups of three. *)
Fixpoint commas (digits : list ascii) (seen : nat) : list ascii :=
  match digits with
  | [] => []
  | d :: rest =>
      if (seen =? 3)%nat then ","%char :: d :: commas rest 1
      else d :: commas rest (S seen)
  end.

Definition format_thousands (n : Z) : string :=
  string_of_list_ascii
    (rev (commas (rev (list_ascii_of_string (Z_to_string n))) 0)).

(** [f.read()] when [max_bytes] is [None], [f.read(max_bytes)] otherwise;
    a negative size reads to the end of the file. *)
Definition read_bytes (data : list Byte.byte) (max_bytes : option Z)
  : list Byte.byte :=
  match max_bytes with
  | None => data
  | Some n => if n <? 0 then data else firstn (Z.to_nat n) data
  end.

(** The state dict both commands build around a context. *)
Definition fresh_state (ctx : dict) : dict :=
  [("version", VInt 1); ("context", VDict ctx); ("buffers", VList []);
   ("globals", VDict [])].


(** The parsed arguments of [init-dir]: [d_exclude] is [None] when the
    option is absent. *)
Record InitDirArgs : Type := mkInitDirArgs {
  d_state : string;
  d_directory : string;
  d_pattern : string;
  d_exclude : option (list string);
  d_max_bytes : option Z
}.

(** What the scan yields for a path: [str(path)], [path.parts] and
    [path.is_file()]. *)
Record DirEntry : Type := mkEntry {
  e_path : string;
  e_parts : list string;
  e_is_file : bool
}.

(** [if max_bytes and total_bytes >= max_bytes] *)
Definition cap_reached (max_bytes : option Z) (total_bytes : Z) : bool :=
  match max_bytes with
  | Some m => negb (m =? 0) && (total_bytes >=? m)
  | None => false
  end.

(** ['=' * 60] *)
Definition rule : string :=
  string_of_list_ascii (repeat "="%char 60).

(** [f"{'=' * 60}\n# FILE: {path}\n{'=' * 60}\n"] *)
Definition file_header (path : string) : string :=
  rule ++ String LF ("# FILE: " ++ path ++ String LF (rule ++ String LF "")).

(** The separator of ["\n\n".join(parts)]. *)
Definition blank_line : string := String LF (String LF "").

(** [exclude = exclude | set(args.exclude)] when the option holds a name. *)
Definition exclude_of (args : InitDirArgs) : list string :=
  let exclude := DEFAULT_EXCLUDE_DIRS in
  match d_exclude args with
  | Some (x :: l) => exclude ++ x :: l
  | _ => exclude
  end.

(** [args.pattern or "**/*"] *)
Definition pattern_of (args : InitDirArgs) : string :=
  if String.eqb (d_pattern args) "" then "**/*" else d_pattern args.

Definition no_files_matched (pattern root : string) : exn :=
  RlmReplError ("No files matched pattern '" ++ pattern ++ "' in " ++ root).

Section Loading.

(** Opening a file and reading it to its end: the bytes it holds, or the
    error of the operating system. *)
Variable file_bytes : file_data -> result (list Byte.byte).

(** [data.decode("utf-8")]; [None] stands for [UnicodeDecodeError]. *)
Variable decode_utf8 : list Byte.byte -> option string.

(** [data.decode("utf-8", errors="replace")] *)
Variable decode_utf8_replace : list Byte.byte -> string.

(** [time.time()], a float: kept as an object that [pickle] dumps and
    loads, named by its [repr]. *)
Variable time_time : string.

(** [root.is_dir()] *)
Variable is_dir : string -> bool.

(** [sorted(root.glob(pattern))] *)
Variable glob_sorted : string -> string -> result (list DirEntry).

Definition _read_text_file (path : string) (max_bytes : option Z)
  (fs : filesystem) : result string :=
  match fs path with
  | None => raise (RlmReplError ("Context file does not exist: " ++ path))
  | Some f =>
      all <- file_bytes f ;;
      let data := read_bytes all max_bytes in
      match decode_utf8 data with
      | Some text => ret text
      | None =>
          (* Fall back to a lossy decode that will not crash. *)
          ret (decode_utf8_replace data)
      end
  end.


(** [for path in sorted(root.glob(pattern))] *)
Fixpoint init_dir_loop (exclude : list string) (max_bytes : option Z)
  (fs : filesystem) (paths : list DirEntry)
  (files_loaded parts : list string) (total_bytes : Z)
  : result (list string * list string) :=
  match paths with
  | [] => ret (files_loaded, parts)
  | path :: rest =>
      if negb (e_is_file path)
      then init_dir_loop exclude max_bytes fs rest files_loaded parts
             total_bytes
      else if _should_exclude (e_parts path) exclude
      then init_dir_loop exclude max_bytes fs rest files_loaded parts
             total_bytes
      else
        match _read_text_file (e_path path) None fs with
        | inl e =>
            if is_Exception e
            then init_dir_loop exclude max_bytes fs rest files_loaded parts
                   total_bytes
            else raise e
        | inr text =>
            let header := file_header (e_path path) in
            let parts := parts ++ [(header ++ text)%string] in
            let files_loaded := files_loaded ++ [e_path path] in
            let total_bytes := total_bytes + str_len text in
            if cap_reached max_bytes total_bytes
            then ret (files_loaded, parts)
            else init_dir_loop exclude max_bytes fs rest files_loaded parts
                   total_bytes
        end
  end.

Definition cmd_init_dir (args : InitDirArgs) (fs : filesystem) : Outcome :=
  let state_path := d_state args in
  let root := d_directory args in
  if negb (is_dir root)
  then escaped fs (RlmReplError ("Not a directory: " ++ root))
  else
    let exclude := exclude_of args in
    let pattern := pattern_of args in
    let max_bytes := d_max_bytes args in
    match glob_sorted root pattern with
    | inl e => escaped fs e
    | inr paths =>
        match init_dir_loop exclude max_bytes fs paths [] [] 0 with
        | inl e => escaped fs e
        | inr (files_loaded, parts) =>
            match parts with
            | [] => escaped fs (no_files_matched pattern root)
            | _ :: _ =>
                let content := String.concat blank_line parts in
                let state :=
                  fresh_state
                    [("path", VStr root);
                     ("loaded_at", VObject time_time Picklable);
                     ("content", VStr content);
                     ("files", VList (map VStr files_loaded))] in
                match _save_state state state_path fs with
                | (fs, inl e) => escaped fs e
                | (fs, inr _) =>
                    mkOutcome fs
                      ("Initialized RLM REPL state at: " ++ state_path
                       ++ String LF
                       ("Loaded directory: " ++ root ++ String LF
                        ("  Files: "
                         ++ Z_to_string (Z.of_nat (List.length files_loaded))
                         ++ String LF
                         ("  Total chars: "
                          ++ format_thousands (str_len content) ++ String LF
                          ("  Excluded dirs: "
                           ++ String.concat ", " (sorted_names exclude)
                           ++ String LF "")))))
                      "" (ret 0)
                end
            end
        end
    end.

(** The files the loop can load, each with its text, in the order of the
    scan: regular files outside the excluded names that can be read. *)
Definition eligible (exclude : list string) (fs : filesystem)
  (paths : list DirEntry) : list (string * string) :=
  flat_map
    (fun path =>
       if e_is_file path && negb (_should_exclude (e_parts path) exclude)
       then match _read_text_file (e_path path) None fs with
            | inr text => [(e_path path, text)]
            | inl _ => []
            end
       else [])
    paths.

(** No read ends with an exception outside [Exception]. *)
Definition reads_fail_softly (fs : filesystem) (paths : list DirEntry)
  : Prop :=
  forall path e,
    In path paths -> _read_text_file (e_path path) None fs = raise e ->
    is_Exception e = true.

End Loading.

(** The characters of the texts of a list of loaded files. *)
Definition total_chars (files : list (string * string)) : Z :=
  fold_right (fun f acc => str_len (snd f) + acc) 0 files.

(** One part of the content: the header of a file, then its text. *)
Definition render (f : string * string) : string :=
  (file_header (fst f) ++ snd f)%string.

(** The context [init-dir] stores for the files it loaded. *)
Definition dir_context (time_time root : string)
  (files : list (string * string)) : dict :=
  [("path", VStr root);
   ("loaded_at", VObject time_time Picklable);
   ("content", VStr (String.concat blank_line (map render files)));
   ("files", VList (map VStr (map fst files)))].


(** What the loop keeps of the files it can load: it stops after the
    first file with which the running total reaches the cap. *)
Fixpoint capped (max_bytes : option Z) (total : Z)
  (files : list (string * string)) : list (string * string) :=
  match files with
  | [] => []
  | f :: rest =>
      let total := total + str_len (snd f) in
      f :: (if cap_reached max_bytes total then []
            else capped max_bytes total rest)
  end.

(** A small tree: two sources under [src], one of them below [build],
    and a tree whose root is itself called [build].  The files hold
    bytes below 128 only. *)
Definition sample_tree : filesystem :=
  fun path =>
    if String.eqb path "src/a.py" then Some (OtherFile "x = 1")
    else if String.eqb path "src/build/b.py" then Some (OtherFile "junk")
    else if String.eqb path "src/c.py" then Some (OtherFile "yy")
    else if String.eqb path "build/m.py" then Some (OtherFile "z")
    else None.

Definition sample_file_bytes (f : file_data) : result (list Byte.byte) :=
  match f with
  | OtherFile text => ret (list_byte_of_string text)
  | _ => raise (OtherException "PermissionError" "Permission denied")
  end.

(** UTF-8 decoding of bytes below 128. *)
Definition sample_decode (data : list Byte.byte) : option string :=
  Some (string_of_list_byte data).

Definition sample_decode_replace (data : list Byte.byte) : string :=
  string_of_list_byte data.

Definition sample_is_dir (path : string) : bool :=
  String.eqb path "src" || String.eqb path "build".

Definition sample_glob (root pattern : string) : result (list DirEntry) :=
  if String.eqb root "src" then
    ret [mkEntry "src/a.py" ["src"; "a.py"] true;
         mkEntry "src/build" ["src"; "build"] false;
         mkEntry "src/build/b.py" ["src"; "build"; "b.py"] true;
         mkEntry "src/c.py" ["src"; "c.py"] true]
  else ret [mkEntry "build/m.py" ["build"; "m.py"] true].

Definition sample_init_dir (root : string) (max_bytes : option Z)
  : Outcome :=
  cmd_init_dir sample_file_bytes sample_decode sample_decode_replace
    "1700000000.5" sample_is_dir sample_glob
    (mkInitDirArgs "state.pkl" root "" None max_bytes) sample_tree.

(* ===================================================================== *)
(** * Notions of the specification: line starts and tokens               *)
(* ===================================================================== *)

(** ** Line starts, by the words of the specification *)

(** The offsets at which the lines after the first start, in a text whose
    head is at offset [pos]: a line starts after every line boundary that
    a character follows, and [\r\n] is one boundary. *)
Fixpoint starts_after (pos : Z) (s : string) : list Z :=
  match s with
  | EmptyString => []
  | String c s' =>
      if is_linebreak c then
        match s' with
        | EmptyString => []
        | String c' s'' =>
            if Ascii.eqb c CR && Ascii.eqb c' LF
            then match s'' with
                 | EmptyString => []
                 | String _ _ => (pos + 2) :: starts_after (pos + 2) s''
                 end
            else (pos + 1) :: starts_after (pos + 1) s'
        end
      else starts_after (pos + 1) s'
  end.

(** The starting offset of each line of a text. *)
Definition line_starts (content : string) : list Z :=
  match content with
  | EmptyString => []
  | String _ _ => 0 :: starts_after 0 content
  end.

(** The line an offset is on, counted from 1: that of the largest line
    start that is at most the offset. *)
Definition line_of_offset (content : string) (pos : Z) : Z :=
  count_le pos (line_starts content).

(** No [\r\n] occurs in a text. *)
Fixpoint no_crlf (s : string) : bool :=
  match s with
  | String c (String c' _ as s') =>
      negb (Ascii.eqb c CR && Ascii.eqb c' LF) && no_crlf s'
  | _ => true
  end.

(** The content ["a\r\nb\r\nc\r\nd"]: four lines that end in [\r\n]. *)
Definition crlf_lines : string :=
  "a" ++ String CR (String LF
  ("b" ++ String CR (String LF
  ("c" ++ String CR (String LF "d"))))).

Definition crlf_context : dict := [("content", VStr crlf_lines)].

(** ** Tokens, by the words of the specification *)

(** No word character stands at the head of [s]. *)
Definition word_ends (s : string) : bool :=
  match s with
  | EmptyString => true
  | String c _ => negb (is_word c)
  end.

(** [s] goes on with the word [w], letter case apart, and the word ends
    there. *)
Fixpoint word_here (w s : string) : bool :=
  match w with
  | EmptyString => word_ends s
  | String a w' =>
      match s with
      | String c s' =>
          Ascii.eqb (ascii_lower c) (ascii_lower a) && word_here w' s'
      | EmptyString => false
      end
  end.

(** A token stands at the head of [s], which the character [prev]
    precedes: one of the words, as a whole word. *)
Definition token_here (words : list string) (prev : option ascii)
  (s : string) : bool :=
  match prev with
  | Some p => negb (is_word p)
  | None => true
  end
  && existsb (fun w => word_here w s) words.

(** The number of tokens of a text: the positions at which one stands. *)
Fixpoint count_tokens (words : list string) (prev : option ascii)
  (s : string) : Z :=
  (if token_here words prev s then 1 else 0)
  + match s with
    | EmptyString => 0
    | String c s' => count_tokens words (Some c) s'
    end.

Definition error_words : list string := ["ERROR"; "FATAL"; "CRITICAL"].
Definition warning_words : list string := ["WARN"; "WARNING"].

(** The characters a literal consumes, one after the other. *)
Fixpoint eat (flags : Z) (w : string) (st : PyRe.mstate)
  : option PyRe.mstate :=
  match w with
  | EmptyString => Some st
  | String p w' =>
      match PyRe.step_char st (PyRe.lit_ok flags p) with
      | Some st' => eat flags w' st'
      | None => None
      end
  end.

(** The first [n] characters of [s] are word characters. *)
Fixpoint word_prefix (n : nat) (s : string) : bool :=
  match n with
  | O => true
  | S n' =>
      match s with
      | String c s' => is_word c && word_prefix n' s'
      | EmptyString => false
      end
  end.

(** What one attempt of a pattern that matches tokens gives. *)
Definition matches_tokens (r : PyRe.regex) (words : list string) : Prop :=
  forall pos prev s,
    match PyRe.try_at PyRe.I r pos prev (list_ascii_of_string s) false with
    | Some m =>
        token_here words prev s = true /\
        (0 < PyRe.match_len m)%nat /\
        word_prefix (PyRe.match_len m) s = true
    | None => token_here words prev s = false
    end.

(* ===================================================================== *)
(** * Properties of [chunk_indices]                                       *)
(* ===================================================================== *)

Lemma starts_from_map n step : 0 < step ->
  forall c s0,
    (forall i, (i < c)%nat -> s0 + Z.of_nat i * step < n) ->
    n <= s0 + Z.of_nat c * step ->
    starts_from n step s0 (map (fun i => s0 + Z.of_nat i * step) (seq 0 c)).
Proof.
  intros Hstep c. induction c as [|c IH]; intros s0 Hlt Hge.
  - simpl in *. lia.
  - cbn [seq map]. split; [lia|]. split.
    + specialize (Hlt O). lia.
    + rewrite <- seq_shift, map_map.
      erewrite map_ext; [apply (IH (s0 + step))|].
      * intros i Hi. specialize (Hlt (S i)). lia.
      * lia.
      * intros i. cbn beta. lia.
Qed.

Lemma py_range_starts n step : 0 < step ->
  exists starts, py_range 0 n step = ret starts /\ starts_from n step 0 starts.
Proof.
  intros Hstep. unfold py_range.
  destruct (step =? 0) eqn:E; [lia|].
  destruct (0 <? step) eqn:E1; [|lia].
  eexists. split; [reflexivity|].
  apply starts_from_map; [assumption| |].
  - intros i Hi. destruct (0 <? n) eqn:E2; [|simpl in Hi; lia].
    assert (Hq : 0 <= (n - 0 - 1) / step) by (apply Z.div_pos; lia).
    assert (Z.of_nat i <= (n - 0 - 1) / step) by lia.
    assert (step * ((n - 0 - 1) / step) <= n - 0 - 1)
      by (apply Z.mul_div_le; lia).
    nia.
  - destruct (0 <? n) eqn:E2; [|simpl; lia].
    assert (Hq : 0 <= (n - 0 - 1) / step) by (apply Z.div_pos; lia).
    rewrite Z2Nat.id by lia.
    pose proof (Z.mul_succ_div_gt (n - 0 - 1) step Hstep). lia.
Qed.

Lemma chunk_loop_acc n size starts : forall acc,
  chunk_loop n size starts acc = acc ++ chunk_loop n size starts [].
Proof.
  induction starts as [|s rest IH]; intros acc; cbn [chunk_loop].
  - now rewrite app_nil_r.
  - destruct (Z.min n (s + size) >=? n).
    + reflexivity.
    + rewrite IH, (IH ([] ++ _)). now rewrite <- app_assoc.
Qed.

Lemma chunk_loop_cons n size s rest :
  chunk_loop n size (s :: rest) [] =
  (s, Z.min n (s + size))
    :: if Z.min n (s + size) >=? n then [] else chunk_loop n size rest [].
Proof.
  cbn [chunk_loop]. destruct (Z.min n (s + size) >=? n); [reflexivity|].
  now rewrite chunk_loop_acc.
Qed.

Ltac split7 := split; [|split; [|split; [|split; [|split; [|split]]]]].

Lemma nth_error_nil_none {A} (i : nat) : nth_error (@nil A) i = None.
Proof. destruct i; reflexivity. Qed.

Lemma chunk_loop_chain n size overlap :
  0 < size -> 0 <= overlap < size ->
  forall starts s0, 0 <= s0 ->
    starts_from n (size - overlap) s0 starts ->
    chain_spec n size overlap s0 (chunk_loop n size starts []).
Proof.
  intros Hsize Hov starts.
  induction starts as [|s rest IH]; intros s0 Hs0 Hst.
  - simpl in Hst. cbn [chunk_loop]. split7.
    + intros p Hp. lia.
    + intros a [].
    + intros i a b H. rewrite nth_error_nil_none in H. discriminate.
    + intros a H. discriminate.
    + intros a r H. discriminate.
    + lia.
    + constructor.
  - destruct Hst as (-> & Hlt & Hrest).
    rewrite chunk_loop_cons.
    destruct (Z.min n (s0 + size) >=? n) eqn:E.
    + assert (Hmin : Z.min n (s0 + size) = n) by lia.
      rewrite Hmin. split7.
      * intros p Hp. exists (s0, n). simpl. split; [now left | lia].
      * intros a [<-|[]]. simpl. lia.
      * intros i a b _ H. simpl in H. rewrite nth_error_nil_none in H.
        discriminate.
      * intros a H. simpl in H. injection H as <-. simpl. lia.
      * intros a r H. injection H as <- _. reflexivity.
      * discriminate.
      * repeat constructor. intros [].
    + assert (Hmin : Z.min n (s0 + size) = s0 + size) by lia.
      assert (Hlt' : s0 + size < n) by lia.
      rewrite Hmin.
      specialize (IH (s0 + (size - overlap)) ltac:(lia) Hrest).
      destruct IH as (Hcov & Hin & Hadj & Hlast & Hhead & Hne & Hnd).
      destruct (chunk_loop n size rest []) as [|b R'] eqn:ER;
        [exfalso; apply Hne; [lia | reflexivity]|].
      assert (Hb : fst b = s0 + (size - overlap))
        by (eapply Hhead; reflexivity).
      assert (Hbin := Hin b (or_introl eq_refl)).
      split7.
      * intros p Hp. destruct (Z_lt_dec p (s0 + size)).
        -- exists (s0, s0 + size). simpl. split; [now left | lia].
        -- destruct (Hcov p ltac:(lia)) as (a & Ha & Hpa).
           exists a. split; [now right | assumption].
      * intros a [<-|H]; [simpl; lia|]. apply Hin in H. lia.
      * intros i x y Hx Hy. destruct i as [|i]; simpl in Hx, Hy.
        -- injection Hx as <-. injection Hy as <-. simpl.
           assert (s0 + size < snd b); [|lia].
           destruct (nth_error (b :: R') 1) as [c|] eqn:E1.
           ++ destruct (Hadj O b c eq_refl E1). lia.
           ++ assert (R' = []) by (destruct R'; [reflexivity | discriminate]).
              subst R'. destruct (Hlast b eq_refl). lia.
        -- eapply Hadj; eassumption.
      * intros a H. apply (Hlast a). exact H.
      * intros a r H. injection H as <- _. reflexivity.
      * discriminate.
      * constructor; [|assumption].
        intros H. apply Hin in H. simpl in H. lia.
Qed.

(** C1.  For a content string, a size above zero and an overlap from zero
    up to but excluding the size, [chunk_indices] returns spans that
    cover exactly the offsets [0 .. len(content)): every span lies inside
    the content, is not empty and is at most [size] long; a span that has
    a successor is exactly [size] long, its successor starts [size -
    overlap] later, so that the two share exactly [overlap] characters,
    and ends later; the final span ends at [len(content)], which is its
    start plus [size] clamped; and no span occurs twice. *)
Theorem chunk_indices_covers_content :
  forall (context_ref : dict) (content : string) (size overlap : Z),
    get_content context_ref = VStr content ->
    0 < size -> 0 <= overlap < size ->
    exists spans,
      chunk_indices context_ref size overlap = ret spans /\
      let n := str_len content in
      (forall p, 0 <= p < n <-> exists a, In a spans /\ fst a <= p < snd a) /\
      (forall a, In a spans ->
         0 <= fst a < snd a /\ snd a <= n /\ snd a - fst a <= size) /\
      (forall i a b,
         nth_error spans i = Some a -> nth_error spans (S i) = Some b ->
         snd a - fst a = size /\ fst b = fst a + (size - overlap) /\
         snd a - fst b = overlap /\ snd a < snd b) /\
      (forall a, nth_error spans (Nat.pred (List.length spans)) = Some a ->
         snd a = Z.min n (fst a + size) /\ snd a = n) /\
      NoDup spans.
Proof.
  intros context_ref content size overlap Hc Hsize Hov.
  unfold chunk_indices.
  destruct (size <=? 0) eqn:E1; [lia|].
  destruct (overlap <? 0) eqn:E2; [lia|].
  destruct (overlap >=? size) eqn:E3; [lia|].
  rewrite Hc. cbn [py_len bind ret].
  destruct (py_range_starts (str_len content) (size - overlap) ltac:(lia))
    as (starts & -> & Hst).
  cbn [bind ret]. eexists. split; [reflexivity|].
  destruct (chunk_loop_chain (str_len content) size overlap Hsize Hov
              starts 0 ltac:(lia) Hst)
    as (Hcov & Hin & Hadj & Hlast & _ & _ & Hnd).
  cbv zeta. split; [|split; [|split; [|split]]].
  - intros p. split; [apply Hcov|].
    intros (a & Ha & Hp). apply Hin in Ha. lia.
  - intros a Ha. apply Hin in Ha. lia.
  - exact Hadj.
  - intros a Ha. destruct (Hlast a Ha). lia.
  - exact Hnd.
Qed.

(** The theorem at the content "abcdefghij" with size 4 and overlap 1. *)
Lemma chunk_indices_covers_content_witness :
  get_content [("content", VStr "abcdefghij")] = VStr "abcdefghij" /\
  0 < 4 /\ 0 <= 1 < 4 /\
  exists spans,
    chunk_indices [("content", VStr "abcdefghij")] 4 1 = ret spans /\
    NoDup spans.
Proof.
  split; [reflexivity|]. split; [lia|]. split; [lia|].
  destruct (chunk_indices_covers_content
              [("content", VStr "abcdefghij")] "abcdefghij" 4 1
              eq_refl ltac:(lia) ltac:(lia))
    as (spans & Hrun & _ & _ & _ & _ & Hnd).
  exists spans. split; assumption.
Defined.

Example chunk_indices_sample :
  chunk_indices [("content", VStr "abcdefghij")] 4 1
  = ret [(0, 4); (3, 7); (6, 10)].
Proof. reflexivity. Qed.

(** C6.  A size of zero or less, a negative overlap, or an overlap that
    reaches the size makes [chunk_indices] raise [ValueError], and the
    error is fixed by the two arguments alone: it is the same for every
    context, whatever its content entry holds, since the checks run
    before the content is read. *)
Theorem chunk_indices_rejects_bad_arguments :
  forall (size overlap : Z),
    size <= 0 \/ overlap < 0 \/ overlap >= size ->
    exists msg,
      forall context_ref : dict,
        chunk_indices context_ref size overlap = raise (ValueError msg).
Proof.
  intros size overlap H. unfold chunk_indices.
  destruct (size <=? 0) eqn:E1; [eexists; reflexivity|].
  destruct (overlap <? 0) eqn:E2; [eexists; reflexivity|].
  destruct (overlap >=? size) eqn:E3; [eexists; reflexivity|].
  lia.
Qed.

(** The theorem at [size=0], and the four calls the specification names,
    on a context whose content has no length. *)
Lemma chunk_indices_rejects_bad_arguments_witness :
  (0 <= 0 \/ default_chunk_overlap < 0 \/ default_chunk_overlap >= 0) /\
  exists msg,
    forall context_ref : dict,
      chunk_indices context_ref 0 default_chunk_overlap
      = raise (ValueError msg).
Proof.
  split; [left; lia|].
  apply (chunk_indices_rejects_bad_arguments 0 default_chunk_overlap).
  left; lia.
Defined.

Example chunk_indices_named_failures :
  let ctx := [("content", VNone)] in
  chunk_indices ctx 0 default_chunk_overlap
    = raise (ValueError "size must be > 0") /\
  chunk_indices ctx (-1) default_chunk_overlap
    = raise (ValueError "size must be > 0") /\
  chunk_indices ctx default_chunk_size (-1)
    = raise (ValueError "overlap must be >= 0") /\
  chunk_indices ctx 5 5 = raise (ValueError "overlap must be < size").
Proof. repeat split. Qed.

(** With arguments that pass the checks the content is read: a content
    without a length then fails in [len]. *)
Example chunk_indices_reads_content_after_checks :
  chunk_indices [("content", VNone)] 5 1
  = raise (TypeError "object has no len()").
Proof. reflexivity. Qed.

(* ===================================================================== *)
(** * Line numbers in [grep]                                              *)
(* ===================================================================== *)

Lemma line_offsets_loop_acc lines : forall offset acc,
  line_offsets_loop lines offset acc
  = acc ++ line_offsets_loop lines offset [].
Proof.
  induction lines as [|l rest IH]; intros offset acc; cbn [line_offsets_loop].
  - now rewrite app_nil_r.
  - rewrite IH, (IH _ ([] ++ _)). now rewrite <- app_assoc.
Qed.

Lemma line_offsets_loop_cons l rest offset :
  line_offsets_loop (l :: rest) offset []
  = offset :: line_offsets_loop rest (offset + (str_len l + 1)) [].
Proof. cbn [line_offsets_loop]. now rewrite line_offsets_loop_acc. Qed.

Lemma line_offsets_lower lines : forall offset x,
  In x (line_offsets_loop lines offset []) -> offset <= x.
Proof.
  induction lines as [|l rest IH]; intros offset x H.
  - destruct H.
  - rewrite line_offsets_loop_cons in H. destruct H as [<-|H]; [lia|].
    apply IH in H. unfold str_len in H. lia.
Qed.

Lemma line_offsets_sorted lines : forall offset,
  StronglySorted Z.lt (line_offsets_loop lines offset []).
Proof.
  induction lines as [|l rest IH]; intros offset.
  - constructor.
  - rewrite line_offsets_loop_cons. constructor; [apply IH|].
    apply Forall_forall. intros x H. apply line_offsets_lower in H.
    unfold str_len in H. lia.
Qed.

Lemma line_offsets_length lines : forall offset,
  List.length (line_offsets_loop lines offset []) = List.length lines.
Proof.
  induction lines as [|l rest IH]; intros offset; [reflexivity|].
  rewrite line_offsets_loop_cons. simpl. now rewrite IH.
Qed.

Lemma sorted_nth_lt (l : list Z) : StronglySorted Z.lt l ->
  forall i j a b, nth_error l i = Some a -> nth_error l j = Some b ->
    (i < j)%nat -> a < b.
Proof.
  induction 1 as [|x l Hs IH Hall]; intros i j a b Hi Hj Hij.
  - destruct i; discriminate.
  - destruct j as [|j]; [lia|]. simpl in Hj. destruct i as [|i]; simpl in Hi.
    + injection Hi as <-. rewrite Forall_forall in Hall. apply Hall.
      eapply nth_error_In; eassumption.
    + eapply IH; eauto. lia.
Qed.

Lemma list_at_nth (l : list Z) (i : Z) :
  0 <= i < Z.of_nat (List.length l) ->
  nth_error l (Z.to_nat i) = Some (list_at l i).
Proof.
  intros H. unfold list_at. apply nth_error_nth'. lia.
Qed.

(** The loop invariant of the search, and what it returns: the number of
    line starts that are at most [pos]. *)
Lemma offset_search_spec (l : list Z) (pos : Z) :
  StronglySorted Z.lt l ->
  forall lo hi,
    0 <= lo <= hi + 1 -> hi < Z.of_nat (List.length l) ->
    (forall i, 0 <= i < lo -> list_at l i <= pos) ->
    (forall i, hi < i < Z.of_nat (List.length l) -> pos < list_at l i) ->
    let r := offset_search l pos lo hi in
    0 <= r <= Z.of_nat (List.length l) /\
    (forall i, 0 <= i < r -> list_at l i <= pos) /\
    (forall i, r <= i < Z.of_nat (List.length l) -> pos < list_at l i).
Proof.
  intros Hs lo hi. funelim (offset_search l pos lo hi).
  - intros Hlo Hhi Hbelow Habove.
    assert (Hmid : lo <= (lo + hi) / 2 <= hi)
      by (split; [apply Z.div_le_lower_bound | apply Z.div_le_upper_bound]; lia).
    cbv zeta. set (mid := (lo + hi) / 2) in *. clearbody mid.
    destruct (list_at line_offsets mid <=? pos) eqn:E.
    + apply H; try assumption; try lia.
      intros i Hi. destruct (Z_lt_dec i lo); [apply Hbelow; lia|].
      destruct (Z.eq_dec i mid) as [->|]; [lia|].
      assert (list_at line_offsets i < list_at line_offsets mid); [|lia].
      eapply (sorted_nth_lt _ Hs (Z.to_nat i) (Z.to_nat mid));
        [apply list_at_nth | apply list_at_nth |]; lia.
    + apply H0; try assumption; try lia.
      intros i Hi. destruct (Z_lt_dec hi i); [apply Habove; lia|].
      destruct (Z.eq_dec i mid) as [->|]; [lia|].
      assert (list_at line_offsets mid < list_at line_offsets i); [|lia].
      eapply (sorted_nth_lt _ Hs (Z.to_nat mid) (Z.to_nat i));
        [apply list_at_nth | apply list_at_nth |]; lia.
  - intros Hlo Hhi Hbelow Habove. cbv zeta.
    assert (lo = hi + 1) by lia. subst lo.
    split; [lia|]. split; [assumption|]. intros i Hi. apply Habove. lia.
Qed.

Lemma offset_to_line_count (l : list Z) (pos : Z) :
  StronglySorted Z.lt l ->
  let r := _offset_to_line l pos in
  0 <= r <= Z.of_nat (List.length l) /\
  (forall i, 0 <= i < r -> list_at l i <= pos) /\
  (forall i, r <= i < Z.of_nat (List.length l) -> pos < list_at l i).
Proof.
  intros Hs. unfold _offset_to_line.
  apply offset_search_spec; try assumption; lia.
Qed.

Lemma offset_to_line_largest (l : list Z) (pos : Z) (i : nat) (start : Z) :
  StronglySorted Z.lt l ->
  nth_error l i = Some start -> start <= pos ->
  (forall start', In start' l -> start' <= pos -> start' <= start) ->
  _offset_to_line l pos = Z.of_nat i + 1.
Proof.
  intros Hs Hi Hle Hmax.
  destruct (offset_to_line_count l pos Hs) as (Hr & Hbelow & Habove).
  set (r := _offset_to_line l pos) in *. clearbody r.
  assert (Hlen : (i < List.length l)%nat)
    by (apply nth_error_Some; congruence).
  assert (Hat : list_at l (Z.of_nat i) = start).
  { pose proof (list_at_nth l (Z.of_nat i) ltac:(lia)) as E.
    rewrite Nat2Z.id in E. congruence. }
  assert (Z.of_nat i < r).
  { destruct (Z_lt_dec (Z.of_nat i) r); [assumption|].
    specialize (Habove (Z.of_nat i) ltac:(lia)). lia. }
  destruct (Z_le_dec r (Z.of_nat i + 1)); [lia|].
  exfalso.
  pose proof (Hbelow (Z.of_nat i + 1) ltac:(lia)) as Hnext.
  pose proof (list_at_nth l (Z.of_nat i + 1) ltac:(lia)) as E.
  assert (start < list_at l (Z.of_nat i + 1)).
  { eapply (sorted_nth_lt _ Hs i); [exact Hi | exact E | lia]. }
  specialize (Hmax (list_at l (Z.of_nat i + 1))
                (nth_error_In _ _ E) Hnext). lia.
Qed.

Lemma grep_loop_hits content line_offsets max_matches window ms :
  forall out h,
    In h (grep_loop content line_offsets max_matches window ms out) ->
    In h out \/
    exists m, In m ms /\ h = grep_hit content line_offsets window m.
Proof.
  induction ms as [|m rest IH]; intros out h H; cbn [grep_loop] in H.
  - now left.
  - assert (Hnew : In h (out ++ [grep_hit content line_offsets window m]) ->
                   In h out \/
                   exists m', In m' (m :: rest) /\
                              h = grep_hit content line_offsets window m').
    { intros Hin. apply in_app_or in Hin. destruct Hin as [Hin|[<-|[]]].
      - now left.
      - right. exists m. split; [now left | reflexivity]. }
    destruct (Z.of_nat
                (List.length (out ++ [grep_hit content line_offsets window m]))
              >=? max_matches).
    + now apply Hnew.
    + apply IH in H. destruct H as [H|(m' & Hm' & ->)].
      * now apply Hnew.
      * right. exists m'. split; [now right | reflexivity].
Qed.

(** The search of [_offset_to_line] over the table [grep] builds from the
    lines of the content: when [start] is the largest entry of the table
    that is at most the offset, and it is entry [i] counted from zero,
    the search returns [i + 1]; whenever the content has a line and the
    offset is not negative the answer is between 1 and the number of
    lines; every hit of [grep] carries what the search returns for the
    start of its span; and for the content "a\nbb\nccc" offset 3 gives 2
    and offset 0 gives 1. *)
Lemma offset_to_line_resolves_line :
  (forall (content : string) (pos : Z) (i : nat) (start : Z),
      nth_error (line_offsets_of content) i = Some start ->
      start <= pos ->
      (forall start', In start' (line_offsets_of content) ->
                      start' <= pos -> start' <= start) ->
      _offset_to_line (line_offsets_of content) pos = Z.of_nat i + 1) /\
  (forall (content : string) (pos : Z),
      splitlines content <> [] -> 0 <= pos ->
      1 <= _offset_to_line (line_offsets_of content) pos
        <= Z.of_nat (List.length (splitlines content))) /\
  (forall re_compile context_ref content pattern max_matches window flags out,
      get_content context_ref = VStr content ->
      grep re_compile context_ref pattern max_matches window flags = ret out ->
      forall h, In h out ->
        hit_line h
        = _offset_to_line (line_offsets_of content) (fst (hit_span h))) /\
  _offset_to_line (line_offsets_of three_lines) 3 = 2 /\
  _offset_to_line (line_offsets_of three_lines) 0 = 1.
Proof.
  split; [|split; [|split; [|split]]].
  - intros content pos i start Hi Hle Hmax.
    eapply offset_to_line_largest; eauto.
    apply line_offsets_sorted.
  - intros content pos Hne Hpos. unfold line_offsets_of.
    pose proof (line_offsets_sorted (splitlines content) 0) as Hs.
    destruct (offset_to_line_count _ pos Hs) as (Hr & _ & Habove).
    rewrite line_offsets_length in Hr, Habove.
    split; [|lia].
    match goal with |- 1 <= ?r => destruct (Z_le_dec 1 r) as [|Hn] end;
      [assumption|].
    exfalso.
    destruct (splitlines content) as [|l rest]; [congruence|].
    specialize (Habove 0 ltac:(simpl List.length; lia)).
    rewrite line_offsets_loop_cons in Habove.
    unfold list_at in Habove. simpl in Habove. lia.
  - intros re_compile context_ref content pattern max_matches window flags
      out Hc Hrun h Hin.
    unfold grep in Hrun. rewrite Hc in Hrun. cbn [str_receiver bind ret] in Hrun.
    destruct (re_compile pattern flags) as [e|p]; [discriminate|].
    cbn [bind ret] in Hrun. injection Hrun as <-.
    apply grep_loop_hits in Hin. destruct Hin as [[]|(m & _ & ->)].
    reflexivity.
  - reflexivity.
  - reflexivity.
Qed.

(** The lemma at the content "a\nbb\nccc" and offset 3: the largest entry
    at most 3 is 2, the start of the second line. *)
Lemma offset_to_line_resolves_line_witness :
  nth_error (line_offsets_of three_lines) 1 = Some 2 /\
  2 <= 3 /\
  _offset_to_line (line_offsets_of three_lines) 3 = Z.of_nat 1 + 1.
Proof.
  split; [reflexivity|]. split; [lia|].
  apply (proj1 offset_to_line_resolves_line three_lines 3 1%nat 2).
  - reflexivity.
  - lia.
  - intros start' Hin Hle.
    assert (Hl : line_offsets_of three_lines = [0; 2; 5]) by reflexivity.
    rewrite Hl in Hin. simpl in Hin.
    destruct Hin as [<-|[<-|[<-|[]]]]; lia.
Defined.

(* ===================================================================== *)
(** * [grep] against [grep_count]                                         *)
(* ===================================================================== *)

Lemma grep_loop_length content line_offsets max_matches window ms :
  forall out,
    Z.of_nat (List.length out) + Z.of_nat (List.length ms) <= max_matches ->
    List.length (grep_loop content line_offsets max_matches window ms out)
    = (List.length out + List.length ms)%nat.
Proof.
  induction ms as [|m rest IH]; intros out H; cbn [grep_loop].
  - simpl. lia.
  - cbn [List.length] in H.
    destruct (Z.of_nat
                (List.length (out ++ [grep_hit content line_offsets window m]))
              >=? max_matches) eqn:E.
    + rewrite Z.geb_leb in E. apply Z.leb_le in E.
      rewrite length_app in *. cbn [List.length] in *.
      destruct rest as [|m' rest]; [simpl; lia|].
      cbn [List.length] in H. lia.
    + rewrite Z.geb_leb in E. apply Z.leb_gt in E.
      rewrite length_app in E. cbn [List.length] in E.
      rewrite IH; rewrite length_app; cbn [List.length]; lia.
Qed.

(** C4.  When [grep_count] returns [n] and [max_matches] is at least [n],
    [grep] on the same context, pattern and flags returns exactly [n]
    hits. *)
Theorem grep_length_is_grep_count :
  forall re_compile (context_ref : dict) (pattern : string)
         (max_matches window flags n : Z),
    grep_count re_compile context_ref pattern flags = ret n ->
    n <= max_matches ->
    exists out,
      grep re_compile context_ref pattern max_matches window flags = ret out
      /\ Z.of_nat (List.length out) = n.
Proof.
  intros re_compile context_ref pattern max_matches window flags n Hc Hmax.
  unfold grep_count in Hc. unfold grep.
  destruct (re_compile pattern flags) as [e|p]; [discriminate|].
  cbn [bind ret] in Hc.
  destruct (get_content context_ref) as [| | |content| | | |];
    try discriminate.
  cbn [expect_str str_receiver bind ret] in *. injection Hc as <-.
  eexists. split; [reflexivity|].
  unfold findall in Hmax. rewrite length_map in Hmax.
  rewrite grep_loop_length by (simpl; unfold finditer; lia).
  unfold findall, finditer. rewrite length_map. reflexivity.
Qed.

(** The theorem at the content "a\nbb\nccc" and the pattern [b], which
    occurs twice. *)
Lemma grep_length_is_grep_count_witness :
  let ctx := [("content", VStr three_lines)] in
  grep_count compile_literal ctx "b" 0 = ret 2 /\
  2 <= default_max_matches /\
  exists out,
    grep compile_literal ctx "b" default_max_matches default_window 0
    = ret out
    /\ Z.of_nat (List.length out) = 2.
Proof.
  cbv zeta. split; [reflexivity|]. split; [unfold default_max_matches; lia|].
  apply (grep_length_is_grep_count compile_literal
           [("content", VStr three_lines)] "b"
           default_max_matches default_window 0 2).
  - reflexivity.
  - unfold default_max_matches. lia.
Defined.

(* ===================================================================== *)
(** * [extract_yaml_documents]                                            *)
(* ===================================================================== *)

(** C7.  On the content "---\na\n---\nb" the separator lines leave the
    segments "", "\na\n" and "\nb", of which two are non-empty after
    trimming; asked for one document, [extract_yaml_documents] cuts the
    segments down to the first, the empty one, before it discards empty
    segments, and returns no document at all. *)
Theorem extract_yaml_documents_cuts_before_filtering :
  split (PyRe.compile yaml_separator PyRe.MULTILINE) two_documents
    = [""; String LF ("a" ++ String LF ""); String LF "b"]%string /\
  strip_nonempty
    (split (PyRe.compile yaml_separator PyRe.MULTILINE) two_documents)
    = ["a"; "b"] /\
  extract_yaml_documents [("content", VStr two_documents)] 1 = ret [].
Proof. repeat split. Qed.

(* ===================================================================== *)
(** * [time_range]                                                        *)
(* ===================================================================== *)





Example time_range_without_timestamps :
  time_range [("content", VStr "nothing to see")]
  = ret (mkTimeRange None None).
Proof. reflexivity. Qed.

(* ===================================================================== *)
(** * [stats]                                                             *)
(* ===================================================================== *)

Example stats_sample :
  stats [("content", VStr small_log); ("files", VList [VStr "a.log"])]
  = ret [("total_chars", VInt 26); ("total_lines", VInt 3);
         ("non_empty_lines", VInt 2); ("avg_line_length", VInt 8);
         ("files_loaded", VInt 1); ("error_count", VInt 1);
         ("warning_count", VInt 1)].
Proof. reflexivity. Qed.

(* ===================================================================== *)
(** * Dictionaries and the serialization filter                           *)
(* ===================================================================== *)

Lemma dict_lookup_set (d : dict) (k k' : string) (v : value) :
  dict_lookup (dict_set d k v) k'
  = if String.eqb k' k then Some v else dict_lookup d k'.
Proof.
  induction d as [|[k0 v0] d IH]; cbn [dict_set dict_lookup].
  - reflexivity.
  - destruct (String.eqb k k0) eqn:E; cbn [dict_lookup].
    + apply String.eqb_eq in E. subst k0.
      destruct (String.eqb k' k); reflexivity.
    + destruct (String.eqb k' k0) eqn:E'.
      * apply String.eqb_eq in E'. subst k0.
        rewrite String.eqb_sym, E. reflexivity.
      * exact IH.
Qed.

Lemma dict_set_fresh (d : dict) (k : string) (v : value) :
  ~ In k (dict_keys d) -> dict_set d k v = d ++ [(k, v)].
Proof.
  induction d as [|[k0 v0] d IH]; intros H; cbn [dict_set].
  - reflexivity.
  - destruct (String.eqb k k0) eqn:E.
    + apply String.eqb_eq in E. subst. exfalso. apply H. now left.
    + cbn [app]. f_equal. apply IH. intros Hin. apply H. now right.
Qed.

Lemma first_error_forallb {A} (f : A -> option exn) (l : list A) :
  match first_error f l with None => true | Some _ => false end
  = forallb (fun x => match f x with None => true | Some _ => false end) l.
Proof.
  induction l as [|x l IH]; cbn [first_error forallb]; [reflexivity|].
  destruct (f x); [reflexivity | exact IH].
Qed.

Lemma dumps_ok_dict (d : dict) :
  dumps_ok (VDict d) = forallb (fun kv => dumps_ok (snd kv)) d.
Proof.
  exact (first_error_forallb (fun kv => dumps_error (snd kv)) d).
Qed.

Lemma dumps_ok_list (l : list value) :
  dumps_ok (VList l) = forallb dumps_ok l.
Proof. exact (first_error_forallb dumps_error l). Qed.


Lemma dumps_raises (v : value) :
  (exists e, pickle_dumps v = raise e) <-> dumps_ok v = false.
Proof.
  unfold pickle_dumps, dumps_ok. destruct (dumps_error v); split; intros H;
    try reflexivity; try discriminate.
  - now eexists.
  - destruct H as (b & H). discriminate.
Qed.

Lemma pickle_dumps_ok (v : value) :
  dumps_ok v = true -> pickle_dumps v = ret (Pickled v).
Proof.
  unfold pickle_dumps, dumps_ok. now destruct (dumps_error v).
Qed.

Lemma pickle_dumps_ret (v : value) (b : pickled) :
  pickle_dumps v = ret b -> b = Pickled v /\ dumps_ok v = true.
Proof.
  unfold pickle_dumps, dumps_ok. destruct (dumps_error v); [discriminate|].
  intros H. injection H as <-. now split.
Qed.

Lemma is_pickleable_ret (v : value) (b : bool) :
  _is_pickleable v = ret b -> b = dumps_ok v.
Proof.
  unfold _is_pickleable, pickle_dumps, dumps_ok.
  destruct (dumps_error v) as [e|]; cbv [ret raise];
    [destruct (is_Exception e)|];
    intros H; try discriminate H; now injection H as <-.
Qed.

Lemma is_pickleable_raise (v : value) (e : exn) :
  _is_pickleable v = raise e ->
  is_Exception e = false /\ pickle_dumps v = raise e.
Proof.
  unfold _is_pickleable, pickle_dumps.
  destruct (dumps_error v) as [e'|]; cbv [ret raise]; [|discriminate].
  destruct (is_Exception e') eqn:E; [discriminate|].
  intros H. injection H as <-. now split.
Qed.

Lemma is_pickleable_soft (v : value) :
  (forall e, pickle_dumps v = raise e -> is_Exception e = true) ->
  _is_pickleable v = ret (dumps_ok v).
Proof.
  intros H. destruct (_is_pickleable v) as [e|b] eqn:E.
  - apply is_pickleable_raise in E. destruct E as (E1 & E2).
    rewrite (H e E2) in E1. discriminate.
  - now rewrite (is_pickleable_ret v b E).
Qed.

(** What the loop returns, when it returns. *)
Lemma filter_loop_ret (d : dict) : forall kept dropped res,
  NoDup (dict_keys kept ++ dict_keys d) ->
  filter_loop d kept dropped = ret res ->
  res = (kept ++ filter keeps d,
         dropped ++ map fst (filter (fun kv => negb (keeps kv)) d)).
Proof.
  induction d as [|[k v] d IH]; intros kept dropped res Hnd;
    cbn [filter_loop].
  - cbn [filter map]. rewrite !app_nil_r. intros H. now injection H as <-.
  - destruct (_is_pickleable v) as [e|b] eqn:E; [discriminate|].
    apply is_pickleable_ret in E. subst b. cbn [bind filter].
    change (keeps (k, v)) with (dumps_ok v). cbn [dict_keys map fst] in Hnd.
    pose proof (NoDup_remove_2 _ _ _ Hnd) as Hfresh.
    destruct (dumps_ok v); cbn [negb]; intros H.
    + rewrite dict_set_fresh in H
        by (intros Hin; apply Hfresh; apply in_or_app; now left).
      apply IH in H.
      * now rewrite <- app_assoc in H.
      * unfold dict_keys in *. rewrite map_app, <- app_assoc. exact Hnd.
    + apply IH in H.
      * cbn [map fst]. now rewrite <- app_assoc in H.
      * eapply NoDup_remove_1. exact Hnd.
Qed.

(** The loop raises only what [pickle.dumps] raised on one of the values,
    and only an exception that [except Exception] lets through. *)
Lemma filter_loop_raise (d : dict) : forall kept dropped e,
  filter_loop d kept dropped = raise e ->
  is_Exception e = false /\
  exists k v, In (k, v) d /\ pickle_dumps v = raise e.
Proof.
  induction d as [|[k v] d IH]; intros kept dropped e; cbn [filter_loop];
    [discriminate|].
  destruct (_is_pickleable v) as [e'|b] eqn:E; cbn [bind].
  - intros H. injection H as ->. apply is_pickleable_raise in E.
    destruct E as (E1 & E2). split; [exact E1|].
    exists k, v. split; [now left | exact E2].
  - intros H. assert (H' : exists kept' dropped',
                        filter_loop d kept' dropped' = raise e)
      by (destruct b; eauto).
    destruct H' as (kept' & dropped' & H').
    apply IH in H'. destruct H' as (E1 & k' & v' & Hin & E2).
    split; [exact E1|]. exists k', v'. split; [now right | exact E2].
Qed.

Lemma filter_loop_soft (d : dict) :
  dumps_softly d ->
  forall kept dropped, exists res, filter_loop d kept dropped = ret res.
Proof.
  intros Hsoft kept dropped.
  destruct (filter_loop d kept dropped) as [e|res] eqn:E; [|now eexists].
  apply filter_loop_raise in E. destruct E as (E1 & k & v & Hin & E2).
  rewrite (Hsoft k v e Hin E2) in E1. discriminate.
Qed.


Lemma filter_pickleable_ret (d kept : dict) (dropped : list string) :
  dict_wf d ->
  _filter_pickleable d = ret (kept, dropped) ->
  kept = filter keeps d /\
  dropped = map fst (filter (fun kv => negb (keeps kv)) d).
Proof.
  intros Hwf H. apply filter_loop_ret in H; [|exact Hwf].
  now injection H as -> ->.
Qed.

Lemma filter_pickleable_spec (d : dict) :
  dict_wf d -> dumps_softly d ->
  _filter_pickleable d
  = ret (filter keeps d, map fst (filter (fun kv => negb (keeps kv)) d)).
Proof.
  intros Hwf Hsoft.
  destruct (filter_loop_soft d Hsoft [] []) as ([kept dropped] & H).
  unfold _filter_pickleable. rewrite H.
  destruct (filter_pickleable_ret d kept dropped Hwf H) as [-> ->].
  reflexivity.
Qed.

Lemma dict_lookup_In (d : dict) (k : string) (v : value) :
  dict_wf d -> (dict_lookup d k = Some v <-> In (k, v) d).
Proof.
  unfold dict_wf, dict_keys.
  induction d as [|[k0 v0] d IH]; intros Hnd; cbn [dict_lookup].
  - split; [discriminate | intros []].
  - cbn [map fst] in Hnd. inversion Hnd as [|? ? Hnot Hnd']; subst.
    destruct (String.eqb k k0) eqn:E.
    + apply String.eqb_eq in E. subst k0. split.
      * intros H. injection H as <-. now left.
      * intros [H|H]; [now injection H as <- | ].
        exfalso. apply Hnot. apply (in_map fst) in H. exact H.
    + apply String.eqb_neq in E. rewrite (IH Hnd'). split.
      * now right.
      * intros [H|H]; [injection H as <- <-; congruence | assumption].
Qed.

Lemma dict_lookup_None (d : dict) (k : string) :
  dict_lookup d k = None <-> ~ In k (dict_keys d).
Proof.
  induction d as [|[k0 v0] d IH]; cbn [dict_lookup dict_keys map fst].
  - split; [intros _ [] | reflexivity].
  - destruct (String.eqb k k0) eqn:E.
    + apply String.eqb_eq in E. subst. split; [discriminate|].
      intros H. exfalso. apply H. now left.
    + apply String.eqb_neq in E. rewrite IH. unfold dict_keys. split.
      * intros H [H'|H']; [congruence | now apply H].
      * intros H H'. apply H. now right.
Qed.

Lemma filter_wf (f : string * value -> bool) (d : dict) :
  dict_wf d -> dict_wf (filter f d).
Proof.
  unfold dict_wf, dict_keys. induction d as [|kv d IH]; intros Hnd.
  - constructor.
  - cbn [map] in Hnd. inversion Hnd as [|? ? Hnot Hnd']; subst.
    cbn [filter]. destruct (f kv); [|now apply IH].
    cbn [map]. constructor; [|now apply IH].
    intros Hin. apply Hnot. apply in_map_iff in Hin.
    destruct Hin as (x & Hx & Hin). apply filter_In in Hin.
    rewrite <- Hx. apply in_map. tauto.
Qed.

Lemma dict_lookup_filter (f : string * value -> bool) (d : dict) (k : string) :
  dict_wf d ->
  dict_lookup (filter f d) k
  = match dict_lookup d k with
    | Some v => if f (k, v) then Some v else None
    | None => None
    end.
Proof.
  intros Hwf.
  destruct (dict_lookup d k) as [v|] eqn:E.
  - apply (dict_lookup_In d k v Hwf) in E.
    destruct (f (k, v)) eqn:Ef.
    + apply dict_lookup_In; [now apply filter_wf|].
      apply filter_In. tauto.
    + apply dict_lookup_None. intros Hin. unfold dict_keys in Hin.
      apply in_map_iff in Hin. destruct Hin as ([k' v'] & Hk & Hin).
      cbn [fst] in Hk. subst k'. apply filter_In in Hin. destruct Hin as [Hin Hf].
      apply (dict_lookup_In d k v' Hwf) in Hin.
      apply (dict_lookup_In d k v Hwf) in E. congruence.
  - apply dict_lookup_None. apply dict_lookup_None in E.
    intros Hin. apply E. unfold dict_keys in *.
    apply in_map_iff in Hin. destruct Hin as (x & Hx & Hin).
    apply filter_In in Hin. rewrite <- Hx. apply in_map. tauto.
Qed.


(* ===================================================================== *)
(** * The [exec] command                                                  *)
(* ===================================================================== *)

Lemma cmd_exec_loaded py_exec format_exc args stdin fs s :
  load_session (a_state args) fs = ret s ->
  cmd_exec py_exec format_exc args stdin fs
  = let r := py_exec (code_of args stdin)
               (build_env (s_persisted s) (s_ctx s) (s_buffers s)) in
    let state := state_after_run (s_state s) r in
    match x_raised r with
    | None =>
        finish_exec args fs state (x_env r) (x_stdout r) (x_stderr r)
          (x_stdout_closed r) (x_stderr_closed r)
    | Some e =>
        if is_Exception e
        then
          if x_stderr_closed r then escaped fs closed_file
          else finish_exec args fs state (x_env r) (x_stdout r)
                 (x_stderr r ++ format_exc e)%string
                 (x_stdout_closed r) (x_stderr_closed r)
        else escaped fs e
    end.
Proof.
  intros H. unfold cmd_exec. rewrite H. destruct s. reflexivity.
Qed.

Lemma stored_after_save (state : dict) (path : string) (fs saved : filesystem) :
  _save_state state path fs = (saved, inr tt) ->
  stored_state saved path = Some state.
Proof.
  unfold _save_state, pickle_dumps.
  destruct (dumps_error (VDict state)); [discriminate|].
  cbn [ret]. intros H. injection H as <-.
  unfold stored_state, fs_replace, fs_write.
  now rewrite !String.eqb_refl.
Qed.


Lemma finish_exec_ret args fs state env out err out_closed err_closed
  kept dropped :
  _filter_pickleable (persist_candidates env) = ret (kept, dropped) ->
  finish_exec args fs state env out err out_closed err_closed
  = match _save_state (dict_set (reconcile state env) "globals" (VDict kept))
            (a_state args) fs with
    | (saved, inl e) => escaped saved e
    | (saved, inr _) =>
        if out_closed then escaped saved closed_file
        else if err_closed then escaped saved closed_file
        else mkOutcome saved (emit out (a_max_output_chars args))
               (emit (with_warning args dropped err)
                  (a_max_output_chars args))
               (ret 0)
    end.
Proof. intros H. unfold finish_exec. now rewrite H. Qed.

(** A command that ended with status 0 went through the filter and the
    save, and found both capture buffers open. *)
Lemma finish_exec_success args fs state env out err out_closed err_closed :
  o_status (finish_exec args fs state env out err out_closed err_closed)
  = ret 0 ->
  exists kept dropped,
    _filter_pickleable (persist_candidates env) = ret (kept, dropped) /\
    stored_state
      (o_fs (finish_exec args fs state env out err out_closed err_closed))
      (a_state args)
    = Some (dict_set (reconcile state env) "globals" (VDict kept)) /\
    out_closed = false /\ err_closed = false /\
    finish_exec args fs state env out err out_closed err_closed
    = mkOutcome
        (o_fs (finish_exec args fs state env out err out_closed err_closed))
        (emit out (a_max_output_chars args))
        (emit (with_warning args dropped err) (a_max_output_chars args))
        (ret 0).
Proof.
  unfold finish_exec.
  destruct (_filter_pickleable (persist_candidates env))
    as [e|[kept dropped]]; [discriminate|].
  destruct (_save_state _ (a_state args) fs) as [saved [e'|[]]] eqn:Hsave;
    [discriminate|].
  destruct out_closed; [discriminate|]. destruct err_closed; [discriminate|].
  intros _. exists kept, dropped. split; [reflexivity|].
  split; [|repeat split]. cbn [o_fs]. eapply stored_after_save. exact Hsave.
Qed.

(** A run that ended with status 0 went through the save. *)
Lemma cmd_exec_success py_exec format_exc args stdin fs s :
  load_session (a_state args) fs = ret s ->
  let r := py_exec (code_of args stdin)
             (build_env (s_persisted s) (s_ctx s) (s_buffers s)) in
  let outcome := cmd_exec py_exec format_exc args stdin fs in
  o_status outcome = ret 0 ->
  exists kept dropped captured_err,
    _filter_pickleable (persist_candidates (x_env r)) = ret (kept, dropped) /\
    stored_state (o_fs outcome) (a_state args)
      = Some (dict_set (reconcile (state_after_run (s_state s) r) (x_env r))
                "globals" (VDict kept)) /\
    o_stderr outcome
      = emit (with_warning args dropped captured_err)
          (a_max_output_chars args).
Proof.
  intros Hload r outcome. subst outcome.
  rewrite (cmd_exec_loaded _ _ _ _ _ _ Hload). cbv zeta. fold r.
  assert (Hfin : forall err,
             let o := finish_exec args fs (state_after_run (s_state s) r)
                        (x_env r) (x_stdout r) err
                        (x_stdout_closed r) (x_stderr_closed r) in
             o_status o = ret 0 ->
             exists kept dropped captured_err,
               _filter_pickleable (persist_candidates (x_env r))
                 = ret (kept, dropped) /\
               stored_state (o_fs o) (a_state args)
               = Some (dict_set
                         (reconcile (state_after_run (s_state s) r) (x_env r))
                         "globals" (VDict kept)) /\
               o_stderr o
               = emit (with_warning args dropped captured_err)
                   (a_max_output_chars args)).
  { intros err o Hok. subst o.
    destruct (finish_exec_success _ _ _ _ _ _ _ _ Hok)
      as (kept & dropped & Hfilter & Hstored & _ & _ & Heq).
    exists kept, dropped, err. split; [exact Hfilter|].
    split; [exact Hstored|]. rewrite Heq. reflexivity. }
  destruct (x_raised r) as [e|]; [|apply Hfin].
  destruct (is_Exception e); [|discriminate].
  destruct (x_stderr_closed r); [discriminate|]. apply Hfin.
Qed.

Lemma is_injected_content : is_injected "content" = true.
Proof. reflexivity. Qed.

Lemma persist_candidates_rebind (env : dict) (v : value) :
  persist_candidates (dict_set env "content" v) = persist_candidates env.
Proof.
  unfold persist_candidates.
  induction env as [|[k0 v0] env IH]; cbn [dict_set filter].
  - reflexivity.
  - destruct (String.eqb "content" k0) eqn:E.
    + apply String.eqb_eq in E. subst k0. cbn [filter fst].
      rewrite is_injected_content. reflexivity.
    + cbn [filter fst]. rewrite IH. reflexivity.
Qed.

Lemma reconcile_rebind (state env : dict) (v : value) :
  reconcile state (dict_set env "content" v) = reconcile state env.
Proof.
  unfold reconcile, dict_get. now rewrite !dict_lookup_set.
Qed.

Lemma finish_exec_rebind args fs state env out err out_closed err_closed v :
  finish_exec args fs state (dict_set env "content" v) out err
    out_closed err_closed
  = finish_exec args fs state env out err out_closed err_closed.
Proof.
  unfold finish_exec. now rewrite reconcile_rebind, persist_candidates_rebind.
Qed.

Lemma reconcile_context (state env d : dict) :
  dict_lookup env "context" = Some (VDict d) ->
  dict_contains d "content" = true ->
  dict_lookup (reconcile state env) "context" = Some (VDict d).
Proof.
  intros Hctx Hcontent. unfold reconcile, dict_get. rewrite Hctx, Hcontent.
  destruct (dict_lookup env "buffers") as [[]|];
    rewrite ?dict_lookup_set; reflexivity.
Qed.

(** C10.  A run that ends by rebinding [content] leaves the command with
    the same outcome, files included, as the run without that statement;
    and after a command that returned 0, when the environment binds
    [context] to a record with a [content] entry, the state file holds
    that record as the session's context, so the session's content is
    the record's, whatever [content] is bound to. *)
Theorem rebinding_content_is_not_saved :
  (forall py_exec format_exc (args : ExecArgs) (stdin : string)
          (fs : filesystem) (v : value),
      cmd_exec (fun code env => rebind_content (py_exec code env) v)
        format_exc args stdin fs
      = cmd_exec py_exec format_exc args stdin fs) /\
  (forall py_exec format_exc (args : ExecArgs) (stdin : string)
          (fs : filesystem) (s : Session),
      load_session (a_state args) fs = ret s ->
      let r := py_exec (code_of args stdin)
                 (build_env (s_persisted s) (s_ctx s) (s_buffers s)) in
      let outcome := cmd_exec py_exec format_exc args stdin fs in
      o_status outcome = ret 0 ->
      forall d : dict,
        dict_lookup (x_env r) "context" = Some (VDict d) ->
        dict_contains d "content" = true ->
        exists state,
          stored_state (o_fs outcome) (a_state args) = Some state /\
          dict_lookup state "context" = Some (VDict d) /\
          session_content state = dict_lookup d "content").
Proof.
  split.
  - intros py_exec format_exc args stdin fs v. unfold cmd_exec.
    destruct (load_session (a_state args) fs) as [e|[state ctx buffers persisted]];
      [reflexivity|].
    cbv zeta. unfold state_after_run, rebind_content.
    cbn [x_context x_buffers x_env x_raised x_stdout x_stderr
         x_stdout_closed x_stderr_closed].
    destruct (x_raised (py_exec (code_of args stdin)
                          (build_env persisted ctx buffers))) as [e|];
      [destruct (is_Exception e); [|reflexivity];
       destruct (x_stderr_closed _); [reflexivity|]|];
      apply finish_exec_rebind.
  - intros py_exec format_exc args stdin fs s Hload r outcome Hok d Hctx Hcontent.
    destruct (cmd_exec_success py_exec format_exc args stdin fs s Hload Hok)
      as (kept & dropped & captured & _ & Hstored & _).
    exists (dict_set (reconcile (state_after_run (s_state s) r) (x_env r))
              "globals" (VDict kept)).
    split; [exact Hstored|].
    assert (Hl : dict_lookup
                   (dict_set (reconcile (state_after_run (s_state s) r) (x_env r))
                      "globals" (VDict kept)) "context" = Some (VDict d)).
    { rewrite dict_lookup_set. cbn [String.eqb Ascii.eqb Bool.eqb].
      now apply reconcile_context. }
    split; [exact Hl|]. unfold session_content. now rewrite Hl.
Qed.

(** The theorem at a run that rebinds [content] to "other": the session
    keeps the content "hello" of its context. *)
Lemma rebinding_content_is_not_saved_witness :
  load_session (a_state demo_args) demo_fs = ret demo_session /\
  o_status (cmd_exec demo_exec_quiet demo_format_exc demo_args "" demo_fs)
    = ret 0 /\
  dict_lookup (x_env (demo_exec_quiet (code_of demo_args "")
                        (build_env (s_persisted demo_session)
                           (s_ctx demo_session) (s_buffers demo_session))))
    "content" = Some (VStr "other") /\
  exists state,
    stored_state
      (o_fs (cmd_exec demo_exec_quiet demo_format_exc demo_args "" demo_fs))
      "state.pkl" = Some state /\
    session_content state = Some (VStr "hello").
Proof.
  split; [reflexivity|]. split; [reflexivity|]. split; [reflexivity|].
  destruct (proj2 rebinding_content_is_not_saved demo_exec_quiet
              demo_format_exc demo_args "" demo_fs demo_session
              eq_refl eq_refl demo_context eq_refl eq_refl)
    as (state & Hstored & _ & Hcontent).
  exists state. split; [exact Hstored|]. rewrite Hcontent. reflexivity.
Defined.




(* ===================================================================== *)
(** * Substrings, [peek], and the text of the chunks *)
(* ===================================================================== *)

(** ** Substrings *)
Lemma substring_length (n m : nat) (s : string) :
  String.length (substring n m s) = Nat.min m (String.length s - n).
Proof.
  revert n m. induction s as [|c s IH]; intros n m.
  - destruct n, m; reflexivity.
  - destruct n as [|n].
    + destruct m as [|m]; [reflexivity|]. cbn [substring String.length].
      rewrite IH. simpl. rewrite Nat.sub_0_r. reflexivity.
    + cbn [substring String.length]. rewrite IH. reflexivity.
Qed.

Lemma substring_zero (n : nat) (s : string) : substring n 0 s = "".
Proof.
  revert n. induction s as [|c s IH]; intros [|n]; try reflexivity.
  cbn [substring]. apply IH.
Qed.

Lemma substring_append (n k m : nat) (s : string) :
  (n + k <= String.length s)%nat ->
  (substring n k s ++ substring (n + k) m s)%string = substring n (k + m) s.
Proof.
  revert n k. induction s as [|c s IH]; intros n k H.
  - simpl in H. assert (n = O) by lia. assert (k = O) by lia. subst.
    reflexivity.
  - destruct n as [|n].
    + destruct k as [|k].
      * reflexivity.
      * cbn [Nat.add substring String.append]. f_equal.
        apply (IH O k). simpl in H. lia.
    + cbn [Nat.add substring]. apply IH. simpl in H. lia.
Qed.

Lemma substring_all (s : string) : substring 0 (String.length s) s = s.
Proof.
  induction s as [|c s IH]; [reflexivity|].
  cbn [String.length substring]. now rewrite IH.
Qed.

Lemma substring_decompose (n m : nat) (s : string) :
  (n <= String.length s)%nat ->
  s = (substring 0 n s ++ substring n m s
       ++ substring (n + Nat.min m (String.length s - n))
            (String.length s) s)%string.
Proof.
  intros H.
  assert (Hm : substring n m s
               = substring n (Nat.min m (String.length s - n)) s).
  { revert n m H. induction s as [|c s IH]; intros n m H.
    - destruct n, m; reflexivity.
    - destruct n as [|n].
      + destruct m as [|m]; [reflexivity|]. cbn [String.length].
        rewrite Nat.sub_0_r.
        change (Nat.min (S m) (S (String.length s)))
          with (S (Nat.min m (String.length s))).
        cbn [substring]. f_equal.
        rewrite (IH O m) by lia. now rewrite Nat.sub_0_r.
      + cbn [substring String.length]. simpl in H.
        rewrite (IH n m) by lia. reflexivity. }
  rewrite Hm. set (k := Nat.min m (String.length s - n)).
  assert (Hk : (n + k <= String.length s)%nat) by (unfold k; lia).
  rewrite (substring_append n k (String.length s) s Hk).
  pose proof (substring_append 0 n (k + String.length s) s
                ltac:(simpl; lia)) as H0.
  cbn [Nat.add] in H0. rewrite H0.
  symmetry.
  assert (Hall : forall k, (String.length s <= k)%nat -> substring 0 k s = s).
  { clear. induction s as [|c s IH]; intros k Hk.
    - destruct k; reflexivity.
    - destruct k as [|k]; [simpl in Hk; lia|]. cbn [substring]. f_equal.
      apply IH. simpl in Hk. lia. }
  apply Hall. lia.
Qed.

Lemma append_length (a b : string) :
  String.length (a ++ b)%string = (String.length a + String.length b)%nat.
Proof.
  induction a as [|c a IH]; [reflexivity|]. simpl. now rewrite IH.
Qed.

Lemma slice_bound_range (n i : Z) : 0 <= n -> 0 <= slice_bound n i <= n.
Proof. intros H. unfold slice_bound. destruct (Z.ltb_spec i 0); lia. Qed.

(** X1.  On a string content [peek] never fails and returns a piece of the
    content: the content is some text, then what [peek] returns, then
    some text; the text before is as long as the clamped start bound
    says, and the piece as long as the distance between the clamped
    bounds, or empty when the end does not lie after the start. *)
Theorem peek_returns_part_of_content :
  forall (context_ref : dict) (content : string) (start end_ : Z),
    get_content context_ref = VStr content ->
    exists before text after,
      peek context_ref start end_ = ret (VStr text) /\
      content = (before ++ text ++ after)%string /\
      str_len before = slice_bound (str_len content) start /\
      str_len text
      = Z.max 0 (slice_bound (str_len content) end_
                 - slice_bound (str_len content) start).
Proof.
  intros context_ref content start end_ Hc.
  unfold peek. rewrite Hc. unfold str_slice.
  set (n := str_len content).
  assert (Hn : 0 <= n) by (unfold n, str_len; lia).
  pose proof (slice_bound_range n start Hn) as Ha.
  pose proof (slice_bound_range n end_ Hn) as Hb.
  set (a := slice_bound n start) in *. set (b := slice_bound n end_) in *.
  assert (Hlen : (Z.to_nat a <= String.length content)%nat)
    by (unfold n, str_len in *; lia).
  eexists. eexists. eexists. split; [reflexivity|]. split; [|split].
  - apply (substring_decompose (Z.to_nat a) (Z.to_nat (b - a)) content Hlen).
  - unfold str_len. rewrite substring_length. unfold n, str_len in *. lia.
  - unfold str_len. rewrite substring_length. unfold n, str_len in *. lia.
Qed.

(** The theorem at a sample input. *)
Lemma peek_returns_part_of_content_witness :
  get_content three_lines_context = VStr three_lines /\
  exists text,
    peek three_lines_context 2 4 = ret (VStr text) /\ str_len text = 2.
Proof.
  split; [reflexivity|].
  destruct (peek_returns_part_of_content three_lines_context three_lines 2 4
              eq_refl)
    as (before & text & after & Hrun & _ & _ & Hlen).
  exists text. split; [exact Hrun|]. rewrite Hlen. reflexivity.
Defined.

Lemma str_slice_inside (s : string) (a b : Z) :
  0 <= a <= b -> b <= str_len s ->
  str_slice s a b = substring (Z.to_nat a) (Z.to_nat (b - a)) s.
Proof.
  intros Ha Hb. unfold str_slice, slice_bound.
  destruct (Z.ltb_spec a 0); [lia|]. destruct (Z.ltb_spec b 0); [lia|].
  rewrite !Z.min_l by lia. reflexivity.
Qed.

Lemma str_slice_append (s : string) (a b c : Z) :
  0 <= a <= b -> b <= c -> c <= str_len s ->
  (str_slice s a b ++ str_slice s b c)%string = str_slice s a c.
Proof.
  intros Ha Hb Hc. rewrite !str_slice_inside by lia.
  replace (Z.to_nat b) with (Z.to_nat a + Z.to_nat (b - a))%nat by lia.
  rewrite substring_append by (unfold str_len in Hc; lia).
  f_equal. lia.
Qed.

Lemma str_slice_whole (s : string) : str_slice s 0 (str_len s) = s.
Proof.
  rewrite str_slice_inside by (unfold str_len; lia).
  unfold str_len. rewrite Z.sub_0_r, Nat2Z.id. apply substring_all.
Qed.

Lemma str_slice_empty (s : string) (a : Z) :
  0 <= a <= str_len s -> str_slice s a a = "".
Proof.
  intros H. rewrite str_slice_inside by lia. rewrite Z.sub_diag.
  apply substring_zero.
Qed.

Lemma append_nil_r (s : string) : (s ++ "")%string = s.
Proof. induction s as [|c s IH]; [reflexivity|]. simpl. now rewrite IH. Qed.

Lemma concat_cons (x : string) (l : list string) :
  String.concat "" (x :: l) = (x ++ String.concat "" l)%string.
Proof.
  destruct l as [|y l]; [simpl; now rewrite append_nil_r | reflexivity].
Qed.

Lemma chunk_tail_rebuilds (content : string) (size overlap : Z) :
  0 < size -> 0 <= overlap < size ->
  forall starts s0,
    0 <= s0 -> s0 + overlap <= str_len content ->
    starts_from (str_len content) (size - overlap) s0 starts ->
    String.concat ""
      (map (fun sp => str_slice content (fst sp + overlap) (snd sp))
         (chunk_loop (str_len content) size starts []))
    = str_slice content (s0 + overlap) (str_len content).
Proof.
  intros Hsize Hov starts. set (n := str_len content).
  induction starts as [|s rest IH]; intros s0 Hs0 Hle Hst.
  - simpl in Hst. cbn [chunk_loop map String.concat].
    replace (s0 + overlap) with n by lia. symmetry.
    apply str_slice_empty. unfold n, str_len. lia.
  - destruct Hst as (-> & Hlt & Hrest). rewrite chunk_loop_cons.
    destruct (Z.min n (s0 + size) >=? n) eqn:E.
    + assert (Hmin : Z.min n (s0 + size) = n) by lia. rewrite Hmin.
      reflexivity.
    + assert (Hmin : Z.min n (s0 + size) = s0 + size) by lia.
      rewrite Hmin. cbn [map fst snd]. rewrite concat_cons.
      rewrite (IH (s0 + (size - overlap))) by (try assumption; lia).
      replace (s0 + (size - overlap) + overlap) with (s0 + size) by lia.
      apply str_slice_append; unfold n in *; lia.
Qed.

(** X2.  The spans of [chunk_indices] lose nothing: the content is the
    text of the first span followed, for every later span, by its text
    from offset [start + overlap] on; with overlap 0 the texts of the
    spans laid end to end are the content. *)
Theorem chunks_rebuild_content :
  forall (context_ref : dict) (content : string) (size overlap : Z),
    get_content context_ref = VStr content ->
    0 < size -> 0 <= overlap < size ->
    exists spans,
      chunk_indices context_ref size overlap = ret spans /\
      match spans with
      | [] => content = ""
      | first :: rest =>
          content
          = (str_slice content (fst first) (snd first)
             ++ String.concat ""
                  (map (fun sp => str_slice content (fst sp + overlap) (snd sp))
                     rest))%string
      end.
Proof.
  intros context_ref content size overlap Hc Hsize Hov.
  unfold chunk_indices.
  destruct (size <=? 0) eqn:E1; [lia|].
  destruct (overlap <? 0) eqn:E2; [lia|].
  destruct (overlap >=? size) eqn:E3; [lia|].
  rewrite Hc. cbn [py_len bind ret].
  destruct (py_range_starts (str_len content) (size - overlap) ltac:(lia))
    as (starts & -> & Hst).
  cbn [bind ret]. eexists. split; [reflexivity|].
  set (n := str_len content) in *.
  assert (Hn : 0 <= n) by (unfold n, str_len; lia).
  destruct starts as [|s rest].
  - simpl in Hst. cbn [chunk_loop].
    assert (String.length content = O) by (unfold n, str_len in *; lia).
    destruct content; [reflexivity | discriminate].
  - destruct Hst as (-> & Hlt & Hrest). rewrite chunk_loop_cons.
    destruct (Z.min n (0 + size) >=? n) eqn:E.
    + assert (Hmin : Z.min n (0 + size) = n) by lia. rewrite Hmin.
      cbn [fst snd map String.concat]. rewrite append_nil_r.
      symmetry. apply str_slice_whole.
    + assert (Hmin : Z.min n (0 + size) = 0 + size) by lia. rewrite Hmin.
      cbn [fst snd]. subst n.
      rewrite (chunk_tail_rebuilds content size overlap Hsize Hov rest
                 (0 + (size - overlap))) by (try assumption; lia).
      replace (0 + (size - overlap) + overlap) with (0 + size) by lia.
      rewrite str_slice_append by lia.
      symmetry. apply str_slice_whole.
Qed.

(** The theorem at a sample input. *)
Lemma chunks_rebuild_content_witness :
  get_content [("content", VStr "abcdefghij")] = VStr "abcdefghij" /\
  0 < 4 /\ 0 <= 1 < 4 /\
  exists spans,
    chunk_indices [("content", VStr "abcdefghij")] 4 1 = ret spans /\
    spans <> [].
Proof.
  split; [reflexivity|]. split; [lia|]. split; [lia|].
  destruct (chunks_rebuild_content [("content", VStr "abcdefghij")]
              "abcdefghij" 4 1 eq_refl ltac:(lia) ltac:(lia))
    as (spans & Hrun & Hparts).
  exists spans. split; [exact Hrun|].
  intros Hnil. rewrite Hnil in Hparts. discriminate Hparts.
Defined.

(* ===================================================================== *)
(** * What the loops of [grep] and [find_lines] collect *)
(* ===================================================================== *)

Lemma grep_loop_firstn content line_offsets max_matches window ms :
  forall out,
    grep_loop content line_offsets max_matches window ms out
    = out ++ map (grep_hit content line_offsets window)
               (firstn (collected (max_matches - Z.of_nat (List.length out)))
                  ms).
Proof.
  unfold collected.
  induction ms as [|m rest IH]; intros out; cbn [grep_loop].
  - rewrite firstn_nil. cbn [map]. now rewrite app_nil_r.
  - rewrite length_app. cbn [List.length].
    destruct (Z.of_nat (List.length out + 1) >=? max_matches) eqn:E.
    + rewrite Z.geb_leb in E. apply Z.leb_le in E.
      replace (Z.to_nat (Z.max 1 (max_matches - Z.of_nat (List.length out))))
        with 1%nat by lia.
      reflexivity.
    + rewrite Z.geb_leb in E. apply Z.leb_gt in E.
      rewrite IH, length_app. cbn [List.length].
      replace (Z.to_nat (Z.max 1 (max_matches - Z.of_nat (List.length out))))
        with (S (Z.to_nat
                   (Z.max 1 (max_matches
                             - Z.of_nat (List.length out + 1))))) by lia.
      cbn [firstn map]. now rewrite <- app_assoc.
Qed.

(** X3.  With a string content and a pattern that compiles, [grep]
    returns the hits of the first matches of the scan, in their order,
    as many as [max_matches] says but never fewer than one when there is
    a match: the bound is tested after a hit is appended. *)
Theorem grep_returns_first_matches :
  forall re_compile (context_ref : dict) (content pattern : string)
         (max_matches window flags : Z) (p : Pattern),
    get_content context_ref = VStr content ->
    re_compile pattern flags = ret p ->
    grep re_compile context_ref pattern max_matches window flags
    = ret (map (grep_hit content (line_offsets_of content) window)
             (firstn (collected max_matches) (finditer p content))).
Proof.
  intros re_compile context_ref content pattern max_matches window flags p
         Hc Hp.
  unfold grep. rewrite Hc. cbn [str_receiver bind ret]. rewrite Hp.
  cbn [bind ret]. rewrite grep_loop_firstn. cbn [List.length app].
  now rewrite Z.sub_0_r.
Qed.

(** The theorem at a sample input. *)
Lemma grep_returns_first_matches_witness :
  get_content three_lines_context = VStr three_lines /\
  compile_literal "b" 0 = ret (PyRe.compile (PyRe.lit "b") 0) /\
  exists out,
    grep compile_literal three_lines_context "b" 0 default_window 0 = ret out
    /\ List.length out = 1%nat.
Proof.
  split; [reflexivity|]. split; [reflexivity|].
  eexists. split.
  - apply (grep_returns_first_matches compile_literal three_lines_context
             three_lines "b" 0 default_window 0
             (PyRe.compile (PyRe.lit "b") 0) eq_refl eq_refl).
  - reflexivity.
Defined.

Lemma find_lines_loop_firstn regex max_matches lines :
  forall i out,
    find_lines_loop regex max_matches i lines out
    = out ++ firstn (collected (max_matches - Z.of_nat (List.length out)))
               (filter (line_matches regex) (enumerate_from i lines)).
Proof.
  unfold collected.
  induction lines as [|line rest IH]; intros i out;
    cbn [find_lines_loop enumerate_from filter].
  - rewrite firstn_nil. now rewrite app_nil_r.
  - unfold line_matches at 1. cbn [snd].
    destruct (search regex line) as [m|].
    + rewrite length_app. cbn [List.length].
      destruct (Z.of_nat (List.length out + 1) >=? max_matches) eqn:E.
      * rewrite Z.geb_leb in E. apply Z.leb_le in E.
        replace (Z.to_nat (Z.max 1 (max_matches - Z.of_nat (List.length out))))
          with 1%nat by lia.
        reflexivity.
      * rewrite Z.geb_leb in E. apply Z.leb_gt in E.
        rewrite IH, length_app. cbn [List.length].
        replace (Z.to_nat (Z.max 1 (max_matches - Z.of_nat (List.length out))))
          with (S (Z.to_nat
                     (Z.max 1 (max_matches
                               - Z.of_nat (List.length out + 1))))) by lia.
        cbn [firstn]. now rewrite <- app_assoc.
    + apply IH.
Qed.

Lemma enumerate_from_nth (lines : list string) : forall i j line,
  In (j, line) (enumerate_from i lines) ->
  i <= j /\ nth_error lines (Z.to_nat (j - i)) = Some line.
Proof.
  induction lines as [|l rest IH]; intros i j line H; cbn [enumerate_from] in H.
  - destruct H.
  - destruct H as [H|H].
    + injection H as <- <-. rewrite Z.sub_diag. split; [lia | reflexivity].
    + apply IH in H. destruct H as (Hle & Hn). split; [lia|].
      replace (Z.to_nat (j - i)) with (S (Z.to_nat (j - (i + 1)))) by lia.
      exact Hn.
Qed.

Lemma firstn_member {A} (n : nat) (l : list A) (x : A) :
  In x (firstn n l) -> In x l.
Proof.
  revert l. induction n as [|n IH]; intros [|y l] H; simpl in *;
    try contradiction.
  destruct H as [H|H]; [now left | right; now apply IH].
Qed.

(** X4.  [find_lines] returns the first matching lines of
    [splitlines], numbered from 1, as many as [max_matches] says and at
    least one when a line matches; every pair it returns holds the whole
    line of that number, and the pattern is found in it. *)
Theorem find_lines_returns_first_matching_lines :
  forall re_compile (context_ref : dict) (content pattern : string)
         (max_matches flags : Z) (p : Pattern),
    get_content context_ref = VStr content ->
    re_compile pattern flags = ret p ->
    find_lines re_compile context_ref pattern max_matches flags
    = ret (firstn (collected max_matches)
             (filter (line_matches p)
                (enumerate_from 1 (splitlines content)))) /\
    forall out,
      find_lines re_compile context_ref pattern max_matches flags = ret out ->
      forall i line,
        In (i, line) out ->
        1 <= i /\
        nth_error (splitlines content) (Z.to_nat (i - 1)) = Some line /\
        search p line <> None.
Proof.
  intros re_compile context_ref content pattern max_matches flags p Hc Hp.
  assert (Hrun : find_lines re_compile context_ref pattern max_matches flags
                 = ret (firstn (collected max_matches)
                          (filter (line_matches p)
                             (enumerate_from 1 (splitlines content))))).
  { unfold find_lines. rewrite Hc. cbn [str_receiver bind ret]. rewrite Hp.
    cbn [bind ret]. rewrite find_lines_loop_firstn. cbn [List.length app].
    now rewrite Z.sub_0_r. }
  split; [exact Hrun|].
  intros out Hout i line Hin. rewrite Hrun in Hout. injection Hout as <-.
  apply firstn_member in Hin. apply filter_In in Hin. destruct Hin as (Hin & Hm).
  apply enumerate_from_nth in Hin. destruct Hin as (Hle & Hn).
  split; [exact Hle|]. split; [exact Hn|].
  unfold line_matches in Hm. cbn [snd] in Hm.
  destruct (search p line); [discriminate | discriminate].
Qed.

(** The theorem at a sample input. *)
Lemma find_lines_returns_first_matching_lines_witness :
  get_content three_lines_context = VStr three_lines /\
  compile_literal "c" 0 = ret (PyRe.compile (PyRe.lit "c") 0) /\
  find_lines compile_literal three_lines_context "c" 100 0
  = ret [(3, "ccc")].
Proof.
  split; [reflexivity|]. split; [reflexivity|].
  rewrite (proj1 (find_lines_returns_first_matching_lines compile_literal
                    three_lines_context three_lines "c" 100 0
                    (PyRe.compile (PyRe.lit "c") 0) eq_refl eq_refl)).
  reflexivity.
Defined.

(* ===================================================================== *)
(** * [strip], the documents of [extract_yaml_documents], [_truncate] *)
(* ===================================================================== *)

Lemma lstrip_starts_clean (s : string) : starts_clean (lstrip s).
Proof.
  induction s as [|c s IH]; cbn [lstrip]; [exact I|].
  destruct (is_space c) eqn:E; [exact IH | exact E].
Qed.

Lemma rstrip_idempotent (s : string) : rstrip (rstrip s) = rstrip s.
Proof.
  induction s as [|c s IH]; [reflexivity|]. cbn [rstrip].
  destruct (is_space c && String.eqb (rstrip s) "") eqn:E; [reflexivity|].
  cbn [rstrip]. rewrite IH, E. reflexivity.
Qed.

Lemma lstrip_clean (s : string) : starts_clean s -> lstrip s = s.
Proof. destruct s as [|c s]; [reflexivity|]. cbn. now intros ->. Qed.

Lemma rstrip_starts_clean (s : string) :
  starts_clean s -> starts_clean (rstrip s).
Proof.
  destruct s as [|c s]; [exact id|]. cbn [starts_clean rstrip].
  intros H. rewrite H. cbn [andb]. exact H.
Qed.

Lemma strip_idempotent (s : string) : strip (strip s) = strip s.
Proof.
  unfold strip.
  rewrite (lstrip_clean (rstrip (lstrip s)))
    by (apply rstrip_starts_clean, lstrip_starts_clean).
  apply rstrip_idempotent.
Qed.

Lemma list_prefix_length {A} (l : list A) (stop : Z) :
  0 <= stop -> Z.of_nat (List.length (list_prefix l stop)) <= stop.
Proof.
  intros H. unfold list_prefix, slice_bound.
  destruct (Z.ltb_spec stop 0); [lia|]. rewrite length_firstn. lia.
Qed.

Lemma list_prefix_In {A} (l : list A) (stop : Z) (x : A) :
  In x (list_prefix l stop) -> In x l.
Proof.
  unfold list_prefix. generalize (Z.to_nat (slice_bound
                                    (Z.of_nat (List.length l)) stop)).
  intros n. revert l. induction n as [|n IH]; intros [|y l] H; simpl in *;
    try contradiction.
  destruct H as [H|H]; [now left | right; now apply IH].
Qed.

(** X5.  Every document [extract_yaml_documents] returns is not empty,
    has no white space left at either end, and is the trimmed text of a
    segment between separator lines; for a [max_docs] that is not
    negative there are at most [max_docs] of them. *)
Theorem yaml_documents_are_trimmed :
  forall (context_ref : dict) (content : string) (max_docs : Z)
         (docs : list string),
    get_content context_ref = VStr content ->
    extract_yaml_documents context_ref max_docs = ret docs ->
    (forall d, In d docs ->
               d <> "" /\ strip d = d /\
               exists segment,
                 In segment
                   (split (PyRe.compile yaml_separator PyRe.MULTILINE) content)
                 /\ d = strip segment) /\
    (0 <= max_docs -> Z.of_nat (List.length docs) <= max_docs).
Proof.
  intros context_ref content max_docs docs Hc Hrun.
  unfold extract_yaml_documents in Hrun. rewrite Hc in Hrun.
  cbn [expect_str bind ret] in Hrun. injection Hrun as <-.
  unfold strip_nonempty. split.
  - intros d Hin. apply in_map_iff in Hin. destruct Hin as (seg & <- & Hin).
    apply filter_In in Hin. destruct Hin as (Hin & Hne).
    split; [|split].
    + intros H. rewrite H in Hne. discriminate.
    + apply strip_idempotent.
    + exists seg. split; [|reflexivity]. eapply list_prefix_In. exact Hin.
  - intros Hmax. rewrite length_map.
    pose proof (filter_length_le
                  (fun d => negb (String.eqb (strip d) ""))
                  (list_prefix
                     (split (PyRe.compile yaml_separator PyRe.MULTILINE)
                        content) max_docs)) as Hf.
    pose proof (list_prefix_length
                  (split (PyRe.compile yaml_separator PyRe.MULTILINE) content)
                  max_docs Hmax).
    lia.
Qed.

(** The theorem at a sample input. *)
Lemma yaml_documents_are_trimmed_witness :
  get_content [("content", VStr two_documents)] = VStr two_documents /\
  extract_yaml_documents [("content", VStr two_documents)] 2 = ret ["a"] /\
  Z.of_nat (List.length ["a"]) <= 2.
Proof.
  split; [reflexivity|]. split; [reflexivity|].
  apply (proj2 (yaml_documents_are_trimmed
                  [("content", VStr two_documents)] two_documents 2 ["a"]
                  eq_refl eq_refl)).
  lia.
Defined.

(** X6.  [_truncate] returns the empty string for a budget of zero or
    less and the text itself when it fits; a longer text is cut to its
    first [max_chars] characters and the marker naming the budget is
    put after them, so that the result is at least 31 characters longer
    than the budget. *)
Theorem truncate_keeps_a_prefix :
  forall (s : string) (max_chars : Z),
    (max_chars <= 0 -> _truncate s max_chars = "") /\
    (0 < max_chars -> str_len s <= max_chars -> _truncate s max_chars = s) /\
    (0 < max_chars < str_len s ->
     exists kept rest,
       s = (kept ++ rest)%string /\
       str_len kept = max_chars /\
       _truncate s max_chars = (kept ++ truncation_marker max_chars)%string /\
       max_chars + 31 <= str_len (_truncate s max_chars)).
Proof.
  intros s max_chars. unfold _truncate. split; [|split].
  - intros H. destruct (Z.leb_spec max_chars 0); [reflexivity | lia].
  - intros H1 H2. destruct (Z.leb_spec max_chars 0); [lia|].
    destruct (Z.leb_spec (str_len s) max_chars); [reflexivity | lia].
  - intros H. destruct (Z.leb_spec max_chars 0); [lia|].
    destruct (Z.leb_spec (str_len s) max_chars); [lia|].
    exists (str_slice s 0 max_chars), (str_slice s max_chars (str_len s)).
    assert (Hlen : str_len (str_slice s 0 max_chars) = max_chars).
    { rewrite str_slice_inside by lia. unfold str_len.
      rewrite substring_length. unfold str_len in H. lia. }
    split; [|split; [|split]].
    + rewrite str_slice_append by lia. symmetry. apply str_slice_whole.
    + exact Hlen.
    + reflexivity.
    + change (String LF ("... [truncated to " ++ Z_to_string max_chars
                          ++ " chars] ..." ++ String LF ""))%string
        with (truncation_marker max_chars).
      unfold str_len in *. rewrite append_length.
      unfold truncation_marker. cbn [String.length].
      rewrite !append_length. cbn [String.length]. lia.
Qed.

(** The theorem at a sample input. *)
Lemma truncate_keeps_a_prefix_witness :
  0 < 5 < str_len "hello world" /\
  exists kept rest,
    "hello world" = (kept ++ rest)%string /\ str_len kept = 5.
Proof.
  assert (H : 0 < 5 < str_len "hello world") by (cbn; lia).
  split; [exact H|].
  destruct (proj2 (proj2 (truncate_keeps_a_prefix "hello world" 5)) H)
    as (kept & rest & Hsplit & Hlen & _).
  exists kept, rest. split; assumption.
Defined.

(* ===================================================================== *)
(** * The state file *)
(* ===================================================================== *)

Lemma tmp_path_differs (path : string) : (path ++ ".tmp")%string <> path.
Proof.
  intros H. apply (f_equal String.length) in H.
  rewrite append_length in H. simpl in H. lia.
Qed.

(** A save that raises leaves the state path as it was and the temporary
    file half-written. *)
Lemma save_failure (state : dict) (path : string) (fs saved : filesystem)
  (e : exn) :
  _save_state state path fs = (saved, inl e) ->
  pickle_dumps (VDict state) = raise e /\
  saved = fs_write fs (path ++ ".tmp") PartialFile /\
  saved path = fs path /\
  saved (path ++ ".tmp")%string = Some PartialFile.
Proof.
  unfold _save_state. destruct (pickle_dumps (VDict state)) as [e'|b];
    [|discriminate].
  intros H. injection H as <- <-. split; [reflexivity|].
  split; [reflexivity|]. unfold fs_write. rewrite String.eqb_refl.
  split; [|reflexivity].
  destruct (String.eqb_spec path (path ++ ".tmp")) as [E|]; [|reflexivity].
  exfalso. symmetry in E. now apply tmp_path_differs in E.
Qed.

(** X7.  A state that [pickle] can dump and load back is stored by
    [_save_state] and returned unchanged by [_load_state] on the files
    the save leaves. *)
Theorem save_then_load_round_trip :
  forall (state : dict) (state_path : string) (fs : filesystem),
    dumps_ok (VDict state) = true ->
    loads_ok (VDict state) = true ->
    exists saved,
      _save_state state state_path fs = (saved, inr tt) /\
      _load_state state_path saved = ret state.
Proof.
  intros state state_path fs Hd Hl. unfold _save_state.
  rewrite (pickle_dumps_ok _ Hd). cbn [ret]. eexists. split; [reflexivity|].
  unfold _load_state, fs_replace, fs_write. rewrite !String.eqb_refl.
  unfold pickle_loads. rewrite Hl. reflexivity.
Qed.

(** The theorem at a sample input. *)
Lemma save_then_load_round_trip_witness :
  dumps_ok (VDict demo_state) = true /\
  loads_ok (VDict demo_state) = true /\
  exists saved,
    _save_state demo_state "state.pkl" (fun _ => None) = (saved, inr tt) /\
    _load_state "state.pkl" saved = ret demo_state.
Proof.
  split; [reflexivity|]. split; [reflexivity|].
  apply (save_then_load_round_trip demo_state "state.pkl" (fun _ => None)
           eq_refl eq_refl).
Defined.

(** X8.  [_save_state] leaves every path but the state path and the
    state path with [.tmp] appended as it was; when the dump raises, the
    state path still holds what it held and the temporary file is left
    half-written; when it succeeds, the temporary file is gone and the
    state path holds the state. *)
Theorem save_touches_two_paths :
  forall (state : dict) (state_path : string) (fs saved : filesystem)
         (r : result unit),
    _save_state state state_path fs = (saved, r) ->
    (forall q, q <> state_path -> q <> (state_path ++ ".tmp")%string ->
               saved q = fs q) /\
    (forall e, r = inl e ->
               saved state_path = fs state_path /\
               saved (state_path ++ ".tmp")%string = Some PartialFile) /\
    (r = inr tt ->
     saved (state_path ++ ".tmp")%string = None /\
     stored_state saved state_path = Some state).
Proof.
  intros state state_path fs saved r H. unfold _save_state in H.
  pose proof (tmp_path_differs state_path) as Hneq.
  destruct (pickle_dumps (VDict state)) as [e|b] eqn:Hd;
    injection H as <- <-.
  - split; [|split].
    + intros q H1 H2. unfold fs_write.
      destruct (String.eqb_spec q (state_path ++ ".tmp")); congruence.
    + intros e' _. unfold fs_write. rewrite String.eqb_refl.
      destruct (String.eqb_spec state_path (state_path ++ ".tmp"));
        [congruence | tauto].
    + discriminate.
  - split; [|split].
    + intros q H1 H2. unfold fs_replace, fs_write.
      destruct (String.eqb_spec q state_path); [congruence|].
      destruct (String.eqb_spec q (state_path ++ ".tmp")); congruence.
    + intros e H. discriminate.
    + intros _. unfold stored_state, fs_replace, fs_write.
      rewrite !String.eqb_refl.
      destruct (String.eqb_spec (state_path ++ ".tmp") state_path);
        [congruence|].
      split; [reflexivity|].
      apply pickle_dumps_ret in Hd. destruct Hd as (-> & _). reflexivity.
Qed.

(** The theorem at a sample input. *)
Lemma save_touches_two_paths_witness :
  _save_state demo_state "state.pkl" demo_fs
  = (fst (_save_state demo_state "state.pkl" demo_fs), inr tt) /\
  fst (_save_state demo_state "state.pkl" demo_fs) "notes.txt"
  = demo_fs "notes.txt".
Proof.
  split; [reflexivity|].
  apply (proj1 (save_touches_two_paths demo_state "state.pkl" demo_fs
                  (fst (_save_state demo_state "state.pkl" demo_fs))
                  (inr tt) eq_refl));
    discriminate.
Defined.

Lemma stored_state_load (fs : filesystem) (state_path : string) (state : dict) :
  stored_state fs state_path = Some state ->
  _load_state state_path fs
  = if loads_ok (VDict state) then ret state
    else raise (OtherException "ModuleNotFoundError"
                  "cannot resolve reference").
Proof.
  unfold stored_state, _load_state.
  destruct (fs state_path) as [[[v]| |]|]; try discriminate.
  destruct v; try discriminate. intros H. injection H as ->.
  unfold pickle_loads. destruct (loads_ok (VDict state)); reflexivity.
Qed.

Lemma dict_set_same (d : dict) (k : string) (v : value) :
  dict_lookup d k = Some v -> dict_set d k v = d.
Proof.
  induction d as [|[k0 v0] d IH]; cbn [dict_lookup dict_set]; [discriminate|].
  destruct (String.eqb k k0).
  - intros H. now injection H as ->.
  - intros H. now rewrite IH.
Qed.

Lemma load_session_eq (state_path : string) (fs : filesystem) :
  load_session state_path fs
  = (loaded <- _load_state state_path fs ;;
     match dict_lookup loaded "context" with
     | Some (VDict ctx) =>
         if dict_contains ctx "content"
         then ret (mkSession
                     (dict_set
                        (dict_set loaded "buffers" (VList (buffers_of loaded)))
                        "globals" (VDict (globals_of loaded)))
                     ctx (buffers_of loaded) (globals_of loaded))
         else raise missing_context
     | _ => raise missing_context
     end).
Proof.
  unfold load_session.
  destruct (_load_state state_path fs) as [e|loaded]; [reflexivity|].
  cbn [bind].
  destruct (dict_lookup loaded "context") as [[]|]; try reflexivity.
  destruct (dict_contains d "content"); [|reflexivity]. cbn [negb].
  unfold dict_setdefault, buffers_of, globals_of.
  destruct (dict_lookup loaded "buffers") as [vb|] eqn:Hb;
    [destruct vb; try rewrite (dict_set_same _ _ _ Hb)|];
    rewrite ?dict_lookup_set; cbn [String.eqb Ascii.eqb Bool.eqb];
    (destruct (dict_lookup loaded "globals") as [vg|] eqn:Hg;
     [destruct vg|]);
    try reflexivity.
  all: match goal with
       | |- context [dict_set ?st "globals" ?v] =>
           rewrite (dict_set_same st "globals" v)
             by (rewrite ?dict_lookup_set;
                 cbn [String.eqb Ascii.eqb Bool.eqb]; exact Hg)
       end; reflexivity.
Qed.

(* ===================================================================== *)
(** * The [exec] command, from loading to the next run *)
(* ===================================================================== *)




Ltac reconcile_cases env :=
  unfold reconcile; cbv zeta;
  destruct (dict_get env "buffers" VNone);
  destruct (dict_get env "context" VNone);
  try match goal with
    | |- context [dict_contains ?d "content"] =>
        destruct (dict_contains d "content")
    end;
  rewrite ?dict_lookup_set.

Lemma reconcile_lookup_buffers (state env : dict) :
  dict_lookup (reconcile state env) "buffers"
  = match dict_get env "buffers" VNone with
    | VList b => Some (VList b)
    | _ => dict_lookup state "buffers"
    end.
Proof. reconcile_cases env; reflexivity. Qed.

Lemma reconcile_lookup_context (state env : dict) :
  dict_lookup (reconcile state env) "context"
  = match dict_get env "context" VNone with
    | VDict d => if dict_contains d "content" then Some (VDict d)
                 else dict_lookup state "context"
    | _ => dict_lookup state "context"
    end.
Proof. reconcile_cases env; reflexivity. Qed.

Lemma reconcile_lookup_other (state env : dict) (k : string) :
  k <> "context" -> k <> "buffers" ->
  dict_lookup (reconcile state env) k = dict_lookup state k.
Proof.
  intros Hc Hb. reconcile_cases env;
    repeat match goal with
      | |- context [String.eqb k ?x] =>
          destruct (String.eqb_spec k x); [congruence|]
      end; reflexivity.
Qed.

Lemma state_after_run_lookup (state : dict) (r : ExecResult) (k : string) :
  dict_lookup (state_after_run state r) k
  = if String.eqb k "buffers" then Some (VList (x_buffers r))
    else if String.eqb k "context" then Some (VDict (x_context r))
    else dict_lookup state k.
Proof. unfold state_after_run. now rewrite !dict_lookup_set. Qed.

(** The state a successful command stores, entry by entry. *)
Lemma stored_entries py_exec format_exc args stdin fs s :
  load_session (a_state args) fs = ret s ->
  let r := py_exec (code_of args stdin)
             (build_env (s_persisted s) (s_ctx s) (s_buffers s)) in
  let outcome := cmd_exec py_exec format_exc args stdin fs in
  o_status outcome = ret 0 ->
  exists state kept dropped,
    _filter_pickleable (persist_candidates (x_env r)) = ret (kept, dropped) /\
    stored_state (o_fs outcome) (a_state args) = Some state /\
    dict_lookup state "context" = Some (reconciled_context (x_env r) r) /\
    dict_lookup state "buffers" = Some (reconciled_buffers (x_env r) r) /\
    dict_lookup state "globals" = Some (VDict kept) /\
    (forall k, k <> "context" -> k <> "buffers" -> k <> "globals" ->
               dict_lookup state k = dict_lookup (s_state s) k).
Proof.
  intros Hload r outcome Hok.
  destruct (cmd_exec_success py_exec format_exc args stdin fs s Hload Hok)
    as (kept & dropped & captured & Hfilter & Hstored & _).
  fold r in Hfilter, Hstored. fold outcome in Hstored.
  eexists. exists kept, dropped. split; [exact Hfilter|].
  split; [exact Hstored|].
  split; [|split; [|split]].
  - rewrite dict_lookup_set, reconcile_lookup_context.
    cbn [String.eqb Ascii.eqb Bool.eqb].
    unfold reconciled_context.
    destruct (dict_get (x_env r) "context" VNone);
      rewrite ?state_after_run_lookup; try reflexivity.
    destruct (dict_contains d "content"); reflexivity.
  - rewrite dict_lookup_set, reconcile_lookup_buffers.
    cbn [String.eqb Ascii.eqb Bool.eqb].
    unfold reconciled_buffers.
    destruct (dict_get (x_env r) "buffers" VNone);
      rewrite ?state_after_run_lookup; reflexivity.
  - now rewrite dict_lookup_set.
  - intros k Hc Hb Hg. rewrite dict_lookup_set.
    destruct (String.eqb_spec k "globals"); [congruence|].
    rewrite reconcile_lookup_other by assumption.
    rewrite state_after_run_lookup.
    destruct (String.eqb_spec k "buffers"); [congruence|].
    destruct (String.eqb_spec k "context"); [congruence|]. reflexivity.
Qed.




Lemma build_env_lookup (persisted ctx : dict) (buffers : list value)
  (k : string) :
  dict_lookup (build_env persisted ctx buffers) k
  = if existsb (String.eqb k) helper_names then Some (VHelper k)
    else if String.eqb k "buffers" then Some (VList buffers)
    else if String.eqb k "content"
    then Some (dict_get ctx "content" (VStr ""))
    else if String.eqb k "context" then Some (VDict ctx)
    else dict_lookup persisted k.
Proof.
  unfold build_env, dict_update, _make_helpers, helper_names.
  cbn [map fold_left fst snd existsb]. rewrite !dict_lookup_set.
  repeat match goal with
    | |- context [String.eqb k ?x] =>
        destruct (String.eqb_spec k x); [subst k; reflexivity|]
    end.
  reflexivity.
Qed.

Lemma dict_set_keys (d : dict) (k : string) (v : value) :
  dict_keys (dict_set d k v)
  = if dict_contains d k then dict_keys d else dict_keys d ++ [k].
Proof.
  unfold dict_contains.
  induction d as [|[k0 v0] d IH]; cbn [dict_set dict_lookup dict_keys map fst].
  - reflexivity.
  - destruct (String.eqb k k0); [reflexivity|].
    cbn [dict_keys map fst]. fold (dict_keys (dict_set d k v)).
    rewrite IH. fold (dict_keys d).
    destruct (dict_lookup d k); reflexivity.
Qed.

Lemma dict_set_wf (d : dict) (k : string) (v : value) :
  dict_wf d -> dict_wf (dict_set d k v).
Proof.
  unfold dict_wf. intros H. rewrite dict_set_keys.
  destruct (dict_contains d k) eqn:E; [exact H|].
  apply NoDup_app; [exact H | repeat constructor; intros [] |].
  intros x Hx [Hk|[]]. subst x. unfold dict_contains in E.
  destruct (dict_lookup d k) eqn:El; [discriminate|].
  now apply dict_lookup_None in El.
Qed.

Lemma build_env_wf (persisted ctx : dict) (buffers : list value) :
  dict_wf persisted -> dict_wf (build_env persisted ctx buffers).
Proof.
  intros H. unfold build_env, dict_update, _make_helpers, helper_names.
  cbn [map fold_left fst snd]. repeat apply dict_set_wf. exact H.
Qed.

Lemma demo_persisted_wf : dict_wf (s_persisted demo_session).
Proof. repeat constructor; simpl; intuition discriminate. Qed.

Lemma demo_quiet_env_wf :
  dict_wf (x_env (demo_exec_quiet (code_of demo_args "")
                    (build_env (s_persisted demo_session)
                       (s_ctx demo_session) (s_buffers demo_session)))).
Proof.
  unfold demo_exec_quiet, demo_exec. cbn [x_env].
  do 4 apply dict_set_wf. apply build_env_wf. apply demo_persisted_wf.
Qed.

(** X10.  In the environment [cmd_exec] builds, every helper name is
    bound to its helper and [context], [content] and [buffers] to the
    session's context, the content of that context and the session's
    buffers, whatever the persisted variables bind these names to; every
    other name has the value the persisted variables give it. *)
Theorem build_env_injects_over_persisted :
  forall (persisted ctx : dict) (buffers : list value),
    let env := build_env persisted ctx buffers in
    (forall name, In name helper_names ->
                  dict_lookup env name = Some (VHelper name)) /\
    dict_lookup env "context" = Some (VDict ctx) /\
    dict_lookup env "content" = Some (dict_get ctx "content" (VStr "")) /\
    dict_lookup env "buffers" = Some (VList buffers) /\
    (forall k, is_injected k = false ->
               dict_lookup env k = dict_lookup persisted k).
Proof.
  intros persisted ctx buffers env. unfold env.
  split; [|split; [|split; [|split]]].
  - intros name Hin. rewrite build_env_lookup.
    assert (H : existsb (String.eqb name) helper_names = true).
    { apply existsb_exists. exists name. split; [exact Hin|].
      apply String.eqb_refl. }
    now rewrite H.
  - now rewrite build_env_lookup.
  - now rewrite build_env_lookup.
  - now rewrite build_env_lookup.
  - intros k Hk. rewrite build_env_lookup.
    unfold is_injected, injected_keys in Hk.
    rewrite existsb_app in Hk. apply orb_false_iff in Hk.
    destruct Hk as (H1 & H2).
    change (dict_keys _make_helpers) with helper_names in H2. rewrite H2.
    cbn [existsb] in H1.
    repeat (apply orb_false_iff in H1; destruct H1 as (? & H1)).
    repeat match goal with
      | H : String.eqb k ?x = false |- _ => rewrite H; clear H
      end.
    reflexivity.
Qed.

(** The theorem at a sample input. *)
Lemma build_env_injects_over_persisted_witness :
  In "grep" helper_names /\
  dict_lookup (build_env [("grep", VInt 1)] demo_context []) "grep"
  = Some (VHelper "grep").
Proof.
  assert (H : In "grep" helper_names) by (simpl; tauto).
  split; [exact H|].
  apply (proj1 (build_env_injects_over_persisted [("grep", VInt 1)]
                  demo_context []) "grep" H).
Defined.

(** X11.  After a command that returned 0 the state file holds, as
    [context], the record the environment binds [context] to when that is
    a dict with a [content] entry, and otherwise the session's own
    context object as the run left it; as [buffers], the list the
    environment binds [buffers] to, and otherwise the session's own
    buffers; every entry other than [context], [buffers] and [globals] is
    as it was loaded. *)
Theorem exec_reconciles_session :
  forall py_exec format_exc (args : ExecArgs) (stdin : string)
         (fs : filesystem) (s : Session),
    load_session (a_state args) fs = ret s ->
    let r := py_exec (code_of args stdin)
               (build_env (s_persisted s) (s_ctx s) (s_buffers s)) in
    let outcome := cmd_exec py_exec format_exc args stdin fs in
    o_status outcome = ret 0 ->
    exists state loaded,
      stored_state (o_fs outcome) (a_state args) = Some state /\
      _load_state (a_state args) fs = ret loaded /\
      dict_lookup state "context" = Some (reconciled_context (x_env r) r) /\
      dict_lookup state "buffers" = Some (reconciled_buffers (x_env r) r) /\
      (forall k, k <> "context" -> k <> "buffers" -> k <> "globals" ->
                 dict_lookup state k = dict_lookup loaded k).
Proof.
  intros py_exec format_exc args stdin fs s Hload r outcome Hok.
  destruct (stored_entries py_exec format_exc args stdin fs s Hload Hok)
    as (state & kept & dropped & _ & Hstored & Hctx & Hbuf & _ & Hother).
  pose proof Hload as Heq. rewrite load_session_eq in Heq.
  destruct (_load_state (a_state args) fs) as [e|loaded]; [discriminate|].
  cbn [bind] in Heq.
  destruct (dict_lookup loaded "context") as [[]|]; try discriminate.
  destruct (dict_contains d "content"); [|discriminate].
  injection Heq as <-. cbn [s_state] in Hother.
  exists state, loaded. split; [exact Hstored|]. split; [reflexivity|].
  split; [exact Hctx|]. split; [exact Hbuf|].
  intros k Hc Hb Hg. rewrite (Hother k Hc Hb Hg), !dict_lookup_set.
  destruct (String.eqb_spec k "globals"); [congruence|].
  destruct (String.eqb_spec k "buffers"); [congruence|]. reflexivity.
Qed.

(** The theorem at a sample input. *)
Lemma exec_reconciles_session_witness :
  load_session (a_state demo_args) demo_fs = ret demo_session /\
  o_status (cmd_exec demo_exec_quiet demo_format_exc demo_args "" demo_fs)
    = ret 0 /\
  exists state,
    stored_state
      (o_fs (cmd_exec demo_exec_quiet demo_format_exc demo_args "" demo_fs))
      (a_state demo_args) = Some state /\
    dict_lookup state "version" = Some (VInt 1).
Proof.
  split; [reflexivity|]. split; [reflexivity|].
  destruct (exec_reconciles_session demo_exec_quiet demo_format_exc demo_args
              "" demo_fs demo_session eq_refl eq_refl)
    as (state & loaded & Hstored & Hloaded & _ & _ & Hother).
  exists state. split; [exact Hstored|].
  rewrite Hother by discriminate.
  vm_compute in Hloaded. injection Hloaded as <-. reflexivity.
Defined.

(** X12.  After a command that returned 0 the [globals] of the state
    file are exactly the bindings of the final environment that are not
    injected names and whose values [pickle] dumps: a variable of an
    earlier run that the code deleted is gone, and no helper,
    [context], [content], [buffers] or [__builtins__] is stored. *)
Theorem exec_persists_exactly_the_dumpable_bindings :
  forall py_exec format_exc (args : ExecArgs) (stdin : string)
         (fs : filesystem) (s : Session),
    load_session (a_state args) fs = ret s ->
    let r := py_exec (code_of args stdin)
               (build_env (s_persisted s) (s_ctx s) (s_buffers s)) in
    let outcome := cmd_exec py_exec format_exc args stdin fs in
    dict_wf (x_env r) ->
    o_status outcome = ret 0 ->
    exists state persisted,
      stored_state (o_fs outcome) (a_state args) = Some state /\
      dict_lookup state "globals" = Some (VDict persisted) /\
      forall k,
        dict_lookup persisted k
        = match dict_lookup (x_env r) k with
          | Some v => if is_injected k then None
                      else if dumps_ok v then Some v else None
          | None => None
          end.
Proof.
  intros py_exec format_exc args stdin fs s Hload r outcome Hwf Hok.
  destruct (stored_entries py_exec format_exc args stdin fs s Hload Hok)
    as (state & kept & dropped & Hfilter & Hstored & _ & _ & Hg & _).
  fold r in Hfilter.
  assert (Hwf' : dict_wf (persist_candidates (x_env r)))
    by (apply filter_wf; exact Hwf).
  destruct (filter_pickleable_ret _ _ _ Hwf' Hfilter) as [-> ->].
  eexists. eexists. split; [exact Hstored|]. split; [exact Hg|].
  intros k. rewrite dict_lookup_filter by exact Hwf'.
  unfold persist_candidates. rewrite dict_lookup_filter by exact Hwf.
  destruct (dict_lookup (x_env r) k) as [v|]; [|reflexivity].
  cbn [fst]. destruct (is_injected k); [reflexivity|]. cbn [negb].
  unfold keeps. cbn [snd]. reflexivity.
Qed.

(** The theorem at a sample input. *)
Lemma exec_persists_exactly_the_dumpable_bindings_witness :
  load_session (a_state demo_args) demo_fs = ret demo_session /\
  o_status (cmd_exec demo_exec_quiet demo_format_exc demo_args "" demo_fs)
    = ret 0 /\
  exists state persisted,
    stored_state
      (o_fs (cmd_exec demo_exec_quiet demo_format_exc demo_args "" demo_fs))
      (a_state demo_args) = Some state /\
    dict_lookup state "globals" = Some (VDict persisted) /\
    dict_lookup persisted "seen" = Some (VInt 4) /\
    dict_lookup persisted "handle" = None /\
    dict_lookup persisted "grep" = None.
Proof.
  split; [reflexivity|]. split; [reflexivity|].
  destruct (exec_persists_exactly_the_dumpable_bindings demo_exec_quiet
              demo_format_exc demo_args "" demo_fs demo_session eq_refl
              demo_quiet_env_wf eq_refl)
    as (state & persisted & Hstored & Hglobals & Hvars).
  exists state, persisted. split; [exact Hstored|]. split; [exact Hglobals|].
  rewrite !Hvars. repeat split.
Defined.

(** X13.  When the code ends with an exception that is no [Exception],
    such as [SystemExit], the exception leaves [main]: the files are as
    they were, so nothing of the run is saved, and nothing is written to
    the streams. *)
Theorem exec_loses_run_on_base_exception :
  forall py_exec format_exc (args : ExecArgs) (stdin : string)
         (fs : filesystem) (s : Session) (e : exn),
    load_session (a_state args) fs = ret s ->
    x_raised (py_exec (code_of args stdin)
                (build_env (s_persisted s) (s_ctx s) (s_buffers s)))
      = Some e ->
    is_Exception e = false ->
    main_exec py_exec format_exc args stdin fs
    = mkOutcome fs "" "" (raise e).
Proof.
  intros py_exec format_exc args stdin fs s e Hload Hr He.
  unfold main_exec. rewrite (cmd_exec_loaded _ _ _ _ _ _ Hload).
  cbv zeta. rewrite Hr, He. unfold escaped, main_handler. cbn [o_status].
  destruct e; try discriminate; reflexivity.
Qed.

(** The theorem at a sample input. *)
Lemma exec_loses_run_on_base_exception_witness :
  load_session (a_state demo_args) demo_fs = ret demo_session /\
  is_Exception (SystemExit 1) = false /\
  main_exec demo_exec_exit demo_format_exc demo_args "" demo_fs
  = mkOutcome demo_fs "" "" (raise (SystemExit 1)).
Proof.
  split; [reflexivity|]. split; [reflexivity|].
  apply (exec_loses_run_on_base_exception demo_exec_exit demo_format_exc
           demo_args "" demo_fs demo_session (SystemExit 1)
           eq_refl eq_refl eq_refl).
Defined.

Lemma dumps_ok_entry (d : dict) (k : string) (v : value) :
  dict_lookup d k = Some v -> dumps_ok v = false -> dumps_ok (VDict d) = false.
Proof.
  rewrite dumps_ok_dict.
  induction d as [|[k0 v0] d IH]; cbn [dict_lookup forallb]; [discriminate|].
  destruct (String.eqb k k0).
  - intros H Hv. injection H as ->. cbn [snd]. now rewrite Hv.
  - intros H Hv. rewrite (IH H Hv). apply andb_false_r.
Qed.

(** X14.  When the code leaves in [context] a record that [pickle]
    cannot dump, and nothing ends the command before the save, the
    exception that [pickle.dump] raises on the state leaves the command:
    the state file still holds the earlier session, a half-written
    temporary file is left beside it, and the captured output never
    reaches the streams. *)
Theorem exec_save_failure_loses_run :
  forall py_exec format_exc (args : ExecArgs) (stdin : string)
         (fs : filesystem) (s : Session) (d : dict),
    load_session (a_state args) fs = ret s ->
    let r := py_exec (code_of args stdin)
               (build_env (s_persisted s) (s_ctx s) (s_buffers s)) in
    let outcome := cmd_exec py_exec format_exc args stdin fs in
    (forall e, x_raised r = Some e ->
               is_Exception e = true /\ x_stderr_closed r = false) ->
    dumps_softly (persist_candidates (x_env r)) ->
    dict_lookup (x_env r) "context" = Some (VDict d) ->
    dict_contains d "content" = true ->
    dumps_ok (VDict d) = false ->
    (exists e state,
        o_status outcome = raise e /\
        dict_lookup state "context" = Some (VDict d) /\
        pickle_dumps (VDict state) = raise e) /\
    o_fs outcome (a_state args) = fs (a_state args) /\
    o_fs outcome (a_state args ++ ".tmp")%string = Some PartialFile /\
    o_stdout outcome = "" /\ o_stderr outcome = "".
Proof.
  intros py_exec format_exc args stdin fs s d Hload r outcome Hexc Hsoft Hctx
         Hcontent Hbad.
  assert (Hfin : forall err oc ec,
             let o := finish_exec args fs (state_after_run (s_state s) r)
                        (x_env r) (x_stdout r) err oc ec in
             (exists e state,
                 o_status o = raise e /\
                 dict_lookup state "context" = Some (VDict d) /\
                 pickle_dumps (VDict state) = raise e) /\
             o_fs o (a_state args) = fs (a_state args) /\
             o_fs o (a_state args ++ ".tmp")%string = Some PartialFile /\
             o_stdout o = "" /\ o_stderr o = "").
  { intros err oc ec o. subst o.
    destruct (filter_loop_soft _ Hsoft [] []) as ([kept dropped] & Hf).
    rewrite (finish_exec_ret _ _ _ _ _ _ _ _ _ _ Hf).
    set (state := dict_set (reconcile (state_after_run (s_state s) r) (x_env r))
                    "globals" (VDict kept)).
    assert (Hl : dict_lookup state "context" = Some (VDict d)).
    { unfold state. rewrite dict_lookup_set. cbn [String.eqb Ascii.eqb Bool.eqb].
      rewrite reconcile_lookup_context. unfold dict_get.
      now rewrite Hctx, Hcontent. }
    pose proof (dumps_ok_entry _ _ _ Hl Hbad) as Hstate.
    apply dumps_raises in Hstate. destruct Hstate as (e & He).
    destruct (_save_state state (a_state args) fs) as [saved [e'|[]]] eqn:Hsave.
    - apply save_failure in Hsave. destruct Hsave as (He' & _ & Hpath & Htmp).
      cbn [escaped o_status o_fs o_stdout o_stderr].
      split; [exists e', state; now repeat split|]. now repeat split.
    - exfalso. unfold _save_state in Hsave. rewrite He in Hsave.
      discriminate. }
  unfold outcome. rewrite (cmd_exec_loaded _ _ _ _ _ _ Hload). cbv zeta.
  fold r. destruct (x_raised r) as [e|] eqn:Hr; [|apply Hfin].
  destruct (Hexc e eq_refl) as (-> & ->). apply Hfin.
Qed.

(** The theorem at a run that puts an open file in the context: the save
    raises [TypeError]. *)
Lemma exec_save_failure_loses_run_witness :
  load_session (a_state demo_args) demo_fs = ret demo_session /\
  dumps_ok (VDict (dict_set demo_context "handle" open_file)) = false /\
  o_status (cmd_exec demo_exec_handle demo_format_exc demo_args "" demo_fs)
    = raise (TypeError "cannot pickle '_io.TextIOWrapper' object") /\
  o_stdout (cmd_exec demo_exec_handle demo_format_exc demo_args "" demo_fs)
    = "" /\
  stored_state
    (o_fs (cmd_exec demo_exec_handle demo_format_exc demo_args "" demo_fs))
    (a_state demo_args) = Some demo_state.
Proof.
  split; [reflexivity|]. split; [reflexivity|]. split; [reflexivity|].
  destruct (exec_save_failure_loses_run demo_exec_handle demo_format_exc
              demo_args "" demo_fs demo_session
              (dict_set demo_context "handle" open_file)
              eq_refl
              ltac:(intros e H; vm_compute in H; discriminate H)
              ltac:(intros k v e Hin Hd; vm_compute in Hin;
                    destruct Hin as [H|[]]; injection H as <- <-;
                    vm_compute in Hd; discriminate Hd)
              eq_refl eq_refl eq_refl)
    as (_ & Hkept & _ & Hout & _).
  split; [exact Hout|].
  unfold stored_state. rewrite Hkept. reflexivity.
Defined.

(** X15.  When a command returned 0 and the session it stored loads
    again, the next run starts from what this run left: its context and
    buffers are the reconciled ones, and every variable of the final
    environment that is not an injected name and whose value [pickle]
    dumps is bound to that value in the environment of the next run. *)
Theorem variables_survive_to_the_next_run :
  forall py_exec format_exc (args : ExecArgs) (stdin : string)
         (fs : filesystem) (s next : Session) (k : string) (v : value),
    load_session (a_state args) fs = ret s ->
    let r := py_exec (code_of args stdin)
               (build_env (s_persisted s) (s_ctx s) (s_buffers s)) in
    let outcome := cmd_exec py_exec format_exc args stdin fs in
    dict_wf (x_env r) ->
    o_status outcome = ret 0 ->
    load_session (a_state args) (o_fs outcome) = ret next ->
    VDict (s_ctx next) = reconciled_context (x_env r) r /\
    VList (s_buffers next) = reconciled_buffers (x_env r) r /\
    (dict_lookup (x_env r) k = Some v ->
     is_injected k = false ->
     dumps_ok v = true ->
     dict_lookup
       (build_env (s_persisted next) (s_ctx next) (s_buffers next)) k
     = Some v).
Proof.
  intros py_exec format_exc args stdin fs s next k v Hload r outcome Hwf Hok
         Hnext.
  destruct (stored_entries py_exec format_exc args stdin fs s Hload Hok)
    as (state & kept & dropped & Hfilter & Hstored & Hctx & Hbuf & Hg & _).
  fold r in Hfilter, Hctx, Hbuf. fold outcome in Hstored.
  rewrite load_session_eq, (stored_state_load _ _ _ Hstored) in Hnext.
  destruct (loads_ok (VDict state)); [|discriminate].
  cbn [bind ret] in Hnext. rewrite Hctx in Hnext.
  destruct (reconciled_context (x_env r) r) as [| | | | |c| |] eqn:Hrc;
    try discriminate.
  destruct (dict_contains c "content"); [|discriminate].
  injection Hnext as <-. cbn [s_ctx s_buffers s_persisted].
  split; [reflexivity|]. split.
  - unfold buffers_of. rewrite Hbuf. unfold reconciled_buffers.
    destruct (dict_get (x_env r) "buffers" VNone); reflexivity.
  - intros Hk Hinj Hv.
    rewrite build_env_lookup.
    unfold is_injected, injected_keys in Hinj.
    rewrite existsb_app in Hinj. apply orb_false_iff in Hinj.
    destruct Hinj as (H1 & H2).
    change (dict_keys _make_helpers) with helper_names in H2. rewrite H2.
    cbn [existsb] in H1.
    repeat (apply orb_false_iff in H1; destruct H1 as (? & H1)).
    repeat match goal with
      | H : String.eqb k ?x = false |- _ => rewrite H
      end.
    unfold globals_of. rewrite Hg.
    assert (Hwf' : dict_wf (persist_candidates (x_env r)))
      by (apply filter_wf; exact Hwf).
    destruct (filter_pickleable_ret _ _ _ Hwf' Hfilter) as [-> _].
    rewrite dict_lookup_filter by exact Hwf'.
    unfold persist_candidates. rewrite dict_lookup_filter by exact Hwf.
    rewrite Hk. cbn [fst].
    assert (Hi : is_injected k = false).
    { unfold is_injected, injected_keys. rewrite existsb_app.
      change (dict_keys _make_helpers) with helper_names. rewrite H2.
      cbn [existsb].
      repeat match goal with
        | H : String.eqb k ?x = false |- _ => rewrite H; clear H
        end.
      reflexivity. }
    rewrite Hi. cbn [negb]. unfold keeps. cbn [snd]. now rewrite Hv.
Qed.

(** The theorem at a sample input. *)
Lemma variables_survive_to_the_next_run_witness :
  load_session (a_state demo_args) demo_fs = ret demo_session /\
  load_session (a_state demo_args)
    (o_fs (cmd_exec demo_exec_quiet demo_format_exc demo_args "" demo_fs))
    = ret demo_next /\
  dict_lookup
    (build_env (s_persisted demo_next) (s_ctx demo_next)
       (s_buffers demo_next)) "seen" = Some (VInt 4).
Proof.
  split; [reflexivity|].
  assert (Hnext : load_session (a_state demo_args)
                    (o_fs (cmd_exec demo_exec_quiet demo_format_exc demo_args
                             "" demo_fs)) = ret demo_next)
    by (vm_compute; reflexivity).
  split; [exact Hnext|].
  destruct (variables_survive_to_the_next_run demo_exec_quiet demo_format_exc
              demo_args "" demo_fs demo_session demo_next "seen" (VInt 4)
              eq_refl demo_quiet_env_wf eq_refl Hnext)
    as (_ & _ & Hvar).
  apply Hvar; reflexivity.
Defined.

(** X16.  A command that returns 0 after the code removed [content]
    from the session's context object, with no [context] binding left
    that has a [content] entry, has stored a session that no later
    command can load: every later [exec] on the state file ends with the
    exception of the load before it runs any code, and that exception is
    the error of the missing context when [pickle] loads the file back. *)
Theorem removing_content_in_place_breaks_the_session :
  forall py_exec format_exc (args : ExecArgs) (stdin : string)
         (fs : filesystem) (s : Session),
    load_session (a_state args) fs = ret s ->
    let r := py_exec (code_of args stdin)
               (build_env (s_persisted s) (s_ctx s) (s_buffers s)) in
    let outcome := cmd_exec py_exec format_exc args stdin fs in
    o_status outcome = ret 0 ->
    dict_contains (x_context r) "content" = false ->
    (forall d, dict_lookup (x_env r) "context" = Some (VDict d) ->
               dict_contains d "content" = false) ->
    exists e,
      load_session (a_state args) (o_fs outcome) = raise e /\
      (forall py_exec' format_exc' (args' : ExecArgs) (stdin' : string),
          a_state args' = a_state args ->
          cmd_exec py_exec' format_exc' args' stdin' (o_fs outcome)
          = mkOutcome (o_fs outcome) "" "" (raise e)) /\
      (forall loaded,
          _load_state (a_state args) (o_fs outcome) = ret loaded ->
          e = missing_context).
Proof.
  intros py_exec format_exc args stdin fs s Hload r outcome Hok Hgone Hbind.
  destruct (stored_entries py_exec format_exc args stdin fs s Hload Hok)
    as (state & kept & dropped & _ & Hstored & Hctx & _).
  fold r in Hctx. fold outcome in Hstored.
  assert (Hrc : reconciled_context (x_env r) r = VDict (x_context r)).
  { unfold reconciled_context, dict_get.
    destruct (dict_lookup (x_env r) "context") as [[]|] eqn:E;
      try reflexivity.
    now rewrite (Hbind _ eq_refl). }
  assert (Hnext : exists e,
             load_session (a_state args) (o_fs outcome) = raise e /\
             (forall loaded,
                 _load_state (a_state args) (o_fs outcome) = ret loaded ->
                 e = missing_context)).
  { rewrite load_session_eq, (stored_state_load _ _ _ Hstored).
    destruct (loads_ok (VDict state)).
    - exists missing_context. cbn [bind ret]. rewrite Hctx, Hrc, Hgone.
      split; reflexivity.
    - eexists. split; [reflexivity|]. intros loaded H. discriminate H. }
  destruct Hnext as (e & Hnext & Hmissing). exists e.
  split; [exact Hnext|]. split; [|exact Hmissing].
  intros py_exec' format_exc' args' stdin' Hargs. unfold cmd_exec.
  rewrite Hargs, Hnext. reflexivity.
Qed.

(** The theorem at a sample input: [del context["content"]] returns 0. *)
Lemma removing_content_in_place_breaks_the_session_witness :
  load_session (a_state demo_args) demo_fs = ret demo_session /\
  o_status (cmd_exec demo_exec_forget demo_format_exc demo_args "" demo_fs)
    = ret 0 /\
  load_session (a_state demo_args)
    (o_fs (cmd_exec demo_exec_forget demo_format_exc demo_args "" demo_fs))
  = raise missing_context.
Proof.
  split; [reflexivity|]. split; [reflexivity|].
  destruct (removing_content_in_place_breaks_the_session demo_exec_forget
              demo_format_exc demo_args "" demo_fs demo_session
              eq_refl eq_refl eq_refl
              ltac:(intros d H; vm_compute in H; injection H as <-;
                    reflexivity))
    as (e & Hnext & _ & Hmissing).
  rewrite Hnext. f_equal. eapply Hmissing. vm_compute. reflexivity.
Defined.

(* ===================================================================== *)
(** * Line numbers of [grep] on content with line feeds *)
(* ===================================================================== *)

Lemma count_le_cons (pos x : Z) (l : list Z) :
  count_le pos (x :: l) = (if x <=? pos then 1 else 0) + count_le pos l.
Proof.
  unfold count_le. cbn [filter]. destruct (x <=? pos); cbn [List.length]; lia.
Qed.

Lemma count_le_above (pos : Z) (l : list Z) :
  (forall x, In x l -> pos < x) -> count_le pos l = 0.
Proof.
  induction l as [|x l IH]; intros H; [reflexivity|].
  rewrite count_le_cons, IH by (intros y Hy; apply H; now right).
  specialize (H x (or_introl eq_refl)).
  destruct (Z.leb_spec x pos); lia.
Qed.

Lemma list_at_cons (x : Z) (l : list Z) (i : Z) :
  0 <= i -> list_at (x :: l) (i + 1) = list_at l i.
Proof.
  intros H. unfold list_at.
  replace (Z.to_nat (i + 1)) with (S (Z.to_nat i)) by lia. reflexivity.
Qed.

Lemma count_le_split (pos : Z) (l : list Z) : forall r,
  0 <= r <= Z.of_nat (List.length l) ->
  (forall i, 0 <= i < r -> list_at l i <= pos) ->
  (forall i, r <= i < Z.of_nat (List.length l) -> pos < list_at l i) ->
  count_le pos l = r.
Proof.
  induction l as [|x l IH]; intros r Hr Hbelow Habove.
  - cbn in Hr. cbn. lia.
  - rewrite count_le_cons. cbn [List.length] in Hr, Habove.
    destruct (Z.eq_dec r 0) as [->|Hpos].
    + pose proof (Habove 0 ltac:(lia)) as H0. unfold list_at in H0.
      cbn in H0. destruct (Z.leb_spec x pos); [lia|].
      rewrite (IH 0); [lia | lia | intros; lia |].
      intros i Hi. rewrite <- (list_at_cons x) by lia. apply Habove. lia.
    + pose proof (Hbelow 0 ltac:(lia)) as H0. unfold list_at in H0.
      cbn in H0. destruct (Z.leb_spec x pos); [|lia].
      rewrite (IH (r - 1)); [lia | lia | |].
      * intros i Hi. rewrite <- (list_at_cons x) by lia. apply Hbelow. lia.
      * intros i Hi. rewrite <- (list_at_cons x) by lia. apply Habove. lia.
Qed.

Lemma offset_to_line_count_le (l : list Z) (pos : Z) :
  StronglySorted Z.lt l -> _offset_to_line l pos = count_le pos l.
Proof.
  intros Hs. destruct (offset_to_line_count l pos Hs) as (Hr & Hb & Ha).
  symmetry. now apply count_le_split.
Qed.

Lemma append_not_empty (cur : string) (c : ascii) :
  String.eqb (cur ++ String c "") "" = false.
Proof. destruct cur; reflexivity. Qed.

Lemma splitlines_from_head (s : string) : forall cur,
  String.eqb cur "" = false ->
  exists line rest,
    splitlines_from cur s = line :: rest /\ str_len cur <= str_len line.
Proof.
  induction s as [|c s IH]; intros cur Hcur; cbn [splitlines_from].
  - rewrite Hcur. exists cur, []. split; [reflexivity | lia].
  - destruct (is_linebreak c).
    + eexists _, _. split; [reflexivity | lia].
    + destruct (IH _ (append_not_empty cur c)) as (line & rest & E & Hlen).
      exists line, rest. split; [exact E|].
      unfold str_len in *. rewrite append_length in Hlen. lia.
Qed.

Lemma splitlines_from_lf (cur s : string) :
  splitlines_from cur (String LF s) = cur :: splitlines_from "" s.
Proof.
  cbn [splitlines_from]. change (is_linebreak LF) with true. cbv iota.
  destruct s; reflexivity.
Qed.

(** On content that breaks lines with line feeds only, the recorded
    offsets at most a position are one more than the line feeds before
    it. *)
Lemma line_offsets_count_lf (s : string) : forall cur off p,
  lf_only s = true -> (p < String.length s)%nat ->
  count_le (off + str_len cur + Z.of_nat p)
    (line_offsets_loop (splitlines_from cur s) off [])
  = 1 + count_lf (substring 0 p s).
Proof.
  induction s as [|c s IH]; intros cur off p Hlf Hp; [cbn in Hp; lia|].
  cbn [lf_only] in Hlf. apply andb_true_iff in Hlf as [Hc Hlf].
  assert (Hcur : 0 <= str_len cur) by (unfold str_len; lia).
  destruct (is_linebreak c) eqn:Eb.
  - cbn [negb orb] in Hc. apply Ascii.eqb_eq in Hc. subst c.
    rewrite splitlines_from_lf, line_offsets_loop_cons, count_le_cons.
    destruct (Z.leb_spec off (off + str_len cur + Z.of_nat p)); [|lia].
    destruct p as [|p].
    + cbn [substring count_lf]. rewrite count_le_above; [lia|].
      intros x Hx. apply line_offsets_lower in Hx. lia.
    + cbn [substring count_lf]. change (Ascii.eqb LF LF) with true.
      cbn [String.length] in Hp.
      specialize (IH "" (off + (str_len cur + 1)) p Hlf ltac:(lia)).
      change (str_len "") with 0 in IH.
      replace (off + str_len cur + Z.of_nat (S p))
        with (off + (str_len cur + 1) + 0 + Z.of_nat p) by lia.
      rewrite IH. lia.
  - assert (Hne : Ascii.eqb c LF = false).
    { destruct (Ascii.eqb c LF) eqn:E; [|reflexivity].
      apply Ascii.eqb_eq in E. subst c. discriminate Eb. }
    cbn [splitlines_from]. rewrite Eb.
    destruct p as [|p].
    + cbn [substring count_lf].
      destruct (splitlines_from_head s _ (append_not_empty cur c))
        as (line & rest & E & Hlen).
      rewrite E, line_offsets_loop_cons, count_le_cons.
      destruct (Z.leb_spec off (off + str_len cur + Z.of_nat 0)); [|lia].
      rewrite count_le_above; [lia|].
      intros x Hx. apply line_offsets_lower in Hx.
      unfold str_len in *. rewrite append_length in Hlen.
      cbn [String.length] in Hlen. lia.
    + cbn [substring count_lf]. rewrite Hne.
      cbn [String.length] in Hp.
      specialize (IH (cur ++ String c "")%string off p Hlf ltac:(lia)).
      replace (off + str_len cur + Z.of_nat (S p))
        with (off + str_len (cur ++ String c "") + Z.of_nat p).
      * rewrite IH. lia.
      * unfold str_len. rewrite append_length. cbn [String.length]. lia.
Qed.

(** X17.  On a content whose only line boundaries are line feeds, the
    line number of every hit of [grep] that starts inside the content is
    one more than the number of line feeds before the start of the
    match. *)
Theorem grep_line_numbers_count_line_feeds :
  forall re_compile (context_ref : dict) (content pattern : string)
         (max_matches window flags : Z) (out : list GrepHit) (h : GrepHit),
    get_content context_ref = VStr content ->
    lf_only content = true ->
    grep re_compile context_ref pattern max_matches window flags = ret out ->
    In h out ->
    0 <= fst (hit_span h) < str_len content ->
    hit_line h = 1 + count_lf (str_slice content 0 (fst (hit_span h))).
Proof.
  intros re_compile context_ref content pattern max_matches window flags
         out h Hc Hlf Hrun Hin Hpos.
  unfold grep in Hrun. rewrite Hc in Hrun. cbn [str_receiver bind ret] in Hrun.
  destruct (re_compile pattern flags) as [e|p]; cbn [bind] in Hrun;
    [discriminate|].
  injection Hrun as <-. rewrite grep_loop_firstn in Hin.
  cbn [app] in Hin. apply in_map_iff in Hin as (m & <- & _).
  unfold grep_hit in *. cbn [hit_line hit_span fst] in *.
  rewrite offset_to_line_count_le by apply line_offsets_sorted.
  rewrite str_slice_inside by lia.
  pose proof (line_offsets_count_lf content "" 0 (Z.to_nat (m_start m)) Hlf)
    as H.
  change (str_len "") with 0 in H. unfold str_len in Hpos.
  rewrite Z2Nat.id in H by lia. rewrite Z.sub_0_r.
  change (Z.to_nat 0) with 0%nat. unfold splitlines.
  replace (0 + 0 + m_start m) with (m_start m) in H by lia.
  apply H. lia.
Qed.

Lemma grep_line_numbers_count_line_feeds_witness :
  exists h,
    grep compile_literal two_lines_context "d" 20 200 0 = ret [h] /\
    hit_line h = 2.
Proof.
  destruct (grep compile_literal two_lines_context "d" 20 200 0)
    as [e|out] eqn:E; [vm_compute in E; discriminate E|].
  assert (Hout : exists h, out = [h] /\ fst (hit_span h) = 4)
    by (vm_compute in E; injection E as <-; eexists; split; reflexivity).
  destruct Hout as (h & -> & Hspan).
  exists h. split; [reflexivity|].
  rewrite (grep_line_numbers_count_line_feeds compile_literal
             two_lines_context ("ab" ++ String LF "cd") "d" 20 200 0 [h] h
             eq_refl eq_refl E (or_introl eq_refl));
    rewrite Hspan; [reflexivity | cbn; lia].
Defined.

(* ===================================================================== *)
(** * What [extract_json_objects] collects *)
(* ===================================================================== *)

Lemma json_loop_firstn json_loads max_objects lines :
  decode_errors_only json_loads lines ->
  forall objects,
    json_loop json_loads max_objects lines objects
    = ret (objects
           ++ firstn (collected (max_objects
                                 - Z.of_nat (List.length objects)))
                (decoded json_loads lines)).
Proof.
  unfold collected.
  induction lines as [|line rest IH]; intros Herr objects;
    cbn [json_loop decoded flat_map].
  - rewrite firstn_nil. now rewrite app_nil_r.
  - assert (Hrest : decode_errors_only json_loads rest)
      by (intros l e Hl; apply Herr; now right).
    fold (decoded json_loads rest). cbv zeta.
    destruct (starts_with_brace (strip line)) eqn:Eb;
      [|cbn [app]; now apply IH].
    destruct (json_loads (strip line)) as [e|obj] eqn:El.
    + rewrite (Herr line e (or_introl eq_refl) Eb El). cbn [app].
      now apply IH.
    + rewrite length_app. cbn [List.length app].
      destruct (Z.of_nat (List.length objects + 1) >=? max_objects) eqn:E.
      * rewrite Z.geb_leb in E. apply Z.leb_le in E.
        replace (Z.to_nat (Z.max 1 (max_objects
                                    - Z.of_nat (List.length objects))))
          with 1%nat by lia.
        reflexivity.
      * rewrite Z.geb_leb in E. apply Z.leb_gt in E.
        rewrite (IH Hrest), length_app. cbn [List.length].
        replace (Z.to_nat (Z.max 1 (max_objects
                                    - Z.of_nat (List.length objects))))
          with (S (Z.to_nat
                     (Z.max 1 (max_objects
                               - Z.of_nat (List.length objects + 1)))))
          by lia.
        cbn [firstn]. now rewrite <- app_assoc.
Qed.

Lemma decoded_origin json_loads (lines : list string) (obj : value) :
  In obj (decoded json_loads lines) ->
  exists line,
    In line lines /\ starts_with_brace (strip line) = true /\
    json_loads (strip line) = ret obj.
Proof.
  unfold decoded. intros H. apply in_flat_map in H as (line & Hl & H).
  exists line. split; [exact Hl|].
  destruct (starts_with_brace (strip line)); [|destruct H].
  split; [reflexivity|].
  destruct (json_loads (strip line)) as [e|o]; [destruct H|].
  destruct H as [<-|[]]. reflexivity.
Qed.

(** X18.  [extract_json_objects] decodes the stripped lines that start
    with a brace, passes over those the decoder rejects, and returns the
    first objects in the order of the lines, as many as [max_objects]
    says but never fewer than one when a line decodes; every object it
    returns is the decoding of such a line.  A line that starts with
    anything else is not given to the decoder. *)
Theorem extract_json_objects_returns_first_decoded :
  forall json_loads (context_ref : dict) (content : string)
         (max_objects : Z),
    get_content context_ref = VStr content ->
    decode_errors_only json_loads (splitlines content) ->
    extract_json_objects json_loads context_ref max_objects
    = ret (firstn (collected max_objects)
             (decoded json_loads (splitlines content))) /\
    forall obj,
      In obj (firstn (collected max_objects)
                (decoded json_loads (splitlines content))) ->
      exists line,
        In line (splitlines content) /\
        starts_with_brace (strip line) = true /\
        json_loads (strip line) = ret obj.
Proof.
  intros json_loads context_ref content max_objects Hc Herr. split.
  - unfold extract_json_objects. rewrite Hc. cbn [str_receiver bind ret].
    rewrite (json_loop_firstn json_loads max_objects _ Herr []).
    cbn [app List.length]. now rewrite Z.sub_0_r.
  - intros obj H. apply firstn_member in H.
    now apply decoded_origin.
Qed.

Lemma extract_json_objects_returns_first_decoded_witness :
  get_content [("content", VStr json_lines)] = VStr json_lines /\
  extract_json_objects sample_json_loads [("content", VStr json_lines)] 0
  = ret [VDict []] /\
  extract_json_objects sample_json_loads [("content", VStr json_lines)] 50
  = ret [VDict []; VDict []].
Proof.
  assert (Herr : decode_errors_only sample_json_loads (splitlines json_lines)).
  { intros line e _ _ H. unfold sample_json_loads in H.
    destruct (String.eqb (strip line) "{}"); [discriminate H|].
    injection H as <-. reflexivity. }
  split; [reflexivity|]. split.
  - rewrite (proj1 (extract_json_objects_returns_first_decoded
                      sample_json_loads [("content", VStr json_lines)]
                      json_lines 0 eq_refl Herr)).
    reflexivity.
  - rewrite (proj1 (extract_json_objects_returns_first_decoded
                      sample_json_loads [("content", VStr json_lines)]
                      json_lines 50 eq_refl Herr)).
    reflexivity.
Defined.

(* ===================================================================== *)
(** * The counts of [stats] *)
(* ===================================================================== *)

(** [splitlines] opens at most one line per character; the line under
    construction counts for one more. *)
Lemma splitlines_from_length (n : nat) : forall s cur,
  (String.length s <= n)%nat ->
  (List.length (splitlines_from cur s)
   <= String.length s + (if String.eqb cur "" then 0 else 1))%nat.
Proof.
  induction n as [|n IH]; intros s cur Hn.
  - destruct s; [|cbn in Hn; lia]. cbn [splitlines_from String.length].
    destruct (String.eqb cur ""); cbn; lia.
  - destruct s as [|c s]; cbn [splitlines_from String.length] in *.
    + destruct (String.eqb cur ""); cbn; lia.
    + destruct (is_linebreak c).
      * cbn [List.length].
        assert (H1 : (List.length (splitlines_from "" s)
                      <= String.length s)%nat).
        { specialize (IH s "" ltac:(lia)). cbn in IH. lia. }
        destruct s as [|c' s']; [cbn; lia|].
        destruct (Ascii.eqb c CR && Ascii.eqb c' LF); [|lia].
        specialize (IH s' "" ltac:(cbn [String.length] in Hn; lia)).
        cbn [String.length] in *. cbn in IH. lia.
      * specialize (IH s (cur ++ String c "")%string ltac:(lia)).
        rewrite append_not_empty in IH. lia.
Qed.

Lemma splitlines_length (s : string) :
  (List.length (splitlines s) <= String.length s)%nat.
Proof.
  unfold splitlines.
  pose proof (splitlines_from_length (String.length s) s "" (le_n _)) as H.
  cbn in H. lia.
Qed.

Lemma splitlines_nonempty (s : string) : s <> "" -> splitlines s <> [].
Proof.
  unfold splitlines. destruct s as [|c s]; [congruence|]. intros _.
  cbn [splitlines_from]. destruct (is_linebreak c); [discriminate|].
  destruct (splitlines_from_head s _ (append_not_empty "" c))
    as (line & rest & E & _).
  rewrite E. discriminate.
Qed.

Lemma filter_length_le {A} (f : A -> bool) (l : list A) :
  (List.length (filter f l) <= List.length l)%nat.
Proof.
  induction l as [|x l IH]; cbn [filter]; [lia|].
  destruct (f x); cbn [List.length]; lia.
Qed.

Lemma int_entry_set (d : dict) (k k' : string) (v : value) :
  String.eqb k' k = false ->
  int_entry (dict_set d k v) k' = int_entry d k'.
Proof.
  intros H. unfold int_entry. now rewrite dict_lookup_set, H.
Qed.

(** X19.  The report of [stats] on a string content is consistent: the
    characters are the length of the content, the non-empty lines are at
    most the lines and the lines at most the characters; there is no
    line exactly when there is no character, and then the average is 0
    (the division is by [max(len(lines), 1)]); otherwise the average is
    at least 1, at most the characters, and times the lines at most the
    characters. *)
Theorem stats_counts_are_consistent :
  forall (context_ref : dict) (content : string) (report : dict),
    get_content context_ref = VStr content ->
    stats context_ref = ret report ->
    exists chars lines non_empty avg,
      int_entry report "total_chars" = Some chars /\
      int_entry report "total_lines" = Some lines /\
      int_entry report "non_empty_lines" = Some non_empty /\
      int_entry report "avg_line_length" = Some avg /\
      chars = str_len content /\
      0 <= non_empty <= lines /\ lines <= chars /\
      (lines = 0 <-> chars = 0) /\
      avg * lines <= chars /\
      (chars = 0 -> avg = 0) /\
      (0 < chars -> 1 <= avg <= chars).
Proof.
  intros context_ref content report Hc Hrun.
  unfold stats in Hrun. rewrite Hc in Hrun.
  cbn [str_receiver bind ret] in Hrun. cbv zeta in Hrun.
  set (lines := splitlines content) in *.
  set (non_empty := filter (fun l => negb (String.eqb (strip l) "")) lines)
    in *.
  set (avg := str_len content / Z.max (Z.of_nat (List.length lines)) 1) in *.
  exists (str_len content), (Z.of_nat (List.length lines)),
    (Z.of_nat (List.length non_empty)), avg.
  assert (Hfacts :
    0 <= Z.of_nat (List.length non_empty) <= Z.of_nat (List.length lines) /\
    Z.of_nat (List.length lines) <= str_len content /\
    (Z.of_nat (List.length lines) = 0 <-> str_len content = 0) /\
    avg * Z.of_nat (List.length lines) <= str_len content /\
    (str_len content = 0 -> avg = 0) /\
    (0 < str_len content -> 1 <= avg <= str_len content)).
  { pose proof (filter_length_le
                  (fun l => negb (String.eqb (strip l) "")) lines) as Hf.
    fold non_empty in Hf.
    pose proof (splitlines_length content) as Hl. fold lines in Hl.
    assert (Hne : Z.of_nat (List.length lines) = 0 <-> str_len content = 0).
    { unfold str_len. split; intros H.
      - destruct content as [|c s]; [reflexivity|].
        pose proof (splitlines_nonempty (String c s) ltac:(discriminate)).
        fold lines in H0. destruct lines; [congruence | cbn in H; lia].
      - lia. }
    unfold str_len in *.
    split; [lia|]. split; [lia|]. split; [exact Hne|].
    set (n := Z.of_nat (List.length lines)) in *.
    set (c := Z.of_nat (String.length content)) in *.
    assert (Hn : 0 <= n) by (subst n; lia).
    assert (Hm : 0 < Z.max n 1) by lia.
    pose proof (Z.mul_div_le c (Z.max n 1) Hm) as Hlo.
    pose proof (Z.mul_succ_div_gt c (Z.max n 1) Hm) as Hhi.
    fold avg in Hlo, Hhi.
    destruct (Z.eq_dec n 0) as [E|E].
    - assert (Hc0 : c = 0) by (apply Hne; exact E).
      rewrite E. replace (Z.max n 1) with 1 in * by lia.
      split; [lia|]. split; lia.
    - replace (Z.max n 1) with n in * by lia.
      assert (Hc0 : c <> 0) by (intros H0; apply E, Hne; exact H0).
      split; [lia|]. split; [lia|]. intros _. split; nia. }
  destruct (truthy (dict_get context_ref "files" VNone)).
  - destruct (py_len (dict_get context_ref "files" VNone)) as [e|n];
      cbn [bind ret] in Hrun.
    + discriminate Hrun.
    + destruct (negb (count_matches error_pattern content =? 0)
                || negb (count_matches warning_pattern content =? 0));
        injection Hrun as <-;
        rewrite ?int_entry_set by reflexivity;
        (split; [reflexivity|]); (split; [reflexivity|]);
        (split; [reflexivity|]); (split; [reflexivity|]);
        (split; [reflexivity|]); exact Hfacts.
  - cbn [bind ret] in Hrun.
    destruct (negb (count_matches error_pattern content =? 0)
              || negb (count_matches warning_pattern content =? 0));
      injection Hrun as <-;
      rewrite ?int_entry_set by reflexivity;
      (split; [reflexivity|]); (split; [reflexivity|]);
      (split; [reflexivity|]); (split; [reflexivity|]);
      (split; [reflexivity|]); exact Hfacts.
Qed.

Lemma stats_counts_are_consistent_witness :
  get_content three_lines_context = VStr three_lines /\
  exists report avg,
    stats three_lines_context = ret report /\
    int_entry report "avg_line_length" = Some avg /\
    1 <= avg <= str_len three_lines.
Proof.
  split; [reflexivity|].
  destruct (stats three_lines_context) as [e|report] eqn:E;
    [vm_compute in E; discriminate E|].
  destruct (stats_counts_are_consistent three_lines_context three_lines
              report eq_refl E)
    as (chars & lines & non_empty & avg & _ & _ & _ & Havg & Hchars
        & _ & _ & _ & _ & _ & Hpos).
  exists report, avg. split; [reflexivity|]. split; [exact Havg|].
  subst chars. apply Hpos. reflexivity.
Defined.

(* ===================================================================== *)
(** * The commands [init] and [init-dir] *)
(* ===================================================================== *)

Lemma dumps_ok_strings (l : list string) :
  forallb dumps_ok (map VStr l) = true.
Proof. induction l; [reflexivity | exact IHl]. Qed.

Lemma loads_ok_strings (l : list string) :
  forallb loads_ok (map VStr l) = true.
Proof. induction l; [reflexivity | exact IHl]. Qed.

(** Saving a fresh state around a context that [pickle] takes both ways
    leaves a session that loads, with no buffers and no variables. *)
Lemma fresh_state_saved (ctx : dict) (path : string) (fs : filesystem) :
  dumps_ok (VDict ctx) = true -> loads_ok (VDict ctx) = true ->
  dict_contains ctx "content" = true ->
  exists saved,
    _save_state (fresh_state ctx) path fs = (saved, inr tt) /\
    load_session path saved = ret (mkSession (fresh_state ctx) ctx [] []).
Proof.
  intros Hd Hl Hc.
  assert (Hd' : dumps_ok (VDict (fresh_state ctx)) = true).
  { rewrite dumps_ok_dict. unfold fresh_state. cbn [forallb snd].
    rewrite Hd. reflexivity. }
  assert (Hl' : loads_ok (VDict (fresh_state ctx)) = true)
    by (cbn; cbn in Hl; rewrite Hl; reflexivity).
  unfold _save_state. rewrite (pickle_dumps_ok _ Hd'). cbn [ret].
  eexists. split; [reflexivity|].
  unfold load_session, _load_state, fs_replace, fs_write.
  rewrite !String.eqb_refl. unfold pickle_loads. rewrite Hl'.
  cbn [ret bind fresh_state dict_lookup String.eqb Ascii.eqb Bool.eqb].
  rewrite Hc. reflexivity.
Qed.

Lemma capped_prefix (max_bytes : option Z) (files : list (string * string)) :
  forall total, exists rest, files = capped max_bytes total files ++ rest.
Proof.
  induction files as [|f files IH]; intros total; [now exists []|].
  cbn [capped]. cbv zeta.
  destruct (cap_reached max_bytes (total + str_len (snd f))).
  - now exists files.
  - destruct (IH (total + str_len (snd f))) as (rest & E).
    exists rest. cbn [app]. now rewrite <- E.
Qed.

Lemma capped_all (max_bytes : option Z) (files : list (string * string)) :
  (forall t, cap_reached max_bytes t = false) ->
  forall total, capped max_bytes total files = files.
Proof.
  intros H. induction files as [|f files IH]; intros total; [reflexivity|].
  cbn [capped]. cbv zeta. now rewrite H, IH.
Qed.

Lemma total_chars_nonneg (files : list (string * string)) :
  0 <= total_chars files.
Proof.
  induction files as [|f files IH]; cbn [total_chars fold_right]; [lia|].
  fold (total_chars files). unfold str_len. lia.
Qed.

Lemma capped_under (m : Z) (files : list (string * string)) :
  m <> 0 ->
  forall total,
    let kept := capped (Some m) total files in
    ((2 <= List.length kept)%nat ->
     total + total_chars (removelast kept) < m) /\
    (kept <> files -> m <= total + total_chars kept).
Proof.
  intros Hm. induction files as [|f files IH]; intros total; cbv zeta.
  - cbn. split; [lia | congruence].
  - cbn [capped]. cbv zeta.
    destruct (cap_reached (Some m) (total + str_len (snd f))) eqn:E.
    + split; [cbn; lia|]. intros _. cbn [total_chars fold_right].
      unfold cap_reached in E. apply andb_true_iff in E as [_ E].
      rewrite Z.geb_leb in E. apply Z.leb_le in E. lia.
    + assert (Hlt : total + str_len (snd f) < m).
      { unfold cap_reached in E. apply andb_false_iff in E as [E|E].
        - apply negb_false_iff, Z.eqb_eq in E. contradiction.
        - rewrite Z.geb_leb in E. apply Z.leb_gt in E. exact E. }
      destruct (IH (total + str_len (snd f))) as [IH1 IH2].
      set (kept := capped (Some m) (total + str_len (snd f)) files) in *.
      split.
      * intros Hlen. destruct kept as [|k kept'] eqn:Ek; [cbn in Hlen; lia|].
        change (removelast (f :: k :: kept'))
          with (f :: removelast (k :: kept')).
        cbn [total_chars fold_right].
        fold (total_chars (removelast (k :: kept'))).
        destruct kept' as [|k' kept''].
        { cbn. lia. }
        specialize (IH1 ltac:(cbn; lia)). lia.
      * intros Hne. cbn [total_chars fold_right]. fold (total_chars kept).
        assert (kept <> files) by congruence.
        specialize (IH2 H). lia.
Qed.

Lemma should_exclude_part (parts : list string) (exclude : list string)
  (part : string) :
  In part parts -> In part exclude -> _should_exclude parts exclude = true.
Proof.
  intros Hp He. induction parts as [|p parts IH]; [destruct Hp|].
  cbn [_should_exclude]. destruct (set_mem p exclude) eqn:E; [reflexivity|].
  destruct Hp as [->|Hp]; [|now apply IH].
  unfold set_mem in E. rewrite <- not_true_iff_false in E.
  exfalso. apply E. apply existsb_exists. exists part.
  split; [exact He | apply String.eqb_refl].
Qed.

Section Loop.

Variable file_bytes : file_data -> result (list Byte.byte).
Variable decode_utf8 : list Byte.byte -> option string.
Variable decode_utf8_replace : list Byte.byte -> string.

Lemma init_dir_loop_spec (exclude : list string) (max_bytes : option Z)
  (fs : filesystem) (paths : list DirEntry) :
  reads_fail_softly file_bytes decode_utf8 decode_utf8_replace fs paths ->
  forall files_loaded parts total,
    init_dir_loop file_bytes decode_utf8 decode_utf8_replace exclude
      max_bytes fs paths files_loaded parts total
    = ret (files_loaded
           ++ map fst
                (capped max_bytes total
                   (eligible file_bytes decode_utf8 decode_utf8_replace
                      exclude fs paths)),
           parts
           ++ map render
                (capped max_bytes total
                   (eligible file_bytes decode_utf8 decode_utf8_replace
                      exclude fs paths))).
Proof.
  induction paths as [|p paths IH]; intros Hsoft files_loaded parts total.
  - cbn. now rewrite !app_nil_r.
  - assert (Hrest : reads_fail_softly file_bytes decode_utf8
                      decode_utf8_replace fs paths)
      by (intros q e Hq; apply Hsoft; now right).
    cbn [init_dir_loop eligible flat_map].
    fold (eligible file_bytes decode_utf8 decode_utf8_replace exclude fs
            paths).
    destruct (e_is_file p); cbn [negb andb];
      [|cbn [app]; now apply IH].
    destruct (_should_exclude (e_parts p) exclude); cbn [negb];
      [cbn [app]; now apply IH|].
    destruct (_read_text_file file_bytes decode_utf8 decode_utf8_replace
                (e_path p) None fs) as [e|text] eqn:Er.
    + rewrite (Hsoft p e (or_introl eq_refl) Er). cbn [app]. now apply IH.
    + cbv zeta. cbn [app capped snd fst]. cbv zeta.
      destruct (cap_reached max_bytes (total + str_len text)).
      * reflexivity.
      * rewrite (IH Hrest). cbn [map fst]. unfold render at 2.
        cbn [fst snd]. now rewrite <- !app_assoc.
Qed.

End Loop.

Lemma dir_context_pickles (time_time root : string)
  (files : list (string * string)) :
  dumps_ok (VDict (dir_context time_time root files)) = true /\
  loads_ok (VDict (dir_context time_time root files)) = true /\
  dict_contains (dir_context time_time root files) "content" = true.
Proof.
  unfold dir_context. rewrite dumps_ok_dict.
  cbn [loads_ok forallb snd andb]. rewrite dumps_ok_list.
  rewrite dumps_ok_strings, loads_ok_strings. repeat split.
Qed.

(** What [init-dir] comes to once the scan is known: the error when the
    loop kept no file, and otherwise a saved session around the files it
    kept. *)
Lemma cmd_init_dir_loaded file_bytes decode_utf8 decode_utf8_replace
  time_time is_dir glob_sorted (args : InitDirArgs) (fs : filesystem)
  (paths : list DirEntry) :
  is_dir (d_directory args) = true ->
  glob_sorted (d_directory args) (pattern_of args) = ret paths ->
  reads_fail_softly file_bytes decode_utf8 decode_utf8_replace fs paths ->
  let out := cmd_init_dir file_bytes decode_utf8 decode_utf8_replace
               time_time is_dir glob_sorted args fs in
  let loaded := capped (d_max_bytes args) 0
                  (eligible file_bytes decode_utf8 decode_utf8_replace
                     (exclude_of args) fs paths) in
  (loaded = [] ->
   out = escaped fs (no_files_matched (pattern_of args) (d_directory args)))
  /\
  (loaded <> [] ->
   o_status out = ret 0 /\
   load_session (d_state args) (o_fs out)
   = ret (mkSession
            (fresh_state (dir_context time_time (d_directory args) loaded))
            (dir_context time_time (d_directory args) loaded) [] [])).
Proof.
  intros Hdir Hglob Hsoft. cbv zeta.
  unfold cmd_init_dir. cbv zeta. rewrite Hdir, Hglob. cbn [negb].
  unfold ret. cbv iota beta.
  rewrite (init_dir_loop_spec file_bytes decode_utf8 decode_utf8_replace
             (exclude_of args) (d_max_bytes args) fs paths Hsoft [] [] 0).
  cbn [app].
  set (loaded := capped (d_max_bytes args) 0
                   (eligible file_bytes decode_utf8 decode_utf8_replace
                      (exclude_of args) fs paths)).
  split; intros Hloaded.
  - rewrite Hloaded. reflexivity.
  - destruct loaded as [|f rest] eqn:E; [congruence|].
    destruct (dir_context_pickles time_time (d_directory args) (f :: rest))
      as (Hd & Hl & Hc).
    destruct (fresh_state_saved _ (d_state args) fs Hd Hl Hc)
      as (saved & Hsave & Hload).
    unfold ret. cbv iota beta. cbn [map app].
    unfold dir_context in Hsave. cbn [map] in Hsave.
    rewrite Hsave. cbn [o_status o_fs]. split; [reflexivity|].
    exact Hload.
Qed.



(** X21.  [_should_exclude] looks at every part of a path, the parts
    of the root included: when a part of the root directory itself is an
    excluded name, every path of the scan is passed over, and [init-dir]
    ends in [main] with status 2 and the message that no file matched,
    the files left as they were. *)
Theorem init_dir_excluded_root_loads_nothing :
  forall file_bytes decode_utf8 decode_utf8_replace (time_time : string)
         is_dir glob_sorted (args : InitDirArgs) (fs : filesystem)
         (paths : list DirEntry) (root_parts : list string) (part : string),
    is_dir (d_directory args) = true ->
    glob_sorted (d_directory args) (pattern_of args) = ret paths ->
    (forall path, In path paths ->
                  exists rel, e_parts path = root_parts ++ rel) ->
    In part root_parts -> In part (exclude_of args) ->
    main_handler
      (cmd_init_dir file_bytes decode_utf8 decode_utf8_replace time_time
         is_dir glob_sorted args fs)
    = mkOutcome fs ""
        ("ERROR: "
         ++ ("No files matched pattern '" ++ pattern_of args ++ "' in "
             ++ d_directory args)
         ++ String LF "")
        (ret 2).
Proof.
  intros file_bytes decode_utf8 decode_utf8_replace time_time is_dir
         glob_sorted args fs paths root_parts part Hdir Hglob Hroot Hpart
         Hexcl.
  unfold cmd_init_dir. cbv zeta. rewrite Hdir, Hglob. cbn [negb].
  unfold ret. cbv iota beta.
  assert (Hloop : init_dir_loop file_bytes decode_utf8 decode_utf8_replace
                    (exclude_of args) (d_max_bytes args) fs paths [] [] 0
                  = ret ([], [])).
  { clear Hglob.
    generalize (@nil string) at 1 3. generalize (@nil string).
    generalize 0.
    induction paths as [|p paths IH]; intros total parts files;
      [reflexivity|].
    cbn [init_dir_loop].
    destruct (Hroot p (or_introl eq_refl)) as (rel & Hrel).
    rewrite (should_exclude_part (e_parts p) (exclude_of args) part);
      [| rewrite Hrel; apply in_or_app; now left | exact Hexcl].
    destruct (e_is_file p); cbn [negb];
      apply IH; intros q Hq; apply Hroot; now right. }
  rewrite Hloop. reflexivity.
Qed.

Lemma init_dir_excluded_root_loads_nothing_witness :
  sample_is_dir "build" = true /\
  In "build" DEFAULT_EXCLUDE_DIRS /\
  o_status (main_handler (sample_init_dir "build" None)) = ret 2.
Proof.
  split; [reflexivity|].
  assert (Hin : In "build" DEFAULT_EXCLUDE_DIRS) by (cbn; tauto).
  split; [exact Hin|].
  unfold sample_init_dir.
  rewrite (init_dir_excluded_root_loads_nothing sample_file_bytes
             sample_decode sample_decode_replace "1700000000.5"
             sample_is_dir sample_glob
             (mkInitDirArgs "state.pkl" "build" "" None None) sample_tree
             [mkEntry "build/m.py" ["build"; "m.py"] true] ["build"]
             "build" eq_refl eq_refl).
  - reflexivity.
  - intros path [<-|[]]. now exists ["m.py"].
  - now left.
  - exact Hin.
Defined.

Lemma capped_nonempty (max_bytes : option Z) (total : Z)
  (files : list (string * string)) :
  files <> [] -> capped max_bytes total files <> [].
Proof. destruct files; [congruence | discriminate]. Qed.

Lemma eligible_origin file_bytes decode_utf8 decode_utf8_replace
  (exclude : list string) (fs : filesystem) (paths : list DirEntry)
  (path text : string) :
  In (path, text)
    (eligible file_bytes decode_utf8 decode_utf8_replace exclude fs paths) ->
  exists p,
    In p paths /\ e_path p = path /\ e_is_file p = true /\
    _should_exclude (e_parts p) exclude = false /\
    _read_text_file file_bytes decode_utf8 decode_utf8_replace path None fs
    = ret text.
Proof.
  unfold eligible. intros H. apply in_flat_map in H as (p & Hp & H).
  exists p. split; [exact Hp|].
  destruct (e_is_file p); [|destruct H].
  destruct (_should_exclude (e_parts p) exclude); [destruct H|].
  cbn [negb andb] in H.
  destruct (_read_text_file file_bytes decode_utf8 decode_utf8_replace
              (e_path p) None fs) as [e|t] eqn:E; [destruct H|].
  destruct H as [H|[]]. injection H as <- <-. repeat split. exact E.
Qed.

Lemma prefix_whole {A} (kept rest : list A) :
  kept ++ rest = kept -> rest = [].
Proof.
  intros H. apply (app_inv_head kept). now rewrite app_nil_r.
Qed.

(** X22.  When the scan holds a file that can be loaded, [init-dir]
    returns 0 and stores a session that [exec] loads, with no buffers
    and no variables: its [files] are the first of the regular files of
    the scan that lie outside the excluded names and can be read, in
    the order of the scan and at least one of them, and its content is
    their texts, each under its header, with a blank line between
    them.  Without [--max-bytes], or with 0, all of them are loaded. *)
Theorem init_dir_loads_eligible_files :
  forall file_bytes decode_utf8 decode_utf8_replace (time_time : string)
         is_dir glob_sorted (args : InitDirArgs) (fs : filesystem)
         (paths : list DirEntry),
    is_dir (d_directory args) = true ->
    glob_sorted (d_directory args) (pattern_of args) = ret paths ->
    reads_fail_softly file_bytes decode_utf8 decode_utf8_replace fs paths ->
    eligible file_bytes decode_utf8 decode_utf8_replace (exclude_of args)
      fs paths <> [] ->
    let out := cmd_init_dir file_bytes decode_utf8 decode_utf8_replace
                 time_time is_dir glob_sorted args fs in
    exists loaded rest,
      eligible file_bytes decode_utf8 decode_utf8_replace (exclude_of args)
        fs paths = loaded ++ rest /\
      loaded <> [] /\
      o_status out = ret 0 /\
      load_session (d_state args) (o_fs out)
      = ret (mkSession
               (fresh_state
                  (dir_context time_time (d_directory args) loaded))
               (dir_context time_time (d_directory args) loaded) [] []) /\
      (forall path text,
          In (path, text) loaded ->
          exists p,
            In p paths /\ e_path p = path /\ e_is_file p = true /\
            _should_exclude (e_parts p) (exclude_of args) = false /\
            _read_text_file file_bytes decode_utf8 decode_utf8_replace
              path None fs = ret text) /\
      (d_max_bytes args = None \/ d_max_bytes args = Some 0 -> rest = []).
Proof.
  intros file_bytes decode_utf8 decode_utf8_replace time_time is_dir
         glob_sorted args fs paths Hdir Hglob Hsoft Hsome. cbv zeta.
  destruct (cmd_init_dir_loaded file_bytes decode_utf8 decode_utf8_replace
              time_time is_dir glob_sorted args fs paths Hdir Hglob Hsoft)
    as [_ Hrun].
  set (files := eligible file_bytes decode_utf8 decode_utf8_replace
                  (exclude_of args) fs paths) in *.
  destruct (capped_prefix (d_max_bytes args) files 0) as (rest & Hsplit).
  pose proof (capped_nonempty (d_max_bytes args) 0 files Hsome) as Hkept.
  destruct (Hrun Hkept) as [Hstatus Hload].
  exists (capped (d_max_bytes args) 0 files), rest.
  split; [exact Hsplit|]. split; [exact Hkept|].
  split; [exact Hstatus|]. split; [exact Hload|]. split.
  - intros path text Hin.
    apply (eligible_origin file_bytes decode_utf8 decode_utf8_replace
             (exclude_of args) fs paths).
    fold files. rewrite Hsplit. apply in_or_app. now left.
  - intros Hcap.
    assert (Hall : capped (d_max_bytes args) 0 files = files).
    { apply capped_all. intros t.
      destruct Hcap as [-> | ->]; reflexivity. }
    rewrite Hall in Hsplit. symmetry in Hsplit.
    now apply prefix_whole in Hsplit.
Qed.

Lemma init_dir_loads_eligible_files_witness :
  sample_is_dir "src" = true /\
  o_status (sample_init_dir "src" None) = ret 0 /\
  exists loaded,
    load_session "state.pkl" (o_fs (sample_init_dir "src" None))
    = ret (mkSession
             (fresh_state (dir_context "1700000000.5" "src" loaded))
             (dir_context "1700000000.5" "src" loaded) [] []) /\
    map fst loaded = ["src/a.py"; "src/c.py"].
Proof.
  split; [reflexivity|]. split; [reflexivity|].
  assert (Hsoft : reads_fail_softly sample_file_bytes sample_decode
                    sample_decode_replace sample_tree
                    [mkEntry "src/a.py" ["src"; "a.py"] true;
                     mkEntry "src/build" ["src"; "build"] false;
                     mkEntry "src/build/b.py" ["src"; "build"; "b.py"] true;
                     mkEntry "src/c.py" ["src"; "c.py"] true]).
  { intros p e [<-|[<-|[<-|[<-|[]]]]] H; vm_compute in H;
      try discriminate H; injection H as <-; reflexivity. }
  destruct (init_dir_loads_eligible_files sample_file_bytes sample_decode
              sample_decode_replace "1700000000.5" sample_is_dir
              sample_glob (mkInitDirArgs "state.pkl" "src" "" None None)
              sample_tree _ eq_refl eq_refl Hsoft
              ltac:(vm_compute; discriminate))
    as (loaded & rest & Hsplit & _ & _ & Hload & _ & Hall).
  exists loaded. split; [exact Hload|].
  rewrite (Hall (or_introl eq_refl)), app_nil_r in Hsplit.
  rewrite <- Hsplit. reflexivity.
Defined.

(** X23.  [--max-bytes] is tested after a file is loaded, against the
    characters loaded so far: the files loaded before the last one hold
    fewer characters than the cap, the last one is loaded whole, and
    files are left out only when the loaded ones reach the cap.  A
    negative cap loads exactly one file. *)
Theorem init_dir_cap_is_checked_after_loading :
  forall file_bytes decode_utf8 decode_utf8_replace (time_time : string)
         is_dir glob_sorted (args : InitDirArgs) (fs : filesystem)
         (paths : list DirEntry) (m : Z),
    is_dir (d_directory args) = true ->
    glob_sorted (d_directory args) (pattern_of args) = ret paths ->
    reads_fail_softly file_bytes decode_utf8 decode_utf8_replace fs paths ->
    eligible file_bytes decode_utf8 decode_utf8_replace (exclude_of args)
      fs paths <> [] ->
    d_max_bytes args = Some m -> m <> 0 ->
    let out := cmd_init_dir file_bytes decode_utf8 decode_utf8_replace
                 time_time is_dir glob_sorted args fs in
    exists loaded rest,
      eligible file_bytes decode_utf8 decode_utf8_replace (exclude_of args)
        fs paths = loaded ++ rest /\
      load_session (d_state args) (o_fs out)
      = ret (mkSession
               (fresh_state
                  (dir_context time_time (d_directory args) loaded))
               (dir_context time_time (d_directory args) loaded) [] []) /\
      ((2 <= List.length loaded)%nat ->
       total_chars (removelast loaded) < m) /\
      (rest <> [] -> m <= total_chars loaded) /\
      (m < 0 -> List.length loaded = 1%nat).
Proof.
  intros file_bytes decode_utf8 decode_utf8_replace time_time is_dir
         glob_sorted args fs paths m Hdir Hglob Hsoft Hsome Hmax Hm.
  cbv zeta.
  destruct (cmd_init_dir_loaded file_bytes decode_utf8 decode_utf8_replace
              time_time is_dir glob_sorted args fs paths Hdir Hglob Hsoft)
    as [_ Hrun].
  set (files := eligible file_bytes decode_utf8 decode_utf8_replace
                  (exclude_of args) fs paths) in *.
  destruct (capped_prefix (d_max_bytes args) files 0) as (rest & Hsplit).
  pose proof (capped_nonempty (d_max_bytes args) 0 files Hsome) as Hkept.
  destruct (Hrun Hkept) as [_ Hload].
  rewrite Hmax in *.
  destruct (capped_under m files Hm 0) as [Hunder Hreached].
  set (loaded := capped (Some m) 0 files) in *.
  exists loaded, rest.
  split; [exact Hsplit|]. split; [exact Hload|].
  split; [intros H; specialize (Hunder H); lia|]. split.
  - intros Hrest.
    assert (Hne : loaded <> files).
    { intros E. rewrite E in Hsplit. symmetry in Hsplit.
      apply prefix_whole in Hsplit. contradiction. }
    specialize (Hreached Hne). lia.
  - intros Hneg.
    destruct loaded as [|f [|g more]] eqn:E; [congruence | reflexivity |].
    specialize (Hunder ltac:(cbn; lia)).
    pose proof (total_chars_nonneg (removelast (f :: g :: more))). lia.
Qed.

Lemma init_dir_cap_is_checked_after_loading_witness :
  sample_is_dir "src" = true /\
  exists loaded,
    load_session "state.pkl" (o_fs (sample_init_dir "src" (Some 3)))
    = ret (mkSession
             (fresh_state (dir_context "1700000000.5" "src" loaded))
             (dir_context "1700000000.5" "src" loaded) [] []) /\
    3 <= total_chars loaded.
Proof.
  split; [reflexivity|].
  assert (Hsoft : reads_fail_softly sample_file_bytes sample_decode
                    sample_decode_replace sample_tree
                    [mkEntry "src/a.py" ["src"; "a.py"] true;
                     mkEntry "src/build" ["src"; "build"] false;
                     mkEntry "src/build/b.py" ["src"; "build"; "b.py"] true;
                     mkEntry "src/c.py" ["src"; "c.py"] true]).
  { intros p e [<-|[<-|[<-|[<-|[]]]]] H; vm_compute in H;
      try discriminate H; injection H as <-; reflexivity. }
  destruct (init_dir_cap_is_checked_after_loading sample_file_bytes
              sample_decode sample_decode_replace "1700000000.5"
              sample_is_dir sample_glob
              (mkInitDirArgs "state.pkl" "src" "" None (Some 3))
              sample_tree _ 3 eq_refl eq_refl Hsoft
              ltac:(vm_compute; discriminate) eq_refl ltac:(lia))
    as (loaded & rest & Hsplit & Hload & _ & Hreached & _).
  exists loaded. split; [exact Hload|].
  apply Hreached. intros ->. rewrite app_nil_r in Hsplit.
  unfold sample_init_dir in Hload. rewrite <- Hsplit in Hload.
  vm_compute in Hload. discriminate Hload.
Defined.

(* ===================================================================== *)
(** * The tokens [stats] counts *)
(* ===================================================================== *)

Lemma run_lit flags (w : string) : forall st k,
  PyRe.run flags (PyRe.lit w) st k
  = match eat flags w st with Some st' => k st' | None => None end.
Proof.
  induction w as [|p w IH]; intros st k; [reflexivity|].
  destruct w as [|q w'].
  - cbn [PyRe.lit PyRe.run eat].
    destruct (PyRe.step_char st (PyRe.lit_ok flags p)); reflexivity.
  - change (PyRe.lit (String p (String q w')))
      with (PyRe.RSeq (PyRe.RLit p) (PyRe.lit (String q w'))).
    cbn [PyRe.run]. change (eat flags (String p (String q w')) st)
      with (match PyRe.step_char st (PyRe.lit_ok flags p) with
            | Some st' => eat flags (String q w') st'
            | None => None
            end).
    destruct (PyRe.step_char st (PyRe.lit_ok flags p)); [apply IH|reflexivity].
Qed.

Lemma ascii_lower_word (c : ascii) : is_word (ascii_lower c) = is_word c.
Proof.
  destruct c as [b0 b1 b2 b3 b4 b5 b6 b7].
  destruct b0, b1, b2, b3, b4, b5, b6, b7; reflexivity.
Qed.

Lemma lit_ok_word (p c : ascii) :
  is_word p = true -> PyRe.lit_ok PyRe.I p c = true -> is_word c = true.
Proof.
  intros Hp H. unfold PyRe.lit_ok in H.
  change (PyRe.ignorecase PyRe.I) with true in H. cbv iota in H.
  apply Ascii.eqb_eq in H.
  rewrite <- ascii_lower_word, H, ascii_lower_word. exact Hp.
Qed.

Lemma head_word (s : string) :
  PyRe.opt_word (hd_error (list_ascii_of_string s)) = negb (word_ends s).
Proof. destruct s; cbn; [reflexivity|]. now rewrite negb_involutive. Qed.

(** What a literal of letters consumes. *)
Lemma eat_spec (w : string) :
  forallb is_word (list_ascii_of_string w) = true ->
  forall st s,
    PyRe.ms_rest st = list_ascii_of_string s ->
    match eat PyRe.I w st with
    | Some st' =>
        exists s',
          PyRe.ms_rest st' = list_ascii_of_string s' /\
          PyRe.ms_pos st' = (PyRe.ms_pos st + String.length w)%nat /\
          PyRe.ms_caps st' = PyRe.ms_caps st /\
          (w <> "" -> PyRe.opt_word (PyRe.ms_prev st') = true) /\
          (w = "" -> PyRe.ms_prev st' = PyRe.ms_prev st) /\
          word_prefix (String.length w) s = true /\
          (forall w2, word_here (w ++ w2) s = word_here w2 s') /\
          (forall m, word_prefix (String.length w + m) s = word_prefix m s')
    | None => forall w2, word_here (w ++ w2) s = false
    end.
Proof.
  induction w as [|p w IH]; intros Hw st s Hrest.
  - cbn [eat]. exists s. rewrite Nat.add_0_r. repeat split; try assumption.
    congruence.
  - cbn [list_ascii_of_string forallb] in Hw.
    apply andb_true_iff in Hw. destruct Hw as [Hp Hw].
    cbn [eat]. unfold PyRe.step_char. rewrite Hrest.
    destruct s as [|c s1]; cbn [list_ascii_of_string]; [reflexivity|].
    destruct (PyRe.lit_ok PyRe.I p c) eqn:Hc.
    + pose proof (lit_ok_word p c Hp Hc) as Hcw.
      specialize (IH Hw
                    (PyRe.mkState (S (PyRe.ms_pos st)) (Some c)
                       (list_ascii_of_string s1) (PyRe.ms_caps st))
                    s1 eq_refl).
      destruct (eat PyRe.I w _) as [st'|].
      * destruct IH as (s' & H1 & H2 & H3 & H4 & H5 & H6 & H7 & H8).
        exists s'. cbn [PyRe.ms_pos PyRe.ms_caps PyRe.ms_prev] in *.
        split; [exact H1|]. split; [cbn [String.length]; lia|].
        split; [exact H3|]. split.
        { intros _. destruct w as [|q w']; [|apply H4; discriminate].
          rewrite (H5 eq_refl). exact Hcw. }
        split; [discriminate|]. split.
        { cbn [String.length word_prefix]. now rewrite Hcw, H6. }
        split.
        { intros w2. cbn [append word_here]. rewrite H7.
          unfold PyRe.lit_ok in Hc.
          change (PyRe.ignorecase PyRe.I) with true in Hc. cbv iota in Hc.
          now rewrite Hc. }
        intros m. cbn [String.length Nat.add word_prefix].
        now rewrite Hcw, H8.
      * intros w2. cbn [append word_here]. rewrite IH. apply andb_false_r.
    + intros w2. cbn [append word_here].
      unfold PyRe.lit_ok in Hc.
      change (PyRe.ignorecase PyRe.I) with true in Hc. cbv iota in Hc.
      now rewrite Hc.
Qed.

Lemma before_word (prev : option ascii) :
  match prev with Some p => negb (is_word p) | None => true end
  = negb (PyRe.opt_word prev).
Proof. now destruct prev. Qed.

Lemma word_prefix_head (n : nat) (s : string) :
  (0 < n)%nat -> word_prefix n s = true ->
  PyRe.opt_word (hd_error (list_ascii_of_string s)) = true.
Proof.
  destruct n as [|n]; [lia|]. intros _. destruct s as [|c s]; cbn; [discriminate|].
  intros H. apply andb_true_iff in H. tauto.
Qed.

(** One alternative of a pattern of whole words: the literal, then what
    closes the group, then [\b]. *)
Lemma word_alt (w : string) (st : PyRe.mstate) (s : string)
  (capf : PyRe.mstate -> list (nat * (Z * Z))) :
  forallb is_word (list_ascii_of_string w) = true -> w <> "" ->
  PyRe.ms_rest st = list_ascii_of_string s ->
  match
    match eat PyRe.I w st with
    | Some st' =>
        if PyRe.at_word_boundary
             (PyRe.mkState (PyRe.ms_pos st') (PyRe.ms_prev st')
                (PyRe.ms_rest st') (capf st'))
        then Some (PyRe.mkState (PyRe.ms_pos st') (PyRe.ms_prev st')
                     (PyRe.ms_rest st') (capf st'))
        else None
    | None => None
    end
  with
  | Some r =>
      word_here w s = true /\
      PyRe.ms_pos r = (PyRe.ms_pos st + String.length w)%nat /\
      word_prefix (String.length w) s = true
  | None => word_here w s = false
  end.
Proof.
  intros Hw Hne Hrest.
  pose proof (eat_spec w Hw st s Hrest) as H.
  destruct (eat PyRe.I w st) as [st'|].
  - destruct H as (s' & H1 & H2 & H3 & H4 & _ & H6 & H7 & _).
    specialize (H7 ""). rewrite append_nil_r in H7. cbn [word_here] in H7.
    unfold PyRe.at_word_boundary. cbn [PyRe.ms_prev PyRe.ms_rest].
    rewrite (H4 Hne), H1, head_word, H7.
    destruct (word_ends s'); cbn [xorb negb PyRe.ms_pos];
      [now repeat split | reflexivity].
  - specialize (H ""). now rewrite append_nil_r in H.
Qed.

Lemma token_attempt (pos : nat) (prev : option ascii) (s : string)
  (words : list string) (inner : option PyRe.mstate) :
  match inner with
  | Some r =>
      existsb (fun w => word_here w s) words = true /\
      exists n, (0 < n)%nat /\
                PyRe.ms_pos r = (pos + n)%nat /\ word_prefix n s = true
  | None => existsb (fun w => word_here w s) words = false
  end ->
  match
    match
      (if PyRe.at_word_boundary
            (PyRe.mkState pos prev (list_ascii_of_string s) [])
       then inner else None)
    with
    | Some st' =>
        Some (mkMatch (Z.of_nat pos) (Z.of_nat (PyRe.ms_pos st'))
                (PyRe.ms_caps st'))
    | None => None
    end
  with
  | Some m =>
      token_here words prev s = true /\
      (0 < PyRe.match_len m)%nat /\
      word_prefix (PyRe.match_len m) s = true
  | None => token_here words prev s = false
  end.
Proof.
  intros H. unfold token_here. rewrite before_word.
  unfold PyRe.at_word_boundary. cbn [PyRe.ms_prev PyRe.ms_rest].
  destruct inner as [r|].
  - destruct H as (Hw & n & Hn & Hpos & Hpre). rewrite Hw, andb_true_r.
    rewrite (word_prefix_head n s Hn Hpre), xorb_true_r.
    destruct (PyRe.opt_word prev); cbn [negb]; [reflexivity|].
    unfold PyRe.match_len. cbn [m_start m_end]. rewrite Hpos.
    replace (Z.to_nat (Z.of_nat (pos + n) - Z.of_nat pos)) with n by lia.
    now repeat split.
  - rewrite H, andb_false_r. now destruct (xorb _ _).
Qed.

Lemma error_tokens : matches_tokens error_pattern error_words.
Proof.
  intros pos prev s. unfold PyRe.try_at, error_pattern.
  cbn [PyRe.seqs PyRe.run andb]. rewrite !run_lit.
  set (st := PyRe.mkState pos prev (list_ascii_of_string s) []).
  set (capf := fun st' : PyRe.mstate =>
                 (1%nat, (Z.of_nat (PyRe.ms_pos st), Z.of_nat (PyRe.ms_pos st')))
                   :: PyRe.ms_caps st').
  pose proof (word_alt "ERROR" st s capf eq_refl ltac:(discriminate) eq_refl)
    as H1.
  pose proof (word_alt "FATAL" st s capf eq_refl ltac:(discriminate) eq_refl)
    as H2.
  pose proof (word_alt "CRITICAL" st s capf eq_refl ltac:(discriminate)
                eq_refl) as H3.
  cbv beta in H1, H2, H3. apply token_attempt.
  unfold error_words. cbn [existsb].
  destruct (match eat PyRe.I "ERROR" st with Some _ => _ | None => _ end)
    as [r|].
  { destruct H1 as (-> & Hp & Hw). split; [reflexivity|].
    exists 5%nat. split; [lia|]. split; assumption. }
  rewrite H1.
  destruct (match eat PyRe.I "FATAL" st with Some _ => _ | None => _ end)
    as [r|].
  { destruct H2 as (-> & Hp & Hw). split; [reflexivity|].
    exists 5%nat. split; [lia|]. split; assumption. }
  rewrite H2.
  destruct (match eat PyRe.I "CRITICAL" st with Some _ => _ | None => _ end)
    as [r|].
  { destruct H3 as (-> & Hp & Hw). split; [reflexivity|].
    exists 8%nat. split; [lia|]. split; assumption. }
  rewrite H3. reflexivity.
Qed.

Lemma warning_tokens : matches_tokens warning_pattern warning_words.
Proof.
  intros pos prev s. unfold PyRe.try_at, warning_pattern, PyRe.opt.
  cbn [PyRe.seqs PyRe.run andb PyRe.rep_min PyRe.rep_max Nat.sub].
  rewrite !run_lit.
  set (st := PyRe.mkState pos prev (list_ascii_of_string s) []).
  apply token_attempt. unfold warning_words. cbn [existsb].
  pose proof (eat_spec "WARN" eq_refl st s eq_refl) as H1.
  destruct (eat PyRe.I "WARN" st) as [st1|].
  - destruct H1 as (s1 & R1 & P1 & _ & W1 & _ & Pre1 & Wh1 & Wp1).
    specialize (W1 ltac:(discriminate)).
    pose proof (Wh1 "") as E1. pose proof (Wh1 "ING") as E2.
    cbn [append] in E1, E2.
    change (word_here "" s1) with (word_ends s1) in E1.
    rewrite E1, E2. clear E1 E2.
    rewrite run_lit.
    pose proof (eat_spec "ING" eq_refl st1 s1 R1) as H2.
    assert (Hb1 : PyRe.at_word_boundary st1 = word_ends s1).
    { unfold PyRe.at_word_boundary. rewrite W1, R1, head_word.
      now destruct (word_ends s1). }
    destruct (eat PyRe.I "ING" st1) as [st2|].
    + destruct H2 as (s2 & R2 & P2 & _ & W2 & _ & Pre2 & Wh2 & _).
      specialize (W2 ltac:(discriminate)).
      pose proof (Wh2 "") as E3. cbn [append] in E3.
      change (word_here "" s2) with (word_ends s2) in E3.
      rewrite E3. clear E3.
      cbn [PyRe.ms_pos]. rewrite P2.
      replace (PyRe.ms_pos st1 <? PyRe.ms_pos st1 + String.length "ING")%nat
        with true by (symmetry; apply Nat.ltb_lt; cbn; lia).
      unfold PyRe.at_word_boundary at 1. cbn [PyRe.ms_prev PyRe.ms_rest].
      rewrite W2, R2, head_word.
      assert (Hs1 : word_ends s1 = false).
      { destruct s1 as [|c s1']; [discriminate Pre2|].
        cbn in Pre2. apply andb_true_iff in Pre2. cbn.
        destruct Pre2 as (-> & _). reflexivity. }
      rewrite Hs1.
      destruct (word_ends s2); cbn [xorb negb orb].
      * split; [reflexivity|]. exists 7%nat. split; [lia|].
        cbn [PyRe.ms_pos]. split; [rewrite P1; cbn; lia|].
        change 7%nat with (String.length "WARN" + 3)%nat.
        rewrite Wp1. exact Pre2.
      * rewrite Hb1, Hs1. reflexivity.
    + specialize (H2 ""). cbn [append] in H2. rewrite H2, Hb1.
      destruct (word_ends s1); cbn [orb].
      * split; [reflexivity|]. exists 4%nat. split; [lia|].
        split; [rewrite P1; cbn; lia | exact Pre1].
      * reflexivity.
  - pose proof (H1 "") as E1. pose proof (H1 "ING") as E2.
    cbn [append] in E1, E2. now rewrite E1, E2.
Qed.

Lemma token_after_word (words : list string) (prev : option ascii)
  (s : string) :
  PyRe.opt_word prev = true -> token_here words prev s = false.
Proof.
  intros H. unfold token_here. rewrite before_word, H. reflexivity.
Qed.

(** The scan of a pattern that matches tokens finds one match for each
    position at which a token stands. *)
Lemma scan_counts_tokens (r : PyRe.regex) (words : list string) :
  matches_tokens r words ->
  forall s pos prev inside,
    inside = O \/
    (PyRe.opt_word prev = true /\ word_prefix inside s = true) ->
    Z.of_nat (List.length
                (PyRe.scan_from PyRe.I r pos prev (list_ascii_of_string s)
                   inside))
    = count_tokens words prev s.
Proof.
  intros Hr. induction s as [|c s IH]; intros pos prev inside Hskip.
  - cbn [list_ascii_of_string PyRe.scan_from count_tokens].
    destruct inside as [|j].
    + unfold PyRe.matches_here. specialize (Hr pos prev "").
      cbn [list_ascii_of_string] in Hr.
      destruct (PyRe.try_at PyRe.I r pos prev [] false) as [m|].
      * destruct Hr as (_ & Hlen & Hpre).
        destruct (PyRe.match_len m); [lia | discriminate Hpre].
      * rewrite Hr. reflexivity.
    + destruct Hskip as [Hskip|(_ & Hw)]; [discriminate Hskip|].
      discriminate Hw.
  - cbn [list_ascii_of_string PyRe.scan_from count_tokens].
    destruct inside as [|j].
    + unfold PyRe.matches_here. specialize (Hr pos prev (String c s)).
      cbn [list_ascii_of_string] in Hr.
      destruct (PyRe.try_at PyRe.I r pos prev (c :: list_ascii_of_string s)
                  false) as [m|].
      * destruct Hr as (Ht & Hlen & Hpre). rewrite Ht.
        destruct (PyRe.match_len m) as [|n]; [lia|].
        cbn [Nat.pred app List.length]. rewrite Nat2Z.inj_succ.
        rewrite (IH (S pos) (Some c) n); [lia|].
        cbn [word_prefix] in Hpre. apply andb_true_iff in Hpre.
        destruct n as [|n']; [now left | right].
        cbn [PyRe.opt_word]. tauto.
      * rewrite Hr. cbn [Nat.pred app].
        rewrite (IH (S pos) (Some c) O); [lia | now left].
    + destruct Hskip as [Hskip|(Hp & Hw)]; [discriminate Hskip|].
      rewrite (token_after_word words prev _ Hp).
      cbn [Nat.pred app]. cbn [word_prefix] in Hw.
      apply andb_true_iff in Hw.
      rewrite (IH (S pos) (Some c) j); [lia|].
      destruct j as [|j']; [now left | right].
      cbn [PyRe.opt_word]. tauto.
Qed.

Lemma count_matches_tokens (r : PyRe.regex) (words : list string)
  (content : string) :
  matches_tokens r words ->
  count_matches r content = count_tokens words None content.
Proof.
  intros Hr. unfold count_matches, findall. rewrite length_map.
  cbn [PyRe.compile p_scan].
  apply (scan_counts_tokens r words Hr). now left.
Qed.

(** C9.  For a content string, and a context whose [files] entry is absent
    or a list, [stats] returns the number of characters, the number of
    lines of [splitlines], the number of lines that are not blank, and
    the quotient of the characters by the lines with the lines counted as
    at least one; [files_loaded] is there, with the length of the list,
    exactly when the list is not empty.  [error_count] is the number of
    positions at which ERROR, FATAL or CRITICAL stands as a whole word,
    letter case apart, and [warning_count] that of WARN and WARNING; both
    are there as soon as one of the two is not zero, and both left out
    otherwise. *)
Theorem stats_reports :
  forall (context_ref : dict) (content : string),
    get_content context_ref = VStr content ->
    (dict_lookup context_ref "files" = None \/
     exists files, dict_lookup context_ref "files" = Some (VList files)) ->
    exists result,
      stats context_ref = ret result /\
      let lines := splitlines content in
      let errors := count_tokens error_words None content in
      let warnings := count_tokens warning_words None content in
      dict_lookup result "total_chars" = Some (VInt (str_len content)) /\
      dict_lookup result "total_lines"
        = Some (VInt (Z.of_nat (List.length lines))) /\
      dict_lookup result "non_empty_lines"
        = Some (VInt (Z.of_nat
                        (List.length
                           (filter (fun l => negb (String.eqb (strip l) ""))
                              lines)))) /\
      dict_lookup result "avg_line_length"
        = Some (VInt (str_len content
                      / Z.max (Z.of_nat (List.length lines)) 1)) /\
      dict_lookup result "files_loaded"
        = match dict_lookup context_ref "files" with
          | Some (VList (f :: fs)) =>
              Some (VInt (Z.of_nat (List.length (f :: fs))))
          | _ => None
          end /\
      (0 < errors + warnings ->
       dict_lookup result "error_count" = Some (VInt errors) /\
       dict_lookup result "warning_count" = Some (VInt warnings)) /\
      (errors + warnings = 0 ->
       dict_lookup result "error_count" = None /\
       dict_lookup result "warning_count" = None).
Proof.
  intros context_ref content Hc Hfiles.
  unfold stats. rewrite Hc. cbn [str_receiver bind ret].
  rewrite (count_matches_tokens error_pattern error_words content
             error_tokens),
    (count_matches_tokens warning_pattern warning_words content
       warning_tokens).
  assert (He : 0 <= count_tokens error_words None content).
  { rewrite <- (count_matches_tokens error_pattern error_words content
                  error_tokens). unfold count_matches. lia. }
  assert (Hw : 0 <= count_tokens warning_words None content).
  { rewrite <- (count_matches_tokens warning_pattern warning_words content
                  warning_tokens). unfold count_matches. lia. }
  set (errors := count_tokens error_words None content) in *.
  set (warnings := count_tokens warning_words None content) in *.
  clearbody errors warnings.
  unfold dict_get.
  destruct Hfiles as [Hf|(files & Hf)]; rewrite Hf;
    [|destruct files as [|f fs]];
    cbn [truthy py_len bind ret];
    destruct (errors =? 0) eqn:E1; destruct (warnings =? 0) eqn:E2;
    cbn [negb orb]; eexists; (split; [reflexivity|]); cbv zeta;
    repeat split; try reflexivity; intros; lia.
Qed.

(** The theorem at a log without [files]; its three lines hold one error
    token, in lower case, and one warning token. *)
Lemma stats_reports_witness :
  let ctx := [("content", VStr small_log)] in
  get_content ctx = VStr small_log /\
  dict_lookup ctx "files" = None /\
  exists result,
    stats ctx = ret result /\
    dict_lookup result "total_lines" = Some (VInt 3) /\
    dict_lookup result "error_count" = Some (VInt 1) /\
    dict_lookup result "warning_count" = Some (VInt 1).
Proof.
  cbv zeta. split; [reflexivity|]. split; [reflexivity|].
  destruct (stats_reports [("content", VStr small_log)] small_log
              eq_refl (or_introl eq_refl))
    as (result & Hrun & _ & Hlines & _ & _ & _ & Hcounts & _).
  exists result. split; [exact Hrun|]. split; [exact Hlines|].
  apply Hcounts. reflexivity.
Defined.

(** Words that only contain a token are not counted, whatever their
    case. *)
Example count_tokens_whole_words :
  count_tokens error_words None "Errors: 2 error(s), xfatal, CRITICAL!" = 2 /\
  count_tokens warning_words None "warnings WARN warning_x Warning" = 2.
Proof. split; reflexivity. Qed.

(* ===================================================================== *)
(** * Line starts and the table of [grep] *)
(* ===================================================================== *)

Lemma str_len_append_char (cur : string) (c : ascii) :
  str_len (cur ++ String c "") = str_len cur + 1.
Proof. unfold str_len. rewrite append_length. cbn [String.length]. lia. Qed.

(** Where no [\r\n] occurs, the table [grep] builds holds the line
    starts. *)
Lemma line_offsets_from (s : string) : forall cur off,
  no_crlf s = true ->
  line_offsets_loop (splitlines_from cur s) off []
  = if String.eqb cur "" && String.eqb s "" then []
    else off :: starts_after (off + str_len cur) s.
Proof.
  induction s as [|c s IH]; intros cur off Hs.
  - cbn [splitlines_from starts_after]. rewrite andb_true_r.
    destruct (String.eqb cur ""); reflexivity.
  - rewrite andb_false_r. cbn [splitlines_from starts_after].
    assert (Hs' : no_crlf s = true).
    { destruct s as [|c' s']; [reflexivity|]. cbn [no_crlf] in Hs.
      apply andb_true_iff in Hs. tauto. }
    destruct (is_linebreak c).
    + rewrite line_offsets_loop_cons. f_equal.
      destruct s as [|c' s']; [reflexivity|].
      cbn [no_crlf] in Hs. apply andb_true_iff in Hs.
      destruct Hs as (Hcr & _). apply negb_true_iff in Hcr. rewrite Hcr.
      rewrite (IH "" _ Hs'). cbn [String.eqb andb].
      change (str_len "") with 0. rewrite Z.add_0_r.
      now replace (off + (str_len cur + 1)) with (off + str_len cur + 1)
        by lia.
    + rewrite (IH _ off Hs'), append_not_empty. cbn [andb].
      rewrite str_len_append_char.
      now replace (off + (str_len cur + 1)) with (off + str_len cur + 1) by lia.
Qed.

Lemma line_offsets_without_crlf (content : string) :
  no_crlf content = true -> line_offsets_of content = line_starts content.
Proof.
  intros H. unfold line_offsets_of, splitlines.
  rewrite (line_offsets_from content "" 0 H).
  destruct content; reflexivity.
Qed.


(** C5.  The table [grep] builds adds one to the length of each line,
    while [splitlines] also ends a line at [\r\n], which takes two
    characters.  On the content "a\r\nb\r\nc\r\nd" the lines start at the
    offsets 0, 3, 6 and 9 and the table holds 0, 2, 4 and 6: the match of
    [c] at offset 6, the start of line 3, is the largest line start at
    most 6, and [find_lines] gives line 3 for it, but [grep] reports
    line 4. *)
Theorem grep_line_drifts_after_crlf :
  splitlines crlf_lines = ["a"; "b"; "c"; "d"] /\
  line_starts crlf_lines = [0; 3; 6; 9] /\
  line_offsets_of crlf_lines = [0; 2; 4; 6] /\
  str_slice crlf_lines 6 7 = "c" /\
  line_of_offset crlf_lines 6 = 3 /\
  (exists h,
      grep compile_literal crlf_context "c" 20 200 0 = ret [h] /\
      hit_match h = "c" /\ hit_span h = (6, 7) /\ hit_line h = 4) /\
  find_lines compile_literal crlf_context "c" 20 0 = ret [(3, "c")].
Proof.
  split; [reflexivity|]. split; [reflexivity|]. split; [reflexivity|].
  split; [reflexivity|]. split; [reflexivity|]. split; [|reflexivity].
  eexists. split; [reflexivity|]. repeat split.
Qed.

(** X24.  On a content in which no [\r\n] occurs, the table [grep]
    builds holds the offsets at which the lines start, and the line of
    every hit is the line its match starts on: the number of line starts
    that are at most the start of the match. *)
Theorem grep_lines_without_crlf :
  forall re_compile (context_ref : dict) (content pattern : string)
         (max_matches window flags : Z) (out : list GrepHit) (h : GrepHit),
    get_content context_ref = VStr content ->
    no_crlf content = true ->
    grep re_compile context_ref pattern max_matches window flags = ret out ->
    In h out ->
    line_offsets_of content = line_starts content /\
    hit_line h = line_of_offset content (fst (hit_span h)).
Proof.
  intros re_compile context_ref content pattern max_matches window flags
         out h Hc Hn Hrun Hin.
  pose proof (line_offsets_without_crlf content Hn) as Htable.
  split; [exact Htable|].
  unfold grep in Hrun. rewrite Hc in Hrun. cbn [str_receiver bind ret] in Hrun.
  destruct (re_compile pattern flags) as [e|p]; cbn [bind] in Hrun;
    [discriminate|].
  injection Hrun as <-. rewrite grep_loop_firstn in Hin.
  cbn [app] in Hin. apply in_map_iff in Hin as (m & <- & _).
  unfold grep_hit. cbn [hit_line hit_span fst].
  rewrite offset_to_line_count_le by apply line_offsets_sorted.
  change (line_offsets_loop (splitlines content) 0 [])
    with (line_offsets_of content).
  rewrite Htable. reflexivity.
Qed.

(** The theorem at the content "ab\rcd", whose lines a carriage return
    separates. *)
Lemma grep_lines_without_crlf_witness :
  no_crlf ("ab" ++ String CR "cd") = true /\
  exists h,
    grep compile_literal [("content", VStr ("ab" ++ String CR "cd"))] "d"
      20 200 0 = ret [h] /\
    hit_line h = 2.
Proof.
  split; [reflexivity|].
  destruct (grep compile_literal [("content", VStr ("ab" ++ String CR "cd"))]
              "d" 20 200 0) as [e|out] eqn:E;
    [vm_compute in E; discriminate E|].
  assert (Hout : exists h, out = [h] /\ fst (hit_span h) = 4)
    by (vm_compute in E; injection E as <-; eexists; split; reflexivity).
  destruct Hout as (h & -> & Hspan).
  exists h. split; [reflexivity|].
  rewrite (proj2 (grep_lines_without_crlf compile_literal
                    [("content", VStr ("ab" ++ String CR "cd"))]
                    ("ab" ++ String CR "cd") "d" 20 200 0 [h] h
                    eq_refl eq_refl E (or_introl eq_refl))).
  rewrite Hspan. reflexivity.
Defined.
